(* ===== verification/_CoqProject ===== *)
-Q . S2P
Prelude.v
Vector.v
Matrix.v
Clip.v
Mesh.v
Screen.v
Pipeline.v
Frame.v
