(* ===== verification/Prelude.v ===== *)
(** * A verified model of the 3D-Render-Engine software pipeline

    The repository (src/VectorMatrix.h, src/main.cpp) renders a triangle
    mesh with a painter's algorithm.  Its parts, leaf first:

    - the vector library ([struct vector3D], VectorMatrix.h lines 3-107):
      homogeneous 4-component vectors, [operator+ - * /], [vDotProduct],
      [vCrossProduct], [vLength], [vNormalise];
    - the matrix library ([struct mat4x4], lines 18-286): zero-initialised
      4x4 arrays, [operator*], the builders [mIdentity], [mRotateX/Y/Z],
      [mTranslate], [mProject], [mPointAt], [mQuickInverse], and the free
      function [vectorMatrixProduct] (row-vector convention [v' = v . M]);
    - the plane clipper ([vectorIntersectsPlane], [Triangle_ClipAgainstPlane],
      lines 288-406): clips one triangle against one half-space into 0, 1
      or 2 triangles;
    - the mesh loader ([mesh::LoadFromObjectFile], lines 115-148): reads
      [v] and [f] lines of an OBJ file into the mesh's triangles;
    - the per-triangle transform stage (main.cpp lines 148-229): world
      transform, normal and back-face test, flat lighting, view transform,
      near-plane clip, projection, perspective divide, screen mapping;
    - the frame assembler (main.cpp lines 232-288): depth sort by average z
      and clipping against the four screen edges with a FIFO queue;
    - the frame loop (main.cpp lines 14-139, 289): the camera moved by the
      keyboard and turned by the mouse, [matView] from [mPointAt] and
      [mQuickInverse], the window events, then the two stages above.

    The loader runs once; every frame the loop computes the camera and the
    matrices, the transform stage turns each mesh triangle into 0, 1 or 2
    candidates (calling the clipper against the near plane), and the
    assembler sorts the candidates and clips each against the screen edges
    (calling the clipper four times); the result is drawn.

    ** Files and what they model

    - [Prelude] (this file): the scalar model, the interface [Libm] to the
      C maths library with its laws [LibmLaws] and an executable instance,
      the option monad with its notation in [render_scope], the helper
      lemmas on [Q] shared by all components, the hint databases.
    - [Vector]: [Module Vector3D], the record [vector3D] with the source's
      fields x y z w and one definition per member function; the
      componentwise equivalences [veq] and [veq3] with [Proper] instances.
    - [Matrix]: [Module Mat4], [mat4x4] as a function from row and column
      to [Q], each builder as the sequence of entry writes of the source,
      [mat_mul] as the two nested loops of [operator*].
    - [Clip]: [Module Clipper], [triangle] and [color], the clipper with the
      reference parameter [plane_n] of [vectorIntersectsPlane] threaded as
      an explicit result (the source normalises the caller's copy again on
      every call), and the missing default branch as the error value [None].
    - [Mesh]: [Module ObjLoader], the loader over the characters of the
      file, with [getline] and the stream extractions as libstdc++ performs
      them; its outcome is a value, undefined behaviour, or divergence.
    - [Screen]: [Module Assembler], the depth sort (Stdlib's merge sort on
      the comparator of the source's lambda) and the queue loop of the
      screen-edge clipping, with its reference definition.
    - [Pipeline]: [Module Render], the per-triangle stage and the frame.
    - [Frame]: [Module MainLoop], the loop-carried state, one iteration as
      a function of the frame's inputs (elapsed time, keys, mouse, events),
      the loop over a finite sequence of frames, and the reachable states
      as an inductive step relation.

    ** Scalars

    A C++ [float] is modelled by an exact rational [Q]: every finite float
    is a dyadic rational, and [+ - * /] are modelled without rounding.
    Division by zero gives [0] in [Q] (a float gives an infinity or NaN);
    the theorems therefore carry the hypotheses under which the source
    divides by non-zero values (see below).  At one place the two agree
    without a hypothesis: a degenerate triangle's NaN normal and the zero
    vector of the model both fail the back-face test [< 0], so both cull
    the triangle.  The transcendental
    functions of <math.h> ([sqrtf], [sinf], [cosf], [tanf], [asin]) are the
    interface [Libm]; the theorems assume only the laws they need
    ([LibmLaws]: [sqrtf] respects [==] and is positive on positive
    arguments) or a pointwise hypothesis at the input they use
    ([sin^2 + cos^2 = 1], an exact square root), which keeps every
    hypothesis satisfiable.  [libm_approx] is an executable instance used
    by the witnesses.  Float constants such as [0.1f] are their decimal
    values.

    ** Where the model leaves the source, and the hypotheses that close the gap

    - [x / 0]: [vdiv], [vNormalise], [vectorIntersectsPlane],
      [project_vertex] and [face_normal] divide exactly, with [x / 0 = 0].
      The clipper's theorems assume a non-zero plane normal
      ([Clip.Clipper.nonzero_normal]); the projection theorems assume
      [tanf] of half the field of view non-zero, [far <> near] and, for a
      single vertex, a non-zero depth; the frame loop's safety theorem
      assumes [Resized] events with non-zero sides ([resize_ok]).
    - Float parsing: the loader's [extract_float] yields the exact decimal
      value, where [strtof] rounds to 24 bits; the round trip is stated for
      integer coordinates of magnitude at most [2^24], which are exact.
    - [(sf::Uint8)f] outside [[0, 255]] is undefined in C++; the model
      wraps modulo 256, and the colour theorems show where the value is in
      range.
    - The SFML view, which keeps 800 x 600 coordinates after a resize, is
      not modelled: screen-coordinate theorems speak of the pipeline's
      [fScreenWidth] and [fScreenHeight].

    ** Theorems (by group)

    - Clipper: the four cases are exhaustive (no fall-through) and refine a
      reference clipper; each case's result, pinned to the crossing points
      [cut] of the named edges, with the area of the two-inside split; every
      emitted vertex on the kept side and inside every half-space
      containing the input.
    - Assembler: the queue loop equals the per-edge reference, at most 16
      triangles per input, every vertex drawn in the screen rectangle, the
      frame is a depth-sorted permutation clipped in order.
    - Render: the perspective divide is never by a [w] below the near
      distance, back-facing and reversed triangles are culled, colour
      channels stay in range, every frame is on screen for any [mProject]
      projection, the view axis maps to the screen centre.
    - ObjLoader: termination of the loop for the fuel chosen, a print/load
      round trip, the loop invariant, undefined behaviour on a bad index,
      divergence on a long line, [v] followed by a letter ([vn], [vt])
      taken as the vertex [(0,0,0)].
    - MainLoop: the camera basis is orthonormal, the view lags the camera
      movement (the target is stale), the mouse guard keeps [asin] in its
      domain, every frame of a run from a reachable state draws on screen,
      [matProj] always matches the aspect ratio, [Closed] ends the loop
      (events after it are not polled, as [sf::Window::pollEvent] returns
      [false] once the window is closed).
    - Matrix: the composition order of [operator*], the quick inverse of a
      rigid transform, the depth range of the projection.

    ** Recursion and bounds

    The screen-edge queue loop is a [Fixpoint] on the source's own counter
    [nNewTriangles] ([Screen.clip_queue]); the loader's [while] loop runs
    on fuel [length file + 1], which is enough because every iteration
    that continues consumes at least one character (theorem
    [LoadFromObjectFile_terminates], and [load_lines_fuel]: any two fuels
    above the file's length give the same outcome); the
    frame loop is modelled on finite sequences of frames.  The bound [16]
    of the screen pass follows from each edge at most doubling the queue.
    Colour channels are [sf::Uint8]: [Pipeline.Render.uint8_of_float]
    truncates towards zero and wraps modulo 256; face indices are [int]s
    checked against [[INT_MIN, INT_MAX]] as the extraction does.

    ** What modelling showed

    - [mPointAt] computes [newUp = a - up] where the spec has [up - a].
    - [Triangle_ClipAgainstPlane] has no [return] after its four cases;
      the fall-through is unreachable.
    - The lighting converts [dp * 150] to [sf::Uint8] before its clamp;
      with [dp <= 1] the conversion is in range.
    - The projection maps view depth [[near, far]] onto [[0, 1]].
    - The loader loops for ever on a line of 128 characters or more,
      loads [vn] and [vt] lines as vertices [(0,0,0)], and reaches
      undefined behaviour on [f 1/1 2/2 3/3] and on a bad index.
    - The target of [mPointAt] is computed before the camera moves: the
      up arrow tilts the view, and [W] held through a long frame turns it
      round.
    - A [Resized] event with a zero side makes the aspect ratio [0 / 0];
      the view is not updated after a resize (the comment of main.cpp
      line 133).

    ** Not modelled

    SFML window creation, clearing, drawing and display, the clock, the
    keyboard and the mouse are I/O: their values are a frame's inputs and
    the triangle list handed to [window.draw] is its output.  The file
    system is reduced to the file's contents ([None] when it cannot be
    opened).  Float rounding is not modelled (see Scalars and the list
    of gaps above).
*)

From Stdlib Require Import QArith Qround Lqa Setoid Morphisms List ZArith Lia Sorted.
Import ListNotations.

Declare Scope render_scope.
Delimit Scope render_scope with render.
Open Scope Q_scope.

Create HintDb render.
Create Rewrite HintDb render_rw.

(** ** The option monad: error paths of the model *)

Definition obind {A B : Type} (o : option A) (k : A -> option B) : option B :=
  match o with Some a => k a | None => None end.

Notation "x <- c ;; k" := (obind c (fun x => k))
  (at level 61, c at next level, right associativity) : render_scope.

Open Scope render_scope.

(** [omap_list f l] runs [f] on every element in order and concatenates
    the results; it fails as soon as one call fails. *)
Fixpoint omap_list {A B : Type} (f : A -> option (list B)) (l : list A)
  : option (list B) :=
  match l with
  | [] => Some []
  | a :: l' => r <- f a ;; rs <- omap_list f l' ;; Some (r ++ rs)
  end.

Lemma omap_list_total {A B : Type} (f : A -> option (list B)) (g : A -> list B) l :
  (forall a, In a l -> f a = Some (g a)) -> omap_list f l = Some (flat_map g l).
Proof.
  induction l as [|a l IH]; intros Hf; simpl; [reflexivity|].
  rewrite (Hf a (or_introl eq_refl)); simpl.
  rewrite IH by (intros; apply Hf; right; assumption). reflexivity.
Qed.

Lemma omap_list_some {A B : Type} (f : A -> option (list B)) l :
  (forall a, In a l -> exists r, f a = Some r) -> exists r, omap_list f l = Some r.
Proof.
  induction l as [|a l IH]; intros Hf; simpl; [eauto|].
  destruct (Hf a (or_introl eq_refl)) as [r Hr]. rewrite Hr. simpl.
  destruct IH as [rs Hrs]; [intros; apply Hf; right; assumption|].
  rewrite Hrs. simpl. eauto.
Qed.

(** A property of every piece returned by [omap_list]: each comes from the
    call on one input element. *)
Lemma omap_list_In {A B : Type} (f : A -> option (list B)) l r b :
  omap_list f l = Some r -> In b r -> exists a ra, In a l /\ f a = Some ra /\ In b ra.
Proof.
  revert r. induction l as [|a l IH]; intros r Hr Hb; simpl in Hr.
  - injection Hr as <-. contradiction.
  - destruct (f a) as [ra|] eqn:Ea; [|discriminate]. simpl in Hr.
    destruct (omap_list f l) as [rs|] eqn:Es; [|discriminate]. simpl in Hr.
    injection Hr as <-. apply in_app_or in Hb. destruct Hb as [Hb|Hb].
    + exists a, ra. split; [left; reflexivity | split; assumption].
    + destruct (IH rs eq_refl Hb) as (a'&ra'&H1&H2&H3). exists a', ra'.
      split; [right; assumption | split; assumption].
Qed.

Lemma omap_list_length {A B : Type} (f : A -> option (list B)) l r k :
  (forall a ra, In a l -> f a = Some ra -> (length ra <= k)%nat) ->
  omap_list f l = Some r -> (length r <= k * length l)%nat.
Proof.
  revert r. induction l as [|a l IH]; intros r Hk Hr; simpl in Hr.
  - injection Hr as <-. simpl. lia.
  - destruct (f a) as [ra|] eqn:Ea; [|discriminate]. simpl in Hr.
    destruct (omap_list f l) as [rs|] eqn:Es; [|discriminate]. simpl in Hr.
    injection Hr as <-. rewrite length_app.
    pose proof (Hk a ra (or_introl eq_refl) Ea).
    pose proof (IH rs (fun a' ra' H' => Hk a' ra' (or_intror H')) eq_refl).
    simpl. lia.
Qed.

Lemma Sorted_weaken {A : Type} (R R' : A -> A -> Prop) l :
  (forall a b, R a b -> R' a b) -> Sorted R l -> Sorted R' l.
Proof.
  intros HR HS. induction HS as [|a l HS IH Hd]; constructor; [exact IH|].
  destruct Hd; constructor. apply HR. assumption.
Qed.

(** ** Boolean comparisons on [Q], as the source's [float] comparisons *)

Definition Qltb (a b : Q) : bool := negb (Qle_bool b a).

Lemma Qle_bool_true a b : Qle_bool a b = true <-> a <= b.
Proof. apply Qle_bool_iff. Qed.

Lemma Qle_bool_false a b : Qle_bool a b = false <-> b < a.
Proof.
  split; intros H.
  - apply Qnot_le_lt. intros H'. apply Qle_bool_iff in H'. congruence.
  - destruct (Qle_bool a b) eqn:E; [apply Qle_bool_iff in E; lra | reflexivity].
Qed.

Lemma Qltb_true a b : Qltb a b = true <-> a < b.
Proof.
  unfold Qltb. destruct (Qle_bool b a) eqn:E; simpl.
  - apply Qle_bool_iff in E. split; [discriminate | lra].
  - apply Qle_bool_false in E. split; [intros; exact E | reflexivity].
Qed.

Lemma Qltb_false a b : Qltb a b = false <-> b <= a.
Proof.
  unfold Qltb. destruct (Qle_bool b a) eqn:E; simpl.
  - apply Qle_bool_iff in E. tauto.
  - apply Qle_bool_false in E. split; [discriminate | lra].
Qed.

#[export] Instance Qle_bool_proper : Proper (Qeq ==> Qeq ==> eq) Qle_bool.
Proof.
  intros a a' Ea b b' Eb. destruct (Qle_bool a b) eqn:E1, (Qle_bool a' b') eqn:E2;
    try reflexivity;
    [apply Qle_bool_true in E1; apply Qle_bool_false in E2
    |apply Qle_bool_false in E1; apply Qle_bool_true in E2]; rewrite Ea, Eb in *; lra.
Qed.

#[export] Instance Qltb_proper : Proper (Qeq ==> Qeq ==> eq) Qltb.
Proof. intros a a' Ea b b' Eb. unfold Qltb. rewrite Ea, Eb. reflexivity. Qed.

(** [qcase] splits on a boolean comparison of the goal or of a hypothesis
    and turns both branches into propositions for [lra]. *)
Ltac qcase_on e :=
  let E := fresh "E" in
  destruct e eqn:E;
  [ first [apply Qle_bool_true in E | apply Qltb_true in E | idtac]
  | first [apply Qle_bool_false in E | apply Qltb_false in E | idtac] ].

Ltac qcase :=
  match goal with
  | |- context [if Qle_bool ?a ?b then _ else _] => qcase_on (Qle_bool a b)
  | |- context [if Qltb ?a ?b then _ else _] => qcase_on (Qltb a b)
  | H : context [if Qle_bool ?a ?b then _ else _] |- _ => qcase_on (Qle_bool a b)
  | H : context [if Qltb ?a ?b then _ else _] |- _ => qcase_on (Qltb a b)
  end.

(** [qdecide] closes a closed comparison of rationals by evaluation. *)
Ltac qdecide :=
  first [ apply Qle_bool_true; vm_compute; reflexivity
        | apply Qltb_true; vm_compute; reflexivity
        | apply Qeq_bool_iff; vm_compute; reflexivity
        | let E := fresh in intros E; apply Qeq_bool_iff in E; vm_compute in E; discriminate E ].

(** ** Division and scaling on [Q] *)

Lemma Qdiv_nonneg a b : 0 <= a -> 0 < b -> 0 <= a / b.
Proof. intros Ha Hb. apply Qle_shift_div_l; lra. Qed.

Lemma Qdiv_sign_iff a b : 0 < b -> (0 <= a / b <-> 0 <= a).
Proof.
  intros Hb. split; intros H.
  - setoid_replace a with (a / b * b) by (field; lra).
    apply Qmult_le_0_compat; lra.
  - apply Qdiv_nonneg; assumption.
Qed.

Lemma Qdiv_zero_iff a b : 0 < b -> (a / b == 0 <-> a == 0).
Proof.
  intros Hb. split; intros H.
  - setoid_replace a with (a / b * b) by (field; lra). rewrite H. ring.
  - rewrite H. field. lra.
Qed.

(** The parameter of a segment crossing: if [da >= 0 > db] then
    [da / (da - db)] lies in [[0,1]]. *)
Lemma Qcross_param_range da db :
  0 <= da -> db < 0 -> 0 <= da / (da - db) /\ da / (da - db) <= 1.
Proof.
  intros Ha Hb. split.
  - apply Qle_shift_div_l; lra.
  - apply Qle_shift_div_r; lra.
Qed.

#[export] Hint Resolve Qdiv_nonneg Qcross_param_range : render.

(** ** Float to integer conversion *)

(** C++ converts a float to an integer type by truncation toward zero. *)
Definition Qtrunc (q : Q) : Z :=
  if Qle_bool 0 q then Qfloor q else Qceiling q.

#[export] Instance Qtrunc_proper : Proper (Qeq ==> eq) Qtrunc.
Proof.
  intros a b E. unfold Qtrunc.
  rewrite (Qfloor_comp _ _ E), (Qceiling_comp _ _ E), E. reflexivity.
Qed.

Lemma Qtrunc_range q : 0 <= q -> inject_Z (Qtrunc q) <= q < inject_Z (Qtrunc q) + 1.
Proof.
  intros H. unfold Qtrunc. qcase; [|lra].
  split; [apply Qfloor_le|].
  pose proof (Qlt_floor q). rewrite inject_Z_plus in H0. exact H0.
Qed.

Lemma Qtrunc_nonneg q : 0 <= q -> (0 <= Qtrunc q)%Z.
Proof.
  intros H. unfold Qtrunc. qcase; [|lra].
  change 0%Z with (Qfloor 0). apply Qfloor_resp_le. exact H.
Qed.

Lemma Qtrunc_le q (n : Z) : 0 <= q -> q <= inject_Z n -> (Qtrunc q <= n)%Z.
Proof.
  intros H Hn. unfold Qtrunc. qcase; [|lra].
  rewrite <- (Qfloor_Z n). apply Qfloor_resp_le. exact Hn.
Qed.

(** ** The C maths library *)

(** The functions of <math.h> the source calls.  Their results are floats,
    hence rationals; nothing is assumed of them beyond [LibmLaws] and the
    pointwise hypotheses a theorem states. *)
Class Libm := {
  sqrtf : Q -> Q;
  sinf : Q -> Q;
  cosf : Q -> Q;
  tanf : Q -> Q;
  asinf : Q -> Q
}.

Class LibmLaws `{Libm} : Prop := {
  sqrtf_proper : Proper (Qeq ==> Qeq) sqrtf;
  sqrtf_pos : forall q, 0 < q -> 0 < sqrtf q
}.

#[export] Existing Instance sqrtf_proper.

(** An executable instance: a square root rounded down to 16 binary
    digits after the point (exact on squares of such numbers), and
    truncated Taylor series for the trigonometric functions. *)
Definition qsqrt_approx (q : Q) : Q :=
  let (p, d) := Qred q in Qmake (Z.sqrt (p * Zpos d * 2 ^ 32)) (d * 65536)%positive.

Definition qsin_approx (a : Q) : Q :=
  let a2 := a * a in
  a * (1 - a2 / 6 * (1 - a2 / 20 * (1 - a2 / 42 * (1 - a2 / 72)))).

Definition qcos_approx (a : Q) : Q :=
  let a2 := a * a in
  1 - a2 / 2 * (1 - a2 / 12 * (1 - a2 / 30 * (1 - a2 / 56))).

Definition qasin_approx (a : Q) : Q :=
  let a2 := a * a in
  a * (1 + a2 / 6 * (1 + a2 * (9 # 20) * (1 + a2 * (25 # 42)))).

#[export] Instance libm_approx : Libm := {
  sqrtf := qsqrt_approx;
  sinf := qsin_approx;
  cosf := qcos_approx;
  tanf := fun a => qsin_approx a / qcos_approx a;
  asinf := qasin_approx
}.

Lemma qsqrt_approx_pos q : 0 < q -> 0 < qsqrt_approx q.
Proof.
  intros H. unfold qsqrt_approx. rewrite <- (Qred_correct q) in H.
  destruct (Qred q) as [p d]. unfold Qlt in *; simpl in *.
  rewrite Z.mul_1_r in *. apply Z.sqrt_pos. lia.
Qed.

#[export] Instance libm_approx_laws : LibmLaws.
Proof.
  split.
  - intros a b Hab. simpl. unfold qsqrt_approx.
    rewrite (Qred_complete a b Hab). reflexivity.
  - exact qsqrt_approx_pos.
Qed.
