(* ===== verification/Vector.v ===== *)
(** * The vector library: [struct vector3D] of src/VectorMatrix.h

    [Module Vector3D] holds the record with the source's fields and default
    member initialisers, one definition per member function (lines 31-107),
    the componentwise equivalence [veq] on the rational coordinates with
    its [Proper] instances, and the algebraic laws the clipper and the
    pipeline rely on. *)

From Stdlib Require Import QArith Lqa Setoid Morphisms.
From S2P Require Import Prelude.

Module Vector3D.

(** [struct vector3D { float x = 0, y = 0, z = 0, w = 1; }] *)
Record vector3D := mkV { x : Q; y : Q; z : Q; w : Q }.

(** [vector3D v;]: the default member initialisers. *)
Definition vdefault : vector3D := mkV 0 0 0 1.

(** The brace initialiser [{ a, b, c }] leaves [w] at its default [1]. *)
Definition vec3 (a b c : Q) : vector3D := mkV a b c 1.

(** [operator+], [operator-], [operator*], [operator/]: componentwise on
    x, y, z; the result keeps the left operand's [w]. *)
Definition vadd (a b : vector3D) : vector3D :=
  mkV (x a + x b) (y a + y b) (z a + z b) (w a).

Definition vsub (a b : vector3D) : vector3D :=
  mkV (x a - x b) (y a - y b) (z a - z b) (w a).

Definition vmul (a : vector3D) (k : Q) : vector3D :=
  mkV (x a * k) (y a * k) (z a * k) (w a).

Definition vdiv (a : vector3D) (k : Q) : vector3D :=
  mkV (x a / k) (y a / k) (z a / k) (w a).

Definition vDotProduct (a b : vector3D) : Q :=
  x a * x b + y a * y b + z a * z b.

Definition vCrossProduct (a b : vector3D) : vector3D :=
  mkV (y a * z b - z a * y b) (z a * x b - x a * z b) (x a * y b - y a * x b) (w a).

Section WithLibm.
Context `{Libm}.

Definition vLength (a : vector3D) : Q := sqrtf (vDotProduct a a).

Definition vNormalise (a : vector3D) : vector3D := vdiv a (vLength a).

End WithLibm.

(** ** Componentwise equivalence *)

Definition veq (a b : vector3D) : Prop :=
  x a == x b /\ y a == y b /\ z a == z b /\ w a == w b.

(** Equality of the spatial part only, for statements where [w] is not
    touched by the operation. *)
Definition veq3 (a b : vector3D) : Prop :=
  x a == x b /\ y a == y b /\ z a == z b.

Notation "a =v= b" := (veq a b) (at level 70, no associativity) : render_scope.

Ltac vsplit := unfold veq, veq3; simpl; repeat split.

#[export] Instance veq_equiv : Equivalence veq.
Proof.
  split.
  - intros a. vsplit; reflexivity.
  - intros a b (?&?&?&?). vsplit; symmetry; assumption.
  - intros a b c (?&?&?&?) (?&?&?&?). vsplit; etransitivity; eassumption.
Qed.

#[export] Instance veq3_equiv : Equivalence veq3.
Proof.
  split.
  - intros a. vsplit; reflexivity.
  - intros a b (?&?&?). vsplit; symmetry; assumption.
  - intros a b c (?&?&?) (?&?&?). vsplit; etransitivity; eassumption.
Qed.

Ltac vproper :=
  intros [? ? ? ?] [? ? ? ?] (Hx&Hy&Hz&Hw);
  repeat (let a := fresh in let b := fresh in let E := fresh in intros a b E);
  simpl in *; vsplit; simpl;
  repeat match goal with E : _ =v= _ |- _ => destruct E as (?&?&?&?) end;
  simpl in *;
  repeat match goal with E : _ == _ |- _ => rewrite E; clear E end;
  reflexivity.

#[export] Instance x_proper : Proper (veq ==> Qeq) x.
Proof. intros a b (E&_). exact E. Qed.
#[export] Instance y_proper : Proper (veq ==> Qeq) y.
Proof. intros a b (_&E&_). exact E. Qed.
#[export] Instance z_proper : Proper (veq ==> Qeq) z.
Proof. intros a b (_&_&E&_). exact E. Qed.
#[export] Instance w_proper : Proper (veq ==> Qeq) w.
Proof. intros a b (_&_&_&E). exact E. Qed.

#[export] Instance vadd_proper : Proper (veq ==> veq ==> veq) vadd.
Proof. vproper. Qed.
#[export] Instance vsub_proper : Proper (veq ==> veq ==> veq) vsub.
Proof. vproper. Qed.
#[export] Instance vmul_proper : Proper (veq ==> Qeq ==> veq) vmul.
Proof. vproper. Qed.
#[export] Instance vdiv_proper : Proper (veq ==> Qeq ==> veq) vdiv.
Proof. vproper. Qed.
#[export] Instance vCrossProduct_proper : Proper (veq ==> veq ==> veq) vCrossProduct.
Proof. vproper. Qed.

#[export] Instance vDotProduct_proper : Proper (veq ==> veq ==> Qeq) vDotProduct.
Proof.
  intros a a' (Ea1&Ea2&Ea3&_) b b' (Eb1&Eb2&Eb3&_). unfold vDotProduct.
  rewrite Ea1, Ea2, Ea3, Eb1, Eb2, Eb3. reflexivity.
Qed.

Section Laws.
Context `{LibmLaws}.

#[export] Instance vLength_proper : Proper (veq ==> Qeq) vLength.
Proof. intros a b E. unfold vLength. rewrite E. reflexivity. Qed.

#[export] Instance vNormalise_proper : Proper (veq ==> veq) vNormalise.
Proof. intros a b E. unfold vNormalise. rewrite E. reflexivity. Qed.

End Laws.

(** ** Linearity of the dot product *)

Lemma vDot_comm a b : vDotProduct a b == vDotProduct b a.
Proof. unfold vDotProduct. ring. Qed.

Lemma vDot_add_l a b c : vDotProduct (vadd a b) c == vDotProduct a c + vDotProduct b c.
Proof. unfold vDotProduct; simpl. ring. Qed.

Lemma vDot_sub_l a b c : vDotProduct (vsub a b) c == vDotProduct a c - vDotProduct b c.
Proof. unfold vDotProduct; simpl. ring. Qed.

Lemma vDot_mul_l a k c : vDotProduct (vmul a k) c == k * vDotProduct a c.
Proof. unfold vDotProduct; simpl. ring. Qed.

Lemma vDot_mul_r a k c : vDotProduct c (vmul a k) == k * vDotProduct c a.
Proof. unfold vDotProduct; simpl. ring. Qed.

Lemma vDot_div_l a k c : vDotProduct (vdiv a k) c == vDotProduct a c / k.
Proof. unfold vDotProduct; simpl; unfold Qdiv. ring. Qed.

Lemma vDot_div_r a k c : vDotProduct c (vdiv a k) == vDotProduct c a / k.
Proof. unfold vDotProduct; simpl; unfold Qdiv. ring. Qed.

Lemma vDot_self_nonneg a : 0 <= vDotProduct a a.
Proof. unfold vDotProduct. nra. Qed.

Lemma vDot_self_zero a : vDotProduct a a == 0 -> x a == 0 /\ y a == 0 /\ z a == 0.
Proof.
  unfold vDotProduct. intros E.
  assert (0 <= x a * x a) by nra. assert (0 <= y a * y a) by nra.
  assert (0 <= z a * z a) by nra.
  repeat split; nra.
Qed.

Lemma vDot_zero_l a c : x a == 0 -> y a == 0 -> z a == 0 -> vDotProduct a c == 0.
Proof. intros Ex Ey Ez. unfold vDotProduct. rewrite Ex, Ey, Ez. ring. Qed.

(** [a . b <= 1] for two vectors of norm at most 1 (from [|a - b|^2 >= 0]). *)
Lemma vDot_le_1 a b : vDotProduct a a <= 1 -> vDotProduct b b <= 1 -> vDotProduct a b <= 1.
Proof.
  intros Ha Hb. pose proof (vDot_self_nonneg (vsub a b)) as Hd.
  unfold vDotProduct in *; simpl in *. nra.
Qed.

#[export] Hint Rewrite vDot_add_l vDot_sub_l vDot_mul_l vDot_mul_r vDot_div_l vDot_div_r
  : render_rw.
#[export] Hint Resolve vDot_self_nonneg : render.

(** ** Normalisation is a positive rescaling *)

Section Normalise.
Context `{LibmLaws}.

Lemma vLength_pos a : 0 < vDotProduct a a -> 0 < vLength a.
Proof. intros Hd. unfold vLength. apply sqrtf_pos. exact Hd. Qed.

(** Every dot product with a normalised vector is the dot product with the
    original divided by its (positive) length; for the zero vector both are
    zero.  This is what makes the clipper's normalisations harmless. *)
Lemma vDot_vNormalise_l a c :
  vDotProduct (vNormalise a) c == vDotProduct a c / vLength a.
Proof. unfold vNormalise. apply vDot_div_l. Qed.

Lemma vDot_vNormalise_sign a c :
  0 <= vDotProduct (vNormalise a) c <-> 0 <= vDotProduct a c.
Proof.
  rewrite vDot_vNormalise_l.
  destruct (Qlt_le_dec 0 (vDotProduct a a)) as [Hp|Hz].
  - apply Qdiv_sign_iff, vLength_pos, Hp.
  - assert (E : vDotProduct a a == 0) by (pose proof (vDot_self_nonneg a); lra).
    destruct (vDot_self_zero a E) as (Ex&Ey&Ez).
    rewrite (vDot_zero_l a c Ex Ey Ez). unfold Qdiv. split; intros; lra.
Qed.

(** The dot product and normalisation read the spatial part only. *)
Lemma vDot_veq3 a a' b b' : veq3 a a' -> veq3 b b' -> vDotProduct a b == vDotProduct a' b'.
Proof.
  intros (E1&E2&E3) (F1&F2&F3). unfold vDotProduct. rewrite E1, E2, E3, F1, F2, F3.
  reflexivity.
Qed.

Lemma vNormalise_veq3 a b : veq3 a b -> veq3 (vNormalise a) (vNormalise b).
Proof.
  intros E. assert (L : vLength a == vLength b) by (unfold vLength; rewrite (vDot_veq3 a b a b E E);
  reflexivity). destruct E as (E1&E2&E3). unfold vNormalise, veq3; simpl.
  rewrite E1, E2, E3, L. repeat split; reflexivity.
Qed.

(** Where [sqrtf] is exact at [a . a], [vNormalise a] is a unit vector. *)
Lemma vNormalise_unit a :
  0 < vDotProduct a a -> vLength a * vLength a == vDotProduct a a ->
  vDotProduct (vNormalise a) (vNormalise a) == 1.
Proof.
  intros Hp Hs. pose proof (vLength_pos a Hp) as Hl.
  unfold vNormalise. rewrite vDot_div_l, vDot_div_r, <- Hs.
  field. intros E. rewrite E in Hl. discriminate Hl.
Qed.

End Normalise.

(** ** Properties of the operations (claims) *)

(** The cross product (line 77) is orthogonal to both of its operands:
    [dot(cross(a,b), a) = 0] and [dot(cross(a,b), b) = 0], exactly. *)
Theorem vCrossProduct_orthogonal (a b : vector3D) :
  vDotProduct (vCrossProduct a b) a == 0 /\ vDotProduct (vCrossProduct a b) b == 0.
Proof. unfold vDotProduct, vCrossProduct; simpl. split; ring. Qed.

End Vector3D.
