(* ===== verification/Matrix.v ===== *)
(** * The matrix library: [struct mat4x4] of src/VectorMatrix.h

    [Module Mat4] models [float m[4][4] = { 0 }] as a function from row and
    column to [Q] that is [0] until written; each builder is the sequence of
    entry writes of its source body ([mwrites]), [mat_mul] is the two nested
    loops of [operator*] (lines 151-160), and [vectorMatrixProduct]
    (lines 87-94) is the row-vector product [v . M].  The theorems state the
    algebra the pipeline depends on: identity laws, associativity, the
    composition order of the row-vector convention, the quick inverse of a
    rigid transform, and what the projection does to depth. *)

From Stdlib Require Import QArith Lqa Setoid Morphisms List Lia Arith.
Import ListNotations.
From S2P Require Import Prelude Vector.

Module Mat4.
Import Vector3D.

(** [struct mat4x4 { float m[4][4]; }]: [m a r c] is [a.m[r][c]]. *)
Record mat4x4 := mkM { m : nat -> nat -> Q }.

(** [mat4x4 matrix;]: every entry is [0]. *)
Definition mzero : mat4x4 := mkM (fun _ _ => 0).

(** [matrix.m[r][c] = v;] *)
Definition mset (a : mat4x4) (r c : nat) (v : Q) : mat4x4 :=
  mkM (fun r' c' => if Nat.eqb r' r && Nat.eqb c' c then v else m a r' c').

(** One write [m[r][c] = v;]. *)
Definition wr (r c : nat) (v : Q) : nat * nat * Q := (r, c, v).

(** A sequence of writes [m[r][c] = v;], in program order. *)
Definition mwrites (ws : list (nat * nat * Q)) (a : mat4x4) : mat4x4 :=
  fold_left (fun acc '(r, c, v) => mset acc r c v) ws a.

(** [operator*]: [for c in 0..3, for r in 0..3: m[r][c] = sum_k a[r][k] * b[k][c]]. *)
Definition mat_mul (a b : mat4x4) : mat4x4 :=
  fold_left (fun acc c =>
    fold_left (fun acc r =>
      mset acc r c (m a r 0 * m b 0 c + m a r 1 * m b 1 c
                    + m a r 2 * m b 2 c + m a r 3 * m b 3 c))
      (seq 0 4) acc)
    (seq 0 4) mzero.

Definition mIdentity : mat4x4 :=
  mwrites [wr 0 0 (1); wr 1 1 (1); wr 2 2 (1); wr 3 3 (1)] mzero.

Definition mTranslate (tx ty tz : Q) : mat4x4 :=
  mwrites [wr 0 0 (1); wr 1 1 (1); wr 2 2 (1); wr 3 3 (1); wr 3 0 (tx); wr 3 1 (ty); wr 3 2 (tz)] mzero.

Section Builders.
Context `{Libm}.

Definition mRotateX (fAngleRad : Q) : mat4x4 :=
  mwrites [wr 0 0 (1); wr 1 1 (cosf fAngleRad); wr 1 2 (sinf fAngleRad); wr 2 1 (- sinf fAngleRad); wr 2 2 (cosf fAngleRad); wr 3 3 (1)] mzero.

Definition mRotateY (fAngleRad : Q) : mat4x4 :=
  mwrites [wr 0 0 (cosf fAngleRad); wr 0 2 (sinf fAngleRad); wr 2 0 (- sinf fAngleRad); wr 1 1 (1); wr 2 2 (cosf fAngleRad); wr 3 3 (1)] mzero.

Definition mRotateZ (fAngleRad : Q) : mat4x4 :=
  mwrites [wr 0 0 (cosf fAngleRad); wr 0 1 (sinf fAngleRad); wr 1 0 (- sinf fAngleRad); wr 1 1 (cosf fAngleRad); wr 2 2 (1); wr 3 3 (1)] mzero.

(** [mProject]; the literal [3.14159f] is the rational 314159/100000. *)
Definition mProject (fFovDegrees fAspectRatio fNear fFar : Q) : mat4x4 :=
  let fFovRad := 1 / tanf (fFovDegrees * (1#2) / 180 * (314159 # 100000)) in
  mwrites [wr 0 0 (fAspectRatio * fFovRad); wr 1 1 (fFovRad); wr 2 2 (fFar / (fFar - fNear)); wr 3 2 ((- fFar * fNear) / (fFar - fNear)); wr 2 3 (1); wr 3 3 (0)] mzero.

(** [mPointAt]: note [newUp = a - up], as written in the source. *)
Definition mPointAt (pos target up : vector3D) : mat4x4 :=
  let newForward := vNormalise (vsub target pos) in
  let a := vmul newForward (vDotProduct up newForward) in
  let newUp := vNormalise (vsub a up) in
  let newRight := vCrossProduct newUp newForward in
  mwrites [wr 0 0 (x newRight); wr 0 1 (y newRight); wr 0 2 (z newRight); wr 0 3 (0); wr 1 0 (x newUp); wr 1 1 (y newUp); wr 1 2 (z newUp); wr 1 3 (0); wr 2 0 (x newForward); wr 2 1 (y newForward); wr 2 2 (z newForward); wr 2 3 (0); wr 3 0 (x pos); wr 3 1 (y pos); wr 3 2 (z pos); wr 3 3 (1)] mzero.

End Builders.

(** [mQuickInverse]: the translation row reads the transposed block just
    written into [matrix]. *)
Definition mQuickInverse (mm : mat4x4) : mat4x4 :=
  let matrix := mwrites [wr 0 0 (m mm 0 0); wr 0 1 (m mm 1 0); wr 0 2 (m mm 2 0); wr 0 3 (0); wr 1 0 (m mm 0 1); wr 1 1 (m mm 1 1); wr 1 2 (m mm 2 1); wr 1 3 (0); wr 2 0 (m mm 0 2); wr 2 1 (m mm 1 2); wr 2 2 (m mm 2 2); wr 2 3 (0)] mzero in
  let matrix := mset matrix 3 0
    (- (m mm 3 0 * m matrix 0 0 + m mm 3 1 * m matrix 1 0 + m mm 3 2 * m matrix 2 0) ) in
  let matrix := mset matrix 3 1
    (- (m mm 3 0 * m matrix 0 1 + m mm 3 1 * m matrix 1 1 + m mm 3 2 * m matrix 2 1) ) in
  let matrix := mset matrix 3 2
    (- (m mm 3 0 * m matrix 0 2 + m mm 3 1 * m matrix 1 2 + m mm 3 2 * m matrix 2 2) ) in
  mset matrix 3 3 1.

Definition vectorMatrixProduct (a : vector3D) (mm : mat4x4) : vector3D :=
  mkV (x a * m mm 0 0 + y a * m mm 1 0 + z a * m mm 2 0 + w a * m mm 3 0)
      (x a * m mm 0 1 + y a * m mm 1 1 + z a * m mm 2 1 + w a * m mm 3 1)
      (x a * m mm 0 2 + y a * m mm 1 2 + z a * m mm 2 2 + w a * m mm 3 2)
      (x a * m mm 0 3 + y a * m mm 1 3 + z a * m mm 2 3 + w a * m mm 3 3).

(** A rigid transform: the 3x3 block has orthonormal rows and the last
    column is [(0, 0, 0, 1)] (rotation then translation, no scale, no
    shear), the precondition of [mQuickInverse]. *)
Definition rigid (a : mat4x4) : Prop :=
  (forall i j, (i < 3)%nat -> (j < 3)%nat ->
     m a i 0 * m a j 0 + m a i 1 * m a j 1 + m a i 2 * m a j 2 ==
     if Nat.eqb i j then 1 else 0) /\
  m a 0 3 == 0 /\ m a 1 3 == 0 /\ m a 2 3 == 0 /\ m a 3 3 == 1.

(** ** Equivalence of matrices: the 16 entries are [==] *)

Definition meq (a b : mat4x4) : Prop :=
  forall r c, (r < 4)%nat -> (c < 4)%nat -> m a r c == m b r c.

Definition meqb (a b : mat4x4) : bool :=
  forallb (fun r => forallb (fun c => Qeq_bool (m a r c) (m b r c)) (seq 0 4)) (seq 0 4).

Lemma meqb_meq a b : meqb a b = true -> meq a b.
Proof.
  unfold meqb. intros Hb r c Hr Hc.
  rewrite forallb_forall in Hb. specialize (Hb r (proj2 (in_seq 4 0 r) (conj (Nat.le_0_l r) Hr))).
  rewrite forallb_forall in Hb. specialize (Hb c (proj2 (in_seq 4 0 c) (conj (Nat.le_0_l c) Hc))).
  apply Qeq_bool_iff. exact Hb.
Qed.

#[export] Instance meq_equiv : Equivalence meq.
Proof.
  split.
  - intros a r c _ _. reflexivity.
  - intros a b E r c Hr Hc. symmetry. apply E; assumption.
  - intros a b d E1 E2 r c Hr Hc. rewrite (E1 r c Hr Hc). apply E2; assumption.
Qed.

(** [idx r] splits an index below 4 into its four values. *)
Ltac idx r :=
  let H := fresh in
  destruct r as [|[|[|[|r]]]]; [| | | |exfalso; lia].

Lemma mat_mul_entry a b r c : (r < 4)%nat -> (c < 4)%nat ->
  m (mat_mul a b) r c = m a r 0 * m b 0 c + m a r 1 * m b 1 c
                        + m a r 2 * m b 2 c + m a r 3 * m b 3 c.
Proof. intros Hr Hc. idx r; idx c; reflexivity. Qed.

Lemma mIdentity_entry r c : (r < 4)%nat -> (c < 4)%nat ->
  m mIdentity r c = if Nat.eqb r c then 1 else 0.
Proof. intros Hr Hc. idx r; idx c; reflexivity. Qed.

#[export] Instance mat_mul_proper : Proper (meq ==> meq ==> meq) mat_mul.
Proof.
  intros a a' Ea b b' Eb r c Hr Hc. rewrite !mat_mul_entry by assumption.
  assert (Ha : forall k, (k < 4)%nat -> m a r k == m a' r k) by (intros; apply Ea; assumption).
  assert (Hb : forall k, (k < 4)%nat -> m b k c == m b' k c) by (intros; apply Eb; assumption).
  rewrite !Ha, !Hb by lia. reflexivity.
Qed.

#[export] Instance vectorMatrixProduct_proper :
  Proper (veq ==> meq ==> veq) vectorMatrixProduct.
Proof.
  intros a a' (E1&E2&E3&E4) mm mm' Em. unfold vectorMatrixProduct.
  assert (H : forall r c, (r < 4)%nat -> (c < 4)%nat -> m mm r c == m mm' r c) by exact Em.
  vsplit; simpl; rewrite E1, E2, E3, E4, !H by lia; reflexivity.
Qed.

Ltac mentries :=
  intros r c Hr Hc; rewrite ?mat_mul_entry by lia.

(** ** Laws of composition (claims) *)

(** [mIdentity] is a two-sided unit of [operator*]. *)
Theorem mat_mul_identity (a : mat4x4) :
  meq (mat_mul mIdentity a) a /\ meq (mat_mul a mIdentity) a.
Proof.
  split; mentries; rewrite ?mIdentity_entry by lia; idx r; idx c; simpl; ring.
Qed.

(** [operator*] is associative. *)
Theorem mat_mul_assoc (a b c : mat4x4) :
  meq (mat_mul a (mat_mul b c)) (mat_mul (mat_mul a b) c).
Proof.
  intros r k Hr Hk. rewrite !mat_mul_entry by lia. ring.
Qed.

(** C23: the row-vector convention: transforming by [A * B] is transforming
    by [A] first and then by [B].  The world matrix [matIdentity * matTrans]
    and the camera rotation [matCameraRotYaw * matCameraRotPitch] of
    main.cpp rely on this order. *)
Theorem vectorMatrixProduct_mat_mul (v : vector3D) (a b : mat4x4) :
  vectorMatrixProduct v (mat_mul a b) =v=
  vectorMatrixProduct (vectorMatrixProduct v a) b.
Proof.
  unfold vectorMatrixProduct. rewrite !mat_mul_entry by lia. vsplit; ring.
Qed.

(** ** The projection *)

Section Projection.
Context `{Libm}.

Lemma vectorMatrixProduct_mProject v fov asp nr fr :
  vectorMatrixProduct v (mProject fov asp nr fr) =v=
  let f := 1 / tanf (fov * (1#2) / 180 * (314159 # 100000)) in
  mkV (x v * (asp * f)) (y v * f) (z v * (fr / (fr - nr)) + w v * (- fr * nr / (fr - nr))) (z v).
Proof. unfold vectorMatrixProduct, mProject. vsplit; ring. Qed.

(** C30: the projection routes the view depth into [w] (so the perspective
    divide is by the depth), and for a point at view depth [z] between the
    near and far planes the depth after the divide lies in [[0, 1]], with
    [0] exactly at the near plane and [1] exactly at the far plane. *)
Theorem mProject_depth (fFovDegrees fAspectRatio fNear fFar : Q) (v : vector3D) :
  0 < fNear < fFar -> fNear <= z v <= fFar -> w v == 1 ->
  let pv := vectorMatrixProduct v (mProject fFovDegrees fAspectRatio fNear fFar) in
  w pv == z v /\ 0 <= z pv / w pv <= 1 /\
  (z v == fNear -> z pv / w pv == 0) /\ (z v == fFar -> z pv / w pv == 1).
Proof.
  intros Hnf Hz Hw pv. unfold pv. rewrite vectorMatrixProduct_mProject. cbv zeta; simpl.
  rewrite Hw.
  setoid_replace ((z v * (fFar / (fFar - fNear)) + 1 * (- fFar * fNear / (fFar - fNear))) / z v)
    with (fFar * (z v - fNear) / ((fFar - fNear) * z v)) by (field; split; lra).
  split; [reflexivity|]. split; [split|split].
  - apply Qle_shift_div_l; [nra|]. nra.
  - apply Qle_shift_div_r; [nra|]. nra.
  - intros E. rewrite E. field. split; lra.
  - intros E. rewrite E. field. split; lra.
Qed.

End Projection.

(** C31: the quick inverse undoes a rigid transform: for [M] rigid,
    [M * mQuickInverse M] is the identity, so transforming by the camera
    matrix and then by the view matrix returns every point unchanged. *)
Theorem mQuickInverse_inverse (a : mat4x4) :
  rigid a -> meq (mat_mul a (mQuickInverse a)) mIdentity.
Proof.
  intros (Hrow&H03&H13&H23&H33). intros r c Hr Hc.
  rewrite mat_mul_entry, mIdentity_entry by assumption.
  pose proof (Hrow 0 0 ltac:(lia) ltac:(lia))%nat as R00.
  pose proof (Hrow 0 1 ltac:(lia) ltac:(lia))%nat as R01.
  pose proof (Hrow 0 2 ltac:(lia) ltac:(lia))%nat as R02.
  pose proof (Hrow 1 0 ltac:(lia) ltac:(lia))%nat as R10.
  pose proof (Hrow 1 1 ltac:(lia) ltac:(lia))%nat as R11.
  pose proof (Hrow 1 2 ltac:(lia) ltac:(lia))%nat as R12.
  pose proof (Hrow 2 0 ltac:(lia) ltac:(lia))%nat as R20.
  pose proof (Hrow 2 1 ltac:(lia) ltac:(lia))%nat as R21.
  pose proof (Hrow 2 2 ltac:(lia) ltac:(lia))%nat as R22.
  simpl in R00, R01, R02, R10, R11, R12, R20, R21, R22.
  idx r; idx c; simpl; rewrite ?H03, ?H13, ?H23, ?H33; lra.
Qed.

(** ** The camera basis of the frame loop *)

(** [mPointAt] at the frame loop's initial camera (position [0], target
    [(0,0,1)], up [(0,1,0)]): because the source computes [newUp = a - up]
    (the negation of the Gram-Schmidt corrected up), the rows are
    right [= (-1,0,0)], up [= (0,-1,0)], forward [= (0,0,1)]: the camera
    is turned half a turn about its forward axis. *)
Example mPointAt_initial_camera :
  map (fun r => map (fun c => Qred (m (mPointAt (vec3 0 0 0) (vec3 0 0 1) (vec3 0 1 0)) r c))
                    [0; 1; 2; 3]%nat) [0; 1; 2; 3]%nat =
  [[-1; 0; 0; 0]; [0; -1; 0; 0]; [0; 0; 1; 0]; [0; 0; 0; 1]].
Proof. vm_compute. reflexivity. Qed.

(** ** Witnesses *)

Lemma mProject_depth_witness :
  (0 < 1#10 < 1000 /\ 1#10 <= z (vec3 0 0 1) <= 1000 /\ w (vec3 0 0 1) == 1) /\
  let pv := vectorMatrixProduct (vec3 0 0 1) (mProject 90 (3#4) (1#10) 1000) in
  w pv == z (vec3 0 0 1) /\ 0 <= z pv / w pv <= 1 /\
  (z (vec3 0 0 1) == 1#10 -> z pv / w pv == 0) /\ (z (vec3 0 0 1) == 1000 -> z pv / w pv == 1).
Proof.
  split; [repeat split; qdecide|].
  apply mProject_depth; repeat split; qdecide.
Defined.

(** A rotation by the angle of cosine 3/5 about z, then a translation. *)
Abbreviation rigid_example :=
  (mwrites [wr 0 0 (3#5); wr 0 1 (4#5); wr 1 0 (-4#5); wr 1 1 (3#5); wr 2 2 1;
            wr 3 0 2; wr 3 1 5; wr 3 2 7; wr 3 3 1] mzero) (only parsing).

Lemma mQuickInverse_inverse_witness :
  rigid rigid_example /\ meq (mat_mul rigid_example (mQuickInverse rigid_example)) mIdentity.
Proof.
  assert (Hr : rigid rigid_example).
  { split; [intros i j Hi Hj;
             destruct i as [|[|[|i]]]; try (exfalso; lia);
             destruct j as [|[|[|j]]]; try (exfalso; lia);
             vm_compute; reflexivity|].
    repeat split; vm_compute; reflexivity. }
  split; [exact Hr|]. apply mQuickInverse_inverse. exact Hr.
Defined.

End Mat4.
