(* ===== verification/Clip.v ===== *)
(** * The plane clipper: [vectorIntersectsPlane] and
      [Triangle_ClipAgainstPlane] of src/VectorMatrix.h (lines 109-113,
      288-406)

    [Module Clipper] holds [triangle] (three vertices and an [sf::Color]),
    the two functions of the source, and the reference clipper [clip_ref]:
    the same case analysis computed from the raw plane normal, with the
    crossing point of an edge written as [cut s e = s + t (e - s)] for the
    parameter [cut_param s e = d(s) / (d(s) - d(e))].  [tri_normal] and
    [area2] (twice the area of a triangle, projected on a direction) state
    how the two-inside case splits the kept part.  All theorems assume a
    non-zero plane normal ([nonzero_normal]): with a zero normal the
    source's [vNormalise] divides [0 / 0] and every distance is NaN,
    where the exact model would divide to [0].

    The source passes [plane_n] by reference to [vectorIntersectsPlane],
    which normalises the caller's variable again on every call; the model
    returns the updated normal together with the point, and the clipper
    threads it from one call to the next.  The source's clipper has no
    return statement after its four [if]s; falling off the end of a
    non-void function is undefined behaviour, modelled by [None]. *)

From Stdlib Require Import QArith Qabs Lqa Setoid Morphisms List Lia ZArith Permutation.
Import ListNotations.
From S2P Require Import Prelude Vector.

Module Clipper.
Import Vector3D.

(** [sf::Color]: four 8-bit channels, as integers in [[0,255]]. *)
Record color := mkColor { r : Z; g : Z; b : Z; a : Z }.

(** [sf::Color()]: opaque black. *)
Definition color_default : color := mkColor 0 0 0 255.

(** [struct triangle { vector3D p[3]; sf::Color clr; }] *)
Record triangle := mkTri { p0 : vector3D; p1 : vector3D; p2 : vector3D; clr : color }.

Section Clip.
Context `{Libm}.

Definition vectorIntersectsPlane (plane_p plane_n lineStart lineEnd : vector3D)
  : vector3D * vector3D :=
  let plane_n := vNormalise plane_n in
  let plane_d := - vDotProduct plane_n plane_p in
  let ad := vDotProduct lineStart plane_n in
  let bd := vDotProduct lineEnd plane_n in
  let t := (- plane_d - ad) / (bd - ad) in
  let lineStartToEnd := vsub lineEnd lineStart in
  let lineToIntersect := vmul lineStartToEnd t in
  (plane_n, vadd lineStart lineToIntersect).

(** The lambda [dist] of the clipper: signed distance to the plane. *)
Definition dist (plane_n plane_p p : vector3D) : Q :=
  x plane_n * x p + y plane_n * y p + z plane_n * z p - vDotProduct plane_n plane_p.

(** One [if (d >= 0) inside_points[n++] = &p; else outside_points[m++] = &p;].
    The arrays of pointers are modelled by lists of the vertices they point
    to, in the order they are filled. *)
Definition classify (d : Q) (v : vector3D) (io : list vector3D * list vector3D)
  : list vector3D * list vector3D :=
  let '(ins, outs) := io in
  if Qle_bool 0 d then (ins ++ [v], outs) else (ins, outs ++ [v]).

Definition Triangle_ClipAgainstPlane (plane_p plane_n : vector3D) (in_tri : triangle)
  : option (list triangle) :=
  let plane_n := vNormalise plane_n in
  let d0 := dist plane_n plane_p (p0 in_tri) in
  let d1 := dist plane_n plane_p (p1 in_tri) in
  let d2 := dist plane_n plane_p (p2 in_tri) in
  let '(inside_points, outside_points) :=
    classify d2 (p2 in_tri) (classify d1 (p1 in_tri) (classify d0 (p0 in_tri) ([], []))) in
  match inside_points, outside_points with
  | [], _ => Some []
  | [_; _; _], _ => Some [in_tri]
  | [i0], [o0; o1] =>
      let '(plane_n, q1) := vectorIntersectsPlane plane_p plane_n i0 o0 in
      let '(_, q2) := vectorIntersectsPlane plane_p plane_n i0 o1 in
      Some [mkTri i0 q1 q2 (clr in_tri)]
  | [i0; i1], [o0] =>
      let '(plane_n, q1) := vectorIntersectsPlane plane_p plane_n i0 o0 in
      let '(_, q2) := vectorIntersectsPlane plane_p plane_n i1 o0 in
      Some [mkTri i0 i1 q1 (clr in_tri); mkTri i1 q1 q2 (clr in_tri)]
  | _, _ => None
  end.

End Clip.

(** ** The reference clipper *)

(** The parameter [t = d(s) / (d(s) - d(e))] at which the edge from [s]
    to [e] crosses the plane. *)
Definition cut_param (plane_n plane_p s e : vector3D) : Q :=
  dist plane_n plane_p s / (dist plane_n plane_p s - dist plane_n plane_p e).

(** The point where the edge from [s] to [e] crosses the plane. *)
Definition cut (plane_n plane_p s e : vector3D) : vector3D :=
  vadd s (vmul (vsub e s) (cut_param plane_n plane_p s e)).

Definition clip_ref (plane_p plane_n : vector3D) (tri : triangle) : list triangle :=
  let d v := dist plane_n plane_p v in
  let '(ins, outs) :=
    classify (d (p2 tri)) (p2 tri)
      (classify (d (p1 tri)) (p1 tri) (classify (d (p0 tri)) (p0 tri) ([], []))) in
  match ins, outs with
  | [i0], [o0; o1] =>
      [mkTri i0 (cut plane_n plane_p i0 o0) (cut plane_n plane_p i0 o1) (clr tri)]
  | [i0; i1], [o0] =>
      [mkTri i0 i1 (cut plane_n plane_p i0 o0) (clr tri);
       mkTri i1 (cut plane_n plane_p i0 o0) (cut plane_n plane_p i1 o0) (clr tri)]
  | [_; _; _], _ => [tri]
  | _, _ => []
  end.

Definition tri_vertices (t : triangle) : list vector3D := [p0 t; p1 t; p2 t].

(** The number of vertices the clipper classifies as inside. *)
Definition inside_count (plane_p plane_n : vector3D) (tri : triangle) : nat :=
  length (filter (fun v => Qle_bool 0 (dist plane_n plane_p v)) (tri_vertices tri)).

(** A plane normal that is not the zero vector.  At the zero normal the
    source's [vNormalise] divides [0/0] and every distance is NaN, so every
    vertex is outside; the model's division gives [0] instead.  The
    clipper's theorems that classify vertices assume a non-zero normal,
    which every call of the program passes. *)
Definition nonzero_normal (n : vector3D) : Prop := 0 < vDotProduct n n.

(** The (unnormalised) normal of a triangle, and twice its area measured
    along a direction [n]: for a triangle in the plane of [n]'s triangle,
    [area2 t n] is [2 * area t * |n|]. *)
Definition tri_normal (t : triangle) : vector3D :=
  vCrossProduct (vsub (p1 t) (p0 t)) (vsub (p2 t) (p0 t)).

Definition area2 (t : triangle) (n : vector3D) : Q := Qabs (vDotProduct (tri_normal t) n).

(** ** Equivalence of triangles *)

Definition teq (t u : triangle) : Prop :=
  p0 t =v= p0 u /\ p1 t =v= p1 u /\ p2 t =v= p2 u /\ clr t = clr u.

#[export] Instance teq_equiv : Equivalence teq.
Proof.
  split.
  - intros t. split; [|split; [|split]]; reflexivity.
  - intros t u (E0&E1&E2&E3). split; [|split; [|split]]; symmetry; assumption.
  - intros t u v (E0&E1&E2&E3) (F0&F1&F2&F3).
    split; [|split; [|split]]; etransitivity; eassumption.
Qed.

Lemma teq_intro q0 q1 q2 q0' q1' q2' k :
  q0 =v= q0' -> q1 =v= q1' -> q2 =v= q2' -> teq (mkTri q0 q1 q2 k) (mkTri q0' q1' q2' k).
Proof. intros E0 E1 E2. split; [|split; [|split]]; simpl; assumption || reflexivity. Qed.

Ltac tris_eq_solve :=
  repeat (apply Forall2_cons || apply Forall2_nil);
  try (apply teq_intro); try reflexivity.

(** ** Signed distance *)

Lemma dist_dot n p v : dist n p v == vDotProduct n v - vDotProduct n p.
Proof. reflexivity. Qed.

Lemma dist_vdiv n k p v : dist (vdiv n k) p v == dist n p v / k.
Proof. unfold dist, vDotProduct; simpl; unfold Qdiv. ring. Qed.

Lemma dist_zero_normal n p v :
  vDotProduct n n == 0 -> dist n p v == 0.
Proof.
  intros E. destruct (vDot_self_zero n E) as (Ex&Ey&Ez).
  unfold dist, vDotProduct. rewrite Ex, Ey, Ez. ring.
Qed.

(** [dist] is affine along a segment: at [s + t (e - s)] it is
    [(1 - t) d(s) + t d(e)]. *)
Lemma dist_segment n p s e t :
  dist n p (vadd s (vmul (vsub e s) t)) == (1 - t) * dist n p s + t * dist n p e.
Proof. unfold dist, vDotProduct; simpl. ring. Qed.

#[export] Instance dist_proper : Proper (veq ==> veq ==> veq ==> Qeq) dist.
Proof.
  intros n n' En p p' Ep v v' Ev. unfold dist. rewrite En, Ep, Ev. reflexivity.
Qed.

#[export] Instance cut_param_proper : Proper (veq ==> veq ==> veq ==> veq ==> Qeq) cut_param.
Proof.
  intros n n' En p p' Ep s s' Es e e' Ee. unfold cut_param. rewrite En, Ep, Es, Ee. reflexivity.
Qed.

#[export] Instance cut_proper : Proper (veq ==> veq ==> veq ==> veq ==> veq) cut.
Proof.
  intros n n' En p p' Ep s s' Es e e' Ee. unfold cut, cut_param. rewrite En, Ep, Es, Ee. reflexivity.
Qed.

Section Normal.
Context `{LibmLaws}.

(** Normalising the plane normal divides every signed distance by the
    normal's length: it changes no sign and no crossing parameter. *)
Lemma dist_vNormalise n p v : dist (vNormalise n) p v == dist n p v / vLength n.
Proof. apply dist_vdiv. Qed.

Lemma dist_vNormalise_bool n p v :
  Qle_bool 0 (dist (vNormalise n) p v) = Qle_bool 0 (dist n p v).
Proof.
  rewrite dist_vNormalise.
  destruct (Qlt_le_dec 0 (vDotProduct n n)) as [Hp|Hz].
  - pose proof (vLength_pos n Hp) as HL.
    destruct (Qle_bool 0 (dist n p v)) eqn:E.
    + apply Qle_bool_true, Qdiv_nonneg; [apply Qle_bool_true in E|]; assumption.
    + apply Qle_bool_false. apply Qle_bool_false in E.
      apply Qnot_le_lt. intros Hc. apply (Qdiv_sign_iff (dist n p v) _ HL) in Hc. lra.
  - assert (E : vDotProduct n n == 0) by (pose proof (vDot_self_nonneg n); lra).
    rewrite (dist_zero_normal n p v E). reflexivity.
Qed.

Lemma dist_gap_normal n p s e :
  ~ dist n p s - dist n p e == 0 -> 0 < vDotProduct n n.
Proof.
  intros Hne. destruct (Qlt_le_dec 0 (vDotProduct n n)) as [Hp|Hz]; [exact Hp|].
  exfalso. apply Hne.
  assert (E : vDotProduct n n == 0) by (pose proof (vDot_self_nonneg n); lra).
  rewrite (dist_zero_normal n p s E), (dist_zero_normal n p e E). ring.
Qed.

Lemma dist_vNormalise_gap n p s e :
  ~ dist n p s - dist n p e == 0 ->
  ~ dist (vNormalise n) p s - dist (vNormalise n) p e == 0.
Proof.
  intros Hne. pose proof (vLength_pos n (dist_gap_normal n p s e Hne)) as HL.
  rewrite !dist_vNormalise. intros Hc. apply Hne.
  setoid_replace (dist n p s - dist n p e)
    with ((dist n p s / vLength n - dist n p e / vLength n) * vLength n)
    by (field; lra).
  rewrite Hc. ring.
Qed.

(** The crossing point does not depend on the length of the normal. *)
Lemma cut_vNormalise n p s e :
  ~ dist n p s - dist n p e == 0 -> cut (vNormalise n) p s e =v= cut n p s e.
Proof.
  intros Hne. pose proof (vLength_pos n (dist_gap_normal n p s e Hne)) as HL.
  unfold cut, cut_param. rewrite !dist_vNormalise.
  setoid_replace (dist n p s / vLength n / (dist n p s / vLength n - dist n p e / vLength n))
    with (dist n p s / (dist n p s - dist n p e)); [reflexivity|].
  field. split; [exact Hne | lra].
Qed.

(** [vectorIntersectsPlane] returns the normalised normal (written back
    through the reference) and the crossing point. *)
Lemma vectorIntersectsPlane_fst p n s e :
  fst (vectorIntersectsPlane p n s e) = vNormalise n.
Proof. reflexivity. Qed.

Lemma vectorIntersectsPlane_snd p n s e :
  ~ dist n p s - dist n p e == 0 ->
  snd (vectorIntersectsPlane p n s e) =v= cut n p s e.
Proof.
  intros Hne. rewrite <- (cut_vNormalise n p s e Hne).
  pose proof (dist_vNormalise_gap n p s e Hne) as Hne'.
  unfold vectorIntersectsPlane, cut, cut_param; simpl.
  set (n1 := vNormalise n) in *.
  setoid_replace ((- - vDotProduct n1 p - vDotProduct s n1) /
                    (vDotProduct e n1 - vDotProduct s n1))
    with (dist n1 p s / (dist n1 p s - dist n1 p e)); [reflexivity|].
  rewrite !dist_dot, !(vDot_comm n1 s), !(vDot_comm n1 e) in *.
  field; repeat split; intros Hc; apply Hne'; lra.
Qed.

(** The points the clipper computes with the normal normalised once or
    twice (the second call of each case sees the caller's [plane_n] already
    rewritten by the first) are the crossing points of the raw plane. *)
Lemma gap_of_sides n p s e :
  Qle_bool 0 (dist n p s) = true -> Qle_bool 0 (dist n p e) = false ->
  ~ dist n p s - dist n p e == 0.
Proof.
  intros Hs He. apply Qle_bool_true in Hs. apply Qle_bool_false in He. lra.
Qed.

Lemma vIP_cut_once p n s e :
  Qle_bool 0 (dist n p s) = true -> Qle_bool 0 (dist n p e) = false ->
  snd (vectorIntersectsPlane p (vNormalise n) s e) =v= cut n p s e.
Proof.
  intros Hs He. pose proof (gap_of_sides n p s e Hs He) as G.
  rewrite vectorIntersectsPlane_snd by (apply dist_vNormalise_gap; exact G).
  apply cut_vNormalise, G.
Qed.

Lemma vIP_cut_twice p n s e :
  Qle_bool 0 (dist n p s) = true -> Qle_bool 0 (dist n p e) = false ->
  snd (vectorIntersectsPlane p (vNormalise (vNormalise n)) s e) =v= cut n p s e.
Proof.
  intros Hs He. pose proof (gap_of_sides n p s e Hs He) as G.
  pose proof (dist_vNormalise_gap n p s e G) as G1.
  rewrite vectorIntersectsPlane_snd by (apply dist_vNormalise_gap; exact G1).
  rewrite (cut_vNormalise _ p s e G1). apply cut_vNormalise, G.
Qed.

End Normal.

#[export] Hint Resolve vIP_cut_once vIP_cut_twice : render.

(** Replace a call of [vectorIntersectsPlane] under a pattern match by its
    two components. *)
Ltac vip_split :=
  match goal with
  | |- context [match vectorIntersectsPlane ?p ?n ?s ?e with pair _ _ => _ end] =>
      rewrite (surjective_pairing (vectorIntersectsPlane p n s e));
      try rewrite vectorIntersectsPlane_fst
  end.

Ltac clip_unfold E0 E1 E2 :=
  match goal with
  | |- context [Qle_bool 0 (dist ?n ?p (p0 ?t))] =>
      destruct (Qle_bool 0 (dist n p (p0 t))) eqn:E0,
               (Qle_bool 0 (dist n p (p1 t))) eqn:E1,
               (Qle_bool 0 (dist n p (p2 t))) eqn:E2
  end;
  cbn -[vNormalise vectorIntersectsPlane dist cut];
  repeat (vip_split; cbn -[vNormalise vectorIntersectsPlane dist cut]).

Ltac bools_to_props :=
  repeat match goal with
  | E : Qle_bool _ _ = true |- _ => apply Qle_bool_true in E
  | E : Qle_bool _ _ = false |- _ => apply Qle_bool_false in E
  end.

Ltac in_vertex := solve [repeat (first [left; reflexivity | right])].

(** ** The reference clipper emits inside vertices and crossing points *)

Lemma clip_ref_vertex plane_p plane_n tri t v :
  In t (clip_ref plane_p plane_n tri) -> In v (tri_vertices t) ->
  (In v (tri_vertices tri) /\ 0 <= dist plane_n plane_p v) \/
  (exists s e, In s (tri_vertices tri) /\ In e (tri_vertices tri) /\
     0 <= dist plane_n plane_p s /\ dist plane_n plane_p e < 0 /\
     v = cut plane_n plane_p s e).
Proof.
  unfold clip_ref, classify, tri_vertices.
  destruct (Qle_bool 0 (dist plane_n plane_p (p0 tri))) eqn:E0,
           (Qle_bool 0 (dist plane_n plane_p (p1 tri))) eqn:E1,
           (Qle_bool 0 (dist plane_n plane_p (p2 tri))) eqn:E2;
  simpl; bools_to_props; intros Ht Hv;
  repeat (destruct Ht as [<-|Ht]); try contradiction; simpl in Hv;
  repeat (destruct Hv as [<-|Hv]); try contradiction;
  solve [ left; split; [in_vertex | assumption]
        | right; do 2 eexists; split; [|split; [|split; [|split; [|reflexivity]]]];
          first [in_vertex | eassumption] ].
Qed.

Lemma clip_ref_clr plane_p plane_n tri t :
  In t (clip_ref plane_p plane_n tri) -> clr t = clr tri.
Proof.
  unfold clip_ref, classify.
  destruct (Qle_bool 0 (dist plane_n plane_p (p0 tri))),
           (Qle_bool 0 (dist plane_n plane_p (p1 tri))),
           (Qle_bool 0 (dist plane_n plane_p (p2 tri)));
  simpl; intros Ht; repeat (destruct Ht as [<-|Ht]); try contradiction; reflexivity.
Qed.

Lemma dist_cut plane_n plane_p s e :
  ~ dist plane_n plane_p s - dist plane_n plane_p e == 0 ->
  dist plane_n plane_p (cut plane_n plane_p s e) == 0.
Proof.
  intros Hne. unfold cut, cut_param. rewrite dist_segment. field. exact Hne.
Qed.

(** A crossing point of an edge whose ends lie in a half-space lies in it. *)
Lemma dist_cut_convex plane_n plane_p m q s e :
  0 <= dist plane_n plane_p s -> dist plane_n plane_p e < 0 ->
  0 <= dist m q s -> 0 <= dist m q e -> 0 <= dist m q (cut plane_n plane_p s e).
Proof.
  intros Hs He Hms Hme. unfold cut, cut_param. rewrite dist_segment.
  destruct (Qcross_param_range _ _ Hs He) as [T0 T1].
  set (t := dist plane_n plane_p s / (dist plane_n plane_p s - dist plane_n plane_p e)) in *.
  assert (0 <= (1 - t) * dist m q s) by (apply Qmult_le_0_compat; lra).
  assert (0 <= t * dist m q e) by (apply Qmult_le_0_compat; lra).
  lra.
Qed.

Lemma dist_cut_convex_strict plane_n plane_p m q s e :
  0 <= dist plane_n plane_p s -> dist plane_n plane_p e < 0 ->
  dist m q s < 0 -> dist m q e < 0 -> dist m q (cut plane_n plane_p s e) < 0.
Proof.
  intros Hs He Hms Hme. unfold cut, cut_param. rewrite dist_segment.
  destruct (Qcross_param_range _ _ Hs He) as [T0 T1].
  set (t := dist plane_n plane_p s / (dist plane_n plane_p s - dist plane_n plane_p e)) in *.
  destruct (Qlt_le_dec 0 t) as [Tp|Tz].
  - assert ((1 - t) * dist m q s <= 0) by (apply Qmult_le_0_compat_r_neg; lra) ||
      (assert (0 <= (1 - t) * - dist m q s) by (apply Qmult_le_0_compat; lra); lra).
    assert (0 < t * - dist m q e) by (apply Qmult_lt_0_compat; lra). lra.
  - assert (Et : t == 0) by lra. rewrite Et. lra.
Qed.

(** From the implementation to the reference, vertex by vertex. *)
Lemma Forall2_teq_vertex l l' t v :
  Forall2 teq l l' -> In t l -> In v (tri_vertices t) ->
  exists t' v', In t' l' /\ In v' (tri_vertices t') /\ v =v= v' /\ clr t = clr t'.
Proof.
  intros HF. revert t v. induction HF as [|t0 t0' l l' Ht HF IH]; intros t v Hin Hv;
    [contradiction|].
  destruct Hin as [<-|Hin].
  - destruct Ht as (E0&E1&E2&E3). exists t0'.
    unfold tri_vertices in Hv; simpl in Hv.
    destruct Hv as [<-|[<-|[<-|[]]]];
      [exists (p0 t0') | exists (p1 t0') | exists (p2 t0')];
      (split; [left; reflexivity|]);
      (split; [unfold tri_vertices; simpl; in_vertex | split; assumption]).
  - destruct (IH t v Hin Hv) as (t'&v'&H1&H2&H3&H4). exists t', v'.
    split; [right; exact H1 | auto].
Qed.

(** ** Properties of the clipper (claims) *)

Section ClipProperties.
Context `{LibmLaws}.

(** The refinement, as the helper the other proofs use. *)
Lemma clip_refines (plane_p plane_n : vector3D) (tri : triangle) :
  exists l, Triangle_ClipAgainstPlane plane_p plane_n tri = Some l /\
            Forall2 teq l (clip_ref plane_p plane_n tri).
Proof.
  unfold Triangle_ClipAgainstPlane, clip_ref, classify.
  rewrite !dist_vNormalise_bool.
  clip_unfold E0 E1 E2; eexists; (split; [reflexivity|]);
  tris_eq_solve; eauto with render.
Qed.

Lemma clip_ref_length plane_p plane_n tri : (length (clip_ref plane_p plane_n tri) <= 2)%nat.
Proof.
  unfold clip_ref, classify.
  destruct (Qle_bool 0 (dist plane_n plane_p (p0 tri))),
           (Qle_bool 0 (dist plane_n plane_p (p1 tri))),
           (Qle_bool 0 (dist plane_n plane_p (p2 tri))); simpl; lia.
Qed.

Lemma clip_length plane_p plane_n tri l :
  Triangle_ClipAgainstPlane plane_p plane_n tri = Some l -> (length l <= 2)%nat.
Proof.
  intros Hl. destruct (clip_refines plane_p plane_n tri) as (l'&Hl'&HF).
  rewrite Hl in Hl'. injection Hl' as <-. rewrite (Forall2_length HF). apply clip_ref_length.
Qed.

Lemma clip_all_inside (plane_p plane_n : vector3D) (tri : triangle) :
  0 <= dist plane_n plane_p (p0 tri) -> 0 <= dist plane_n plane_p (p1 tri) ->
  0 <= dist plane_n plane_p (p2 tri) ->
  Triangle_ClipAgainstPlane plane_p plane_n tri = Some [tri].
Proof.
  intros Hd0 Hd1 Hd2. unfold Triangle_ClipAgainstPlane, classify.
  rewrite !dist_vNormalise_bool.
  apply Qle_bool_true in Hd0, Hd1, Hd2. rewrite Hd0, Hd1, Hd2. reflexivity.
Qed.

Lemma clip_all_outside (plane_p plane_n : vector3D) (tri : triangle) :
  dist plane_n plane_p (p0 tri) < 0 -> dist plane_n plane_p (p1 tri) < 0 ->
  dist plane_n plane_p (p2 tri) < 0 ->
  Triangle_ClipAgainstPlane plane_p plane_n tri = Some [].
Proof.
  intros Hd0 Hd1 Hd2. unfold Triangle_ClipAgainstPlane, classify.
  rewrite !dist_vNormalise_bool.
  apply Qle_bool_false in Hd0, Hd1, Hd2. rewrite Hd0, Hd1, Hd2. reflexivity.
Qed.

(** C1: refinement.  [Triangle_ClipAgainstPlane] never reaches the end of
    its body without a [return] (the four cases are exhaustive) and its
    result is, triangle by triangle and vertex by vertex, the reference
    clipping [clip_ref] of the triangle against the half-space
    [n . (v - p) >= 0] of the raw normal: the normalisation and the
    re-normalisation of [plane_n] through the reference parameter of
    [vectorIntersectsPlane] change neither the classification nor any
    crossing point.  The normal is non-zero, as in every call of the
    program (at the zero normal the source's distances are NaN). *)
Theorem Triangle_ClipAgainstPlane_refines (plane_p plane_n : vector3D) (tri : triangle) :
  nonzero_normal plane_n ->
  exists l, Triangle_ClipAgainstPlane plane_p plane_n tri = Some l /\
            Forall2 teq l (clip_ref plane_p plane_n tri).
Proof. intros _. exact (clip_refines plane_p plane_n tri). Qed.

(** Every vertex the implementation emits is an inside vertex of the input
    or a crossing point of an edge from an inside to an outside vertex. *)
Lemma clip_vertex plane_p plane_n tri l t v :
  Triangle_ClipAgainstPlane plane_p plane_n tri = Some l -> In t l -> In v (tri_vertices t) ->
  clr t = clr tri /\ exists v', v =v= v' /\
  ((In v' (tri_vertices tri) /\ 0 <= dist plane_n plane_p v') \/
   (exists s e, In s (tri_vertices tri) /\ In e (tri_vertices tri) /\
      0 <= dist plane_n plane_p s /\ dist plane_n plane_p e < 0 /\
      v' = cut plane_n plane_p s e)).
Proof.
  intros Hl Ht Hv.
  destruct (clip_refines plane_p plane_n tri) as (l'&Hl'&HF).
  rewrite Hl in Hl'. injection Hl' as <-.
  destruct (Forall2_teq_vertex _ _ _ _ HF Ht Hv) as (t'&v'&Ht'&Hv'&Ev&Ec).
  split; [rewrite Ec; apply (clip_ref_clr _ _ _ _ Ht')|].
  exists v'. split; [exact Ev|]. exact (clip_ref_vertex _ _ _ _ _ Ht' Hv').
Qed.

(** Every returned vertex is on the kept side, and inside (or strictly
    outside) every half-space that contains (or strictly excludes) the
    three input vertices. *)
Lemma clip_vertex_halfspaces plane_p plane_n tri l t v :
  Triangle_ClipAgainstPlane plane_p plane_n tri = Some l -> In t l -> In v (tri_vertices t) ->
  0 <= dist plane_n plane_p v /\
  (forall m q, (forall u, In u (tri_vertices tri) -> 0 <= dist m q u) -> 0 <= dist m q v) /\
  (forall m q, (forall u, In u (tri_vertices tri) -> dist m q u < 0) -> dist m q v < 0).
Proof.
  intros Hl Ht Hv.
  destruct (clip_vertex _ _ _ _ _ _ Hl Ht Hv)
    as (_&v'&Ev&[[Hv' Hd]|(s&e&Hs'&He'&Hs&He&->)]); setoid_rewrite Ev.
  - split; [exact Hd|]. split; intros m q Hin; apply Hin, Hv'.
  - split; [rewrite dist_cut by lra; apply Qle_refl|].
    split; intros m q Hin.
    + apply dist_cut_convex; auto.
    + apply dist_cut_convex_strict; auto.
Qed.

Lemma vIP_on_plane_once p n s e :
  Qle_bool 0 (dist n p s) = true -> Qle_bool 0 (dist n p e) = false ->
  dist n p (snd (vectorIntersectsPlane p (vNormalise n) s e)) == 0.
Proof.
  intros Hs He. rewrite (vIP_cut_once p n s e Hs He). apply dist_cut, gap_of_sides; assumption.
Qed.

Lemma vIP_on_plane_twice p n s e :
  Qle_bool 0 (dist n p s) = true -> Qle_bool 0 (dist n p e) = false ->
  dist n p (snd (vectorIntersectsPlane p (vNormalise (vNormalise n)) s e)) == 0.
Proof.
  intros Hs He. rewrite (vIP_cut_twice p n s e Hs He). apply dist_cut, gap_of_sides; assumption.
Qed.

Ltac on_plane :=
  first [ apply vIP_on_plane_once; assumption | apply vIP_on_plane_twice; assumption ].

(** ** Areas of the pieces *)

#[export] Instance tri_normal_proper : Proper (teq ==> veq) tri_normal.
Proof.
  intros t u (E0&E1&E2&_). unfold tri_normal. rewrite E0, E1, E2. reflexivity.
Qed.

#[export] Instance area2_proper : Proper (teq ==> veq ==> Qeq) area2.
Proof. intros t u E n n' En. unfold area2. rewrite E, En. reflexivity. Qed.

(** The two pieces of the two-inside case, [{a, b, q1}] and [{b, q1, q2}]
    with [q1] at parameter [s] on [a c] and [q2] at parameter [u] on [b c],
    cover the fraction [1 - (1 - s)(1 - u)] of the triangle [{a, b, c}]: the
    whole minus the corner [{q1, c, q2}] that is cut off. *)
Lemma area_two_split a b c k s u n :
  0 <= s <= 1 -> 0 <= u <= 1 ->
  area2 (mkTri a b (vadd a (vmul (vsub c a) s)) k) n +
  area2 (mkTri b (vadd a (vmul (vsub c a) s)) (vadd b (vmul (vsub c b) u)) k) n ==
  area2 (mkTri a b c k) n * (1 - (1 - s) * (1 - u)).
Proof.
  intros Hs Hu. unfold area2.
  set (T := vDotProduct (tri_normal (mkTri a b c k)) n).
  assert (EA : vDotProduct (tri_normal (mkTri a b (vadd a (vmul (vsub c a) s)) k)) n == s * T)
    by (unfold T, tri_normal, vDotProduct, vCrossProduct; simpl; ring).
  assert (EB : vDotProduct (tri_normal (mkTri b (vadd a (vmul (vsub c a) s))
                                               (vadd b (vmul (vsub c b) u)) k)) n
               == - (u * (1 - s)) * T)
    by (unfold T, tri_normal, vDotProduct, vCrossProduct; simpl; ring).
  rewrite EA, EB, !Qabs_Qmult, Qabs_opp, Qabs_Qmult, (Qabs_pos s), (Qabs_pos u), (Qabs_pos (1 - s))
    by lra.
  ring.
Qed.

(** The area does not depend on the order of the vertices. *)
Lemma area2_swap a b c k k' n : area2 (mkTri a c b k) n == area2 (mkTri a b c k') n.
Proof.
  unfold area2. rewrite <- Qabs_opp. apply Qabs_wd.
  unfold tri_normal, vDotProduct, vCrossProduct; simpl. ring.
Qed.

Lemma area2_rotate a b c k k' n : area2 (mkTri b c a k) n == area2 (mkTri a b c k') n.
Proof.
  unfold area2. apply Qabs_wd. unfold tri_normal, vDotProduct, vCrossProduct; simpl. ring.
Qed.

Lemma cut_param_range n p s e :
  0 <= dist n p s -> dist n p e < 0 -> 0 <= cut_param n p s e <= 1.
Proof. intros Hs He. apply Qcross_param_range; assumption. Qed.

(** What the reference gives in the two-inside case: the new vertices on
    the plane and the area of the two pieces. *)
Lemma two_inside_facts nrm n p i0 i1 o0 k t1 t2 :
  0 <= dist n p i0 -> 0 <= dist n p i1 -> dist n p o0 < 0 ->
  teq t1 (mkTri i0 i1 (cut n p i0 o0) k) ->
  teq t2 (mkTri i1 (cut n p i0 o0) (cut n p i1 o0) k) ->
  dist n p (p2 t1) == 0 /\ dist n p (p2 t2) == 0 /\
  area2 t1 nrm + area2 t2 nrm ==
    area2 (mkTri i0 i1 o0 k) nrm * (1 - (1 - cut_param n p i0 o0) * (1 - cut_param n p i1 o0)).
Proof.
  intros Hi0 Hi1 Ho E1 E2.
  split; [destruct E1 as (_&_&E&_); rewrite E; apply dist_cut; simpl; lra|].
  split; [destruct E2 as (_&_&E&_); rewrite E; apply dist_cut; simpl; lra|].
  rewrite E1, E2. unfold cut. apply area_two_split; apply cut_param_range; assumption.
Qed.

Ltac perm_solve :=
  first [ apply Permutation_refl | apply perm_swap | apply perm_skip, perm_swap
        | apply Permutation_sym, (Permutation_cons_append [_; _] _)
        | apply (Permutation_cons_append [_; _] _) ].

(** C21: a triangle with its three vertices on the kept side of the plane
    ([d >= 0]) comes back unchanged, as the single triangle of the result
    (for a non-zero normal). *)
Theorem Triangle_ClipAgainstPlane_all_inside (plane_p plane_n : vector3D) (tri : triangle) :
  nonzero_normal plane_n -> 0 <= dist plane_n plane_p (p0 tri) -> 0 <= dist plane_n plane_p (p1 tri) ->
  0 <= dist plane_n plane_p (p2 tri) ->
  Triangle_ClipAgainstPlane plane_p plane_n tri = Some [tri].
Proof. intros _. exact (clip_all_inside plane_p plane_n tri). Qed.

(** C22: a triangle with its three vertices strictly on the removed side
    ([d < 0]) is removed: the clipper returns no triangle. *)
Theorem Triangle_ClipAgainstPlane_all_outside (plane_p plane_n : vector3D) (tri : triangle) :
  dist plane_n plane_p (p0 tri) < 0 -> dist plane_n plane_p (p1 tri) < 0 ->
  dist plane_n plane_p (p2 tri) < 0 ->
  Triangle_ClipAgainstPlane plane_p plane_n tri = Some [].
Proof. exact (clip_all_outside plane_p plane_n tri). Qed.

(** C20: the number of triangles returned is fixed by the number of inside
    vertices: 0 for none, 1 for one, 2 for two and 1 for three; every
    returned triangle carries the input's colour (for a non-zero normal). *)
Theorem Triangle_ClipAgainstPlane_count (plane_p plane_n : vector3D) (tri : triangle) :
  nonzero_normal plane_n ->
  exists l, Triangle_ClipAgainstPlane plane_p plane_n tri = Some l /\
    length l = match inside_count plane_p plane_n tri with 3%nat => 1%nat | k => k end /\
    Forall (fun t => clr t = clr tri) l.
Proof.
  intros _. unfold Triangle_ClipAgainstPlane, inside_count, tri_vertices, classify.
  rewrite !dist_vNormalise_bool. cbn [filter].
  clip_unfold E0 E1 E2; eexists; (split; [reflexivity|]); split;
    repeat constructor.
Qed.

(** C2: safety of the clipper: every vertex of every returned triangle is on
    the kept side of the plane ([dist >= 0] for the caller's raw normal). *)
Theorem Triangle_ClipAgainstPlane_inside (plane_p plane_n : vector3D) (tri : triangle) :
  exists l, Triangle_ClipAgainstPlane plane_p plane_n tri = Some l /\
    forall t v, In t l -> In v (tri_vertices t) -> 0 <= dist plane_n plane_p v.
Proof.
  destruct (clip_refines plane_p plane_n tri) as (l&Hl&_).
  exists l. split; [exact Hl|]. intros t v Ht Hv.
  apply (proj1 (clip_vertex_halfspaces _ _ _ _ _ _ Hl Ht Hv)).
Qed.

(** C17: clipping never leaves a half-space that contains the input: if all
    three input vertices satisfy [dist m q >= 0] for another plane [(q, m)],
    so does every returned vertex.  This is what lets the screen-edge pass
    clip against one edge without undoing the previous ones. *)
Theorem Triangle_ClipAgainstPlane_convex (plane_p plane_n q m : vector3D) (tri : triangle) :
  (forall v, In v (tri_vertices tri) -> 0 <= dist m q v) ->
  exists l, Triangle_ClipAgainstPlane plane_p plane_n tri = Some l /\
    forall t v, In t l -> In v (tri_vertices t) -> 0 <= dist m q v.
Proof.
  intros Hin.
  destruct (clip_refines plane_p plane_n tri) as (l&Hl&_).
  exists l. split; [exact Hl|]. intros t v Ht Hv.
  apply (proj1 (proj2 (clip_vertex_halfspaces _ _ _ _ _ _ Hl Ht Hv))), Hin.
Qed.

(** C18: with exactly one vertex inside, the result is one triangle: the
    inside vertex [i0] and the points where the edges [i0 o0] and [i0 o1]
    cross the plane, at the parameters [d(i0) / (d(i0) - d(o))]; the two
    new vertices are on the plane. *)
Theorem Triangle_ClipAgainstPlane_one_inside (plane_p plane_n : vector3D) (tri : triangle) :
  inside_count plane_p plane_n tri = 1%nat ->
  exists i0 o0 o1 t,
    Permutation (tri_vertices tri) [i0; o0; o1] /\
    0 <= dist plane_n plane_p i0 /\ dist plane_n plane_p o0 < 0 /\ dist plane_n plane_p o1 < 0 /\
    Triangle_ClipAgainstPlane plane_p plane_n tri = Some [t] /\
    teq t (mkTri i0 (cut plane_n plane_p i0 o0) (cut plane_n plane_p i0 o1) (clr tri)) /\
    dist plane_n plane_p (p1 t) == 0 /\ dist plane_n plane_p (p2 t) == 0.
Proof.
  intros Hc. destruct (clip_refines plane_p plane_n tri) as (l&Hl&HF). revert Hc HF.
  destruct tri as [q0 q1 q2 k].
  unfold inside_count, tri_vertices, clip_ref, classify; cbn [p0 p1 p2 clr filter].
  destruct (Qle_bool 0 (dist plane_n plane_p q0)) eqn:E0,
           (Qle_bool 0 (dist plane_n plane_p q1)) eqn:E1,
           (Qle_bool 0 (dist plane_n plane_p q2)) eqn:E2;
    cbn; intros Hc HF; try discriminate Hc;
    bools_to_props;
    inversion HF as [|t ? l' ? Ht HF']; subst; inversion HF'; subst;
    [exists q0, q1, q2 | exists q1, q0, q2 | exists q2, q0, q1]; exists t;
    (split; [perm_solve|]); (split; [assumption|]); (split; [assumption|]);
    (split; [assumption|]); (split; [exact Hl|]); (split; [exact Ht|]);
    destruct Ht as (_&Ep1&Ep2&_); rewrite Ep1, Ep2;
    split; apply dist_cut; simpl; lra.
Qed.

(** C19: with exactly two vertices inside, the result is the two triangles
    [{i0, i1, q1}] and [{i1, q1, q2}], where [q1] and [q2] are the points
    where the edges [i0 o0] and [i1 o0] cross the plane, on the plane; and
    the two pieces together have the area of the clipped quadrilateral:
    the triangle's area times [1 - (1 - s)(1 - u)] for the crossing
    parameters [s] and [u] (the whole minus the corner cut off). *)
Theorem Triangle_ClipAgainstPlane_two_inside (plane_p plane_n : vector3D) (tri : triangle) :
  inside_count plane_p plane_n tri = 2%nat ->
  exists i0 i1 o0 t1 t2,
    Permutation (tri_vertices tri) [i0; i1; o0] /\
    0 <= dist plane_n plane_p i0 /\ 0 <= dist plane_n plane_p i1 /\ dist plane_n plane_p o0 < 0 /\
    Triangle_ClipAgainstPlane plane_p plane_n tri = Some [t1; t2] /\
    teq t1 (mkTri i0 i1 (cut plane_n plane_p i0 o0) (clr tri)) /\
    teq t2 (mkTri i1 (cut plane_n plane_p i0 o0) (cut plane_n plane_p i1 o0) (clr tri)) /\
    dist plane_n plane_p (p2 t1) == 0 /\ dist plane_n plane_p (p2 t2) == 0 /\
    area2 t1 (tri_normal tri) + area2 t2 (tri_normal tri) ==
      area2 tri (tri_normal tri) *
      (1 - (1 - cut_param plane_n plane_p i0 o0) * (1 - cut_param plane_n plane_p i1 o0)).
Proof.
  intros Hc. destruct (clip_refines plane_p plane_n tri) as (l&Hl&HF). revert Hc HF.
  destruct tri as [q0 q1 q2 k].
  unfold inside_count, tri_vertices, clip_ref, classify; cbn [p0 p1 p2 clr filter].
  destruct (Qle_bool 0 (dist plane_n plane_p q0)) eqn:E0,
           (Qle_bool 0 (dist plane_n plane_p q1)) eqn:E1,
           (Qle_bool 0 (dist plane_n plane_p q2)) eqn:E2;
    cbn -[area2 tri_normal cut cut_param dist]; intros Hc HF; try discriminate Hc;
    bools_to_props;
    inversion HF as [|t1 ? l1 ? Ht1 HF1]; subst;
    inversion HF1 as [|t2 ? l2 ? Ht2 HF2]; subst; inversion HF2; subst;
    [exists q0, q1, q2 | exists q0, q2, q1 | exists q1, q2, q0]; exists t1, t2;
    (split; [perm_solve|]); (split; [assumption|]); (split; [assumption|]);
    (split; [assumption|]); (split; [exact Hl|]); (split; [exact Ht1|]); (split; [exact Ht2|]);
    (edestruct (two_inside_facts (tri_normal (mkTri q0 q1 q2 k))) as (D1&D2&A); [| | | exact Ht1 | exact Ht2 |];
     [assumption.. | split; [exact D1|]; split; [exact D2|]; rewrite A]);
    [reflexivity | apply Qmult_comp; [apply area2_swap | reflexivity]
    | apply Qmult_comp; [apply area2_rotate | reflexivity]].
Qed.

End ClipProperties.

(** ** Winding *)

(** The clipper does not keep the winding of its input: clipping the
    counter-clockwise triangle [(0,0,1) (1,0,1) (0,1,1)] against [x >= 1/2]
    keeps only its middle vertex [p1] and emits [p1, cut(p1,p0), cut(p1,p2)],
    whose signed area (the z component of the cross product of its edges)
    has the opposite sign. *)
Example clip_reverses_winding :
  match Triangle_ClipAgainstPlane (vec3 (1#2) 0 0) (vec3 1 0 0)
          (mkTri (vec3 0 0 1) (vec3 1 0 1) (vec3 0 1 1) color_default) with
  | Some [t] =>
      Qltb (z (vCrossProduct (vsub (p1 t) (p0 t)) (vsub (p2 t) (p0 t)))) 0 &&
      Qltb 0 (z (vCrossProduct (vsub (vec3 1 0 1) (vec3 0 0 1)) (vsub (vec3 0 1 1) (vec3 0 0 1))))
  | _ => false
  end = true.
Proof. vm_compute. reflexivity. Qed.

(** ** Witnesses, on the triangle [(0,0,1) (1,0,1) (0,1,1)] *)

Abbreviation demo_tri :=
  (mkTri (vec3 0 0 1) (vec3 1 0 1) (vec3 0 1 1) color_default) (only parsing).

Lemma Triangle_ClipAgainstPlane_refines_witness :
  nonzero_normal (vec3 1 0 0) /\
  exists l, Triangle_ClipAgainstPlane (vec3 (1#2) 0 0) (vec3 1 0 0) demo_tri = Some l /\
            Forall2 teq l (clip_ref (vec3 (1#2) 0 0) (vec3 1 0 0) demo_tri).
Proof. split; [qdecide|]. apply Triangle_ClipAgainstPlane_refines. qdecide. Defined.

Lemma Triangle_ClipAgainstPlane_all_inside_witness :
  (0 <= dist (vec3 0 0 1) (vec3 0 0 (1#10)) (vec3 0 0 1) /\
   0 <= dist (vec3 0 0 1) (vec3 0 0 (1#10)) (vec3 1 0 1) /\
   0 <= dist (vec3 0 0 1) (vec3 0 0 (1#10)) (vec3 0 1 1)) /\
  Triangle_ClipAgainstPlane (vec3 0 0 (1#10)) (vec3 0 0 1) demo_tri = Some [demo_tri].
Proof.
  split; [repeat split; qdecide|].
  apply Triangle_ClipAgainstPlane_all_inside; unfold nonzero_normal; qdecide.
Defined.

Lemma Triangle_ClipAgainstPlane_all_outside_witness :
  (dist (vec3 0 0 (-1)) (vec3 0 0 (1#10)) (vec3 0 0 1) < 0 /\
   dist (vec3 0 0 (-1)) (vec3 0 0 (1#10)) (vec3 1 0 1) < 0 /\
   dist (vec3 0 0 (-1)) (vec3 0 0 (1#10)) (vec3 0 1 1) < 0) /\
  Triangle_ClipAgainstPlane (vec3 0 0 (1#10)) (vec3 0 0 (-1)) demo_tri = Some [].
Proof.
  split; [repeat split; qdecide|].
  apply Triangle_ClipAgainstPlane_all_outside; qdecide.
Defined.

Lemma Triangle_ClipAgainstPlane_count_witness :
  nonzero_normal (vec3 (-1) 0 0) /\
  exists l, Triangle_ClipAgainstPlane (vec3 (1#2) 0 0) (vec3 (-1) 0 0) demo_tri = Some l /\
    length l = match inside_count (vec3 (1#2) 0 0) (vec3 (-1) 0 0) demo_tri with
               | 3%nat => 1%nat | k => k end /\
    Forall (fun t => clr t = clr demo_tri) l.
Proof. split; [qdecide|]. apply Triangle_ClipAgainstPlane_count. qdecide. Defined.

Lemma Triangle_ClipAgainstPlane_inside_witness :
  exists l, Triangle_ClipAgainstPlane (vec3 (1#2) 0 0) (vec3 1 0 0) demo_tri = Some l /\
    forall t v, In t l -> In v (tri_vertices t) -> 0 <= dist (vec3 1 0 0) (vec3 (1#2) 0 0) v.
Proof. apply Triangle_ClipAgainstPlane_inside. Defined.

Lemma Triangle_ClipAgainstPlane_convex_witness :
  (forall v, In v (tri_vertices demo_tri) -> 0 <= dist (vec3 0 0 1) (vec3 0 0 0) v) /\
  exists l, Triangle_ClipAgainstPlane (vec3 (1#2) 0 0) (vec3 1 0 0) demo_tri = Some l /\
    forall t v, In t l -> In v (tri_vertices t) -> 0 <= dist (vec3 0 0 1) (vec3 0 0 0) v.
Proof.
  assert (Hin : forall v, In v (tri_vertices demo_tri) -> 0 <= dist (vec3 0 0 1) (vec3 0 0 0) v).
  { intros v Hv. simpl in Hv. repeat destruct Hv as [<-|Hv]; [qdecide..|contradiction]. }
  split; [exact Hin|]. apply Triangle_ClipAgainstPlane_convex. exact Hin.
Defined.

Lemma Triangle_ClipAgainstPlane_one_inside_witness :
  inside_count (vec3 (1#2) 0 0) (vec3 1 0 0) demo_tri = 1%nat /\
  exists i0 o0 o1 t,
    Permutation (tri_vertices demo_tri) [i0; o0; o1] /\
    0 <= dist (vec3 1 0 0) (vec3 (1#2) 0 0) i0 /\ dist (vec3 1 0 0) (vec3 (1#2) 0 0) o0 < 0 /\
    dist (vec3 1 0 0) (vec3 (1#2) 0 0) o1 < 0 /\
    Triangle_ClipAgainstPlane (vec3 (1#2) 0 0) (vec3 1 0 0) demo_tri = Some [t] /\
    teq t (mkTri i0 (cut (vec3 1 0 0) (vec3 (1#2) 0 0) i0 o0)
                    (cut (vec3 1 0 0) (vec3 (1#2) 0 0) i0 o1) (clr demo_tri)) /\
    dist (vec3 1 0 0) (vec3 (1#2) 0 0) (p1 t) == 0 /\ dist (vec3 1 0 0) (vec3 (1#2) 0 0) (p2 t) == 0.
Proof.
  split; [vm_compute; reflexivity|].
  apply Triangle_ClipAgainstPlane_one_inside. vm_compute. reflexivity.
Defined.

Lemma Triangle_ClipAgainstPlane_two_inside_witness :
  inside_count (vec3 (1#2) 0 0) (vec3 (-1) 0 0) demo_tri = 2%nat /\
  exists i0 i1 o0 t1 t2,
    Permutation (tri_vertices demo_tri) [i0; i1; o0] /\
    0 <= dist (vec3 (-1) 0 0) (vec3 (1#2) 0 0) i0 /\ 0 <= dist (vec3 (-1) 0 0) (vec3 (1#2) 0 0) i1 /\
    dist (vec3 (-1) 0 0) (vec3 (1#2) 0 0) o0 < 0 /\
    Triangle_ClipAgainstPlane (vec3 (1#2) 0 0) (vec3 (-1) 0 0) demo_tri = Some [t1; t2] /\
    teq t1 (mkTri i0 i1 (cut (vec3 (-1) 0 0) (vec3 (1#2) 0 0) i0 o0) (clr demo_tri)) /\
    teq t2 (mkTri i1 (cut (vec3 (-1) 0 0) (vec3 (1#2) 0 0) i0 o0)
                     (cut (vec3 (-1) 0 0) (vec3 (1#2) 0 0) i1 o0) (clr demo_tri)) /\
    dist (vec3 (-1) 0 0) (vec3 (1#2) 0 0) (p2 t1) == 0 /\
    dist (vec3 (-1) 0 0) (vec3 (1#2) 0 0) (p2 t2) == 0 /\
    area2 t1 (tri_normal demo_tri) + area2 t2 (tri_normal demo_tri) ==
      area2 demo_tri (tri_normal demo_tri) *
      (1 - (1 - cut_param (vec3 (-1) 0 0) (vec3 (1#2) 0 0) i0 o0) *
           (1 - cut_param (vec3 (-1) 0 0) (vec3 (1#2) 0 0) i1 o0)).
Proof.
  split; [vm_compute; reflexivity|].
  apply Triangle_ClipAgainstPlane_two_inside. vm_compute. reflexivity.
Defined.

End Clipper.
