(* ===== verification/Mesh.v ===== *)
(** * The mesh loader: [mesh::LoadFromObjectFile] of src/VectorMatrix.h
      (lines 115-148)

    [Module ObjLoader] models the loader on the contents of the file, a
    list of characters ([None] when the file cannot be opened).  The
    standard library calls the loader makes are modelled from their
    specification in libstdc++:
    - [f.getline(line, 128)] ([getline]) stores at most 127 characters;
      it consumes the newline when it finds one, sets [eofbit] at the end
      of the file, and sets [failbit] when 127 characters are stored and
      the next one is not a newline;
    - [s << line] copies the C string, up to its first NUL ([cstr]);
    - [s >> c] for a [char] skips white space and reads one character;
    - [s >> x] for a [float] ([extract_float]) skips white space and
      accumulates sign, digits, a decimal point, digits and an exponent as
      [num_get] does; the value is [0] and the stream fails when no digit
      of the mantissa or of a started exponent is found, and every later
      extraction then fails, leaving its variable unchanged; the value
      is the exact decimal, which [strtof] then rounds to a [float]: the
      rounding is not modelled, and the round-trip theorem is stated for
      decimals a [float] holds exactly (integers up to [2^24]);
    - [s >> i] for an [int] ([extract_int]) accumulates [10 * acc + d]
      and fails outside [[INT_MIN, INT_MAX]].
    Reading an uninitialised [f[k]] or indexing [verts] out of range is
    undefined behaviour, the outcome [Undefined]; the loop that never
    reaches [eof] once [failbit] is set is the outcome [Diverges].  The
    [while] loop is [load_lines], on fuel that the theorems show is never
    exhausted by [length file + 1]. *)

From Stdlib Require Import QArith Qround List Lia ZArith Ascii.
From Stdlib Require String.
Import (notations) String.
Import ListNotations.
From S2P Require Import Prelude Vector Clip.

Module ObjLoader.
Import Vector3D Clipper.

Local Open Scope char_scope.

(** [struct mesh { std::vector<triangle> tris; }] *)
Record mesh := mkMesh { tris : list triangle }.

(** What a call of the loader does: return a value, reach undefined
    behaviour, loop for ever; [OutOfFuel] only for a fuel that is too
    small. *)
Inductive outcome (A : Type) : Type :=
  | Done (a : A)
  | Undefined
  | Diverges
  | OutOfFuel.
Arguments Done {A} a.
Arguments Undefined {A}.
Arguments Diverges {A}.
Arguments OutOfFuel {A}.

(** ** Characters *)

Definition NUL : ascii := "000".
Definition newline : ascii := "010".

(** [isspace] in the "C" locale: space, \t, \n, \v, \f, \r. *)
Definition is_space (c : ascii) : bool :=
  let n := nat_of_ascii c in (n =? 32)%nat || ((9 <=? n) && (n <=? 13))%nat.

Definition is_digit (c : ascii) : bool :=
  let n := nat_of_ascii c in ((48 <=? n) && (n <=? 57))%nat.

Definition digit_value (c : ascii) : Z := Z.of_nat (nat_of_ascii c) - 48.

(** ** [f.getline(line, 128)] *)

Inductive getline_status := GOk | GEof | GFail.

(** [room] characters can still be stored; a newline is consumed and not
    stored, even when the buffer is full. *)
Fixpoint getline (room : nat) (s : list ascii) {struct s}
  : list ascii * list ascii * getline_status :=
  match s with
  | [] => ([], [], GEof)
  | c :: s' =>
      if Ascii.eqb c newline then ([], s', GOk)
      else match room with
           | O => ([], s, GFail)
           | S room' => let '(l, rest, st) := getline room' s' in (c :: l, rest, st)
           end
  end.

(** [s << line]: the characters of the buffer up to its terminator. *)
Fixpoint cstr (l : list ascii) : list ascii :=
  match l with
  | [] => []
  | c :: l' => if Ascii.eqb c NUL then [] else c :: cstr l'
  end.

(** ** Extraction from the [strstream] *)

Fixpoint skip_ws (s : list ascii) : list ascii :=
  match s with
  | c :: s' => if is_space c then skip_ws s' else s
  | [] => []
  end.

Fixpoint span_digits (s : list ascii) : list ascii * list ascii :=
  match s with
  | c :: s' => if is_digit c then let '(ds, r) := span_digits s' in (c :: ds, r) else ([], s)
  | [] => ([], [])
  end.

(** An optional sign: [true] for a minus. *)
Definition lex_sign (s : list ascii) : bool * list ascii :=
  match s with
  | c :: s' => if Ascii.eqb c "-" then (true, s')
               else if Ascii.eqb c "+" then (false, s') else (false, s)
  | [] => (false, [])
  end.

(** [__result = __result * 10 + __digit] over the accumulated digits. *)
Definition digits_value (ds : list ascii) : Z :=
  fold_left (fun acc c => acc * 10 + digit_value c)%Z ds 0%Z.

Definition INT_MIN : Z := (- 2 ^ 31)%Z.
Definition INT_MAX : Z := (2 ^ 31 - 1)%Z.

(** [s >> i] for an [int]; [None] is a failed extraction. *)
Definition extract_int (s : list ascii) : option (Z * list ascii) :=
  let '(neg, s1) := lex_sign (skip_ws s) in
  let '(ds, s2) := span_digits s1 in
  match ds with
  | [] => None
  | _ =>
      let v := if neg then (- digits_value ds)%Z else digits_value ds in
      if (INT_MIN <=? v)%Z && (v <=? INT_MAX)%Z then Some (v, s2) else None
  end.

(** The exponent part of a float: [e] or [E], an optional sign, digits. *)
Definition lex_exponent (s : list ascii) : option (bool * list ascii) * list ascii :=
  match s with
  | c :: s' =>
      if Ascii.eqb c "e" || Ascii.eqb c "E" then
        let '(eneg, s1) := lex_sign s' in
        let '(ds, s2) := span_digits s1 in (Some (eneg, ds), s2)
      else (None, s)
  | [] => (None, [])
  end.

(** [s >> x] for a [float]: the mantissa [d1.d2] (at least one digit), an
    exponent only after a digit of the mantissa, and digits in a started
    exponent; the value is exact. *)
Definition extract_float (s : list ascii) : option (Q * list ascii) :=
  let '(neg, s1) := lex_sign (skip_ws s) in
  let '(d1, s2) := span_digits s1 in
  let '(d2, s3) :=
    match s2 with
    | c :: r => if Ascii.eqb c "." then span_digits r else ([], s2)
    | [] => ([], [])
    end in
  match d1 ++ d2 with
  | [] => None
  | ds =>
      let '(ex, s4) := lex_exponent s3 in
      let mant := inject_Z (if neg then - digits_value ds else digits_value ds)%Z
                  / inject_Z (10 ^ Z.of_nat (length d2)) in
      match ex with
      | None => Some (Qred mant, s4)
      | Some (_, []) => None
      | Some (eneg, de) =>
          let e := digits_value de in
          Some (Qred (mant * Qpower (inject_Z 10) (if eneg then - e else e)%Z), s4)
      end
  end.

(** [s >> identifier >> v.x >> v.y >> v.z] on a line starting with [v]:
    a failed extraction sets its coordinate to [0] and every later one
    leaves the default [0]; [w] keeps its default [1]. *)
Definition parse_vertex (rest : list ascii) : vector3D :=
  match extract_float rest with
  | None => vdefault
  | Some (vx, r1) =>
      match extract_float r1 with
      | None => mkV vx 0 0 1
      | Some (vy, r2) =>
          match extract_float r2 with
          | None => mkV vx vy 0 1
          | Some (vz, _) => mkV vx vy vz 1
          end
      end
  end.

(** [s >> identifier >> f[0] >> f[1] >> f[2]]: [None] when one extraction
    fails, since the index is then [0], [INT_MIN], [INT_MAX] or an
    uninitialised [int]. *)
Definition parse_face (rest : list ascii) : option (Z * Z * Z) :=
  match extract_int rest with
  | None => None
  | Some (i, r1) =>
      match extract_int r1 with
      | None => None
      | Some (j, r2) =>
          match extract_int r2 with
          | None => None
          | Some (k, _) => Some (i, j, k)
          end
      end
  end.

(** [verts[(int)f[k] - 1]]: [None] out of range. *)
Definition vert_at (verts : list vector3D) (i : Z) : option vector3D :=
  if (1 <=? i)%Z then nth_error verts (Z.to_nat (i - 1)) else None.

(** The body of the [while] loop after [getline]: the two [if]s on
    [line[0]]. *)
Definition process_line (line : list ascii) (verts : list vector3D) (this : mesh)
  : option (list vector3D * mesh) :=
  match cstr line with
  | c :: rest =>
      if Ascii.eqb c "v" then Some (verts ++ [parse_vertex rest], this)
      else if Ascii.eqb c "f" then
        match parse_face rest with
        | None => None
        | Some (i, j, k) =>
            match vert_at verts i, vert_at verts j, vert_at verts k with
            | Some a, Some b, Some c =>
                Some (verts, mkMesh (tris this ++ [mkTri a b c color_default]))
            | _, _, _ => None
            end
        end
      else Some (verts, this)
  | [] => Some (verts, this)
  end.

(** [while (!f.eof())]: after a line read with [failbit] set, [getline]
    stores an empty line without reading and [eof] is never reached. *)
Fixpoint load_lines (fuel : nat) (file : list ascii) (verts : list vector3D) (this : mesh)
  : outcome (list vector3D * mesh) :=
  match fuel with
  | O => OutOfFuel
  | S fuel' =>
      let '(line, rest, st) := getline 127 file in
      match process_line line verts this with
      | None => Undefined
      | Some (verts', this') =>
          match st with
          | GEof => Done (verts', this')
          | GFail => Diverges
          | GOk => load_lines fuel' rest verts' this'
          end
      end
  end.

(** [bool mesh::LoadFromObjectFile(std::string)]: the triangles are
    appended to [this->tris]. *)
Definition LoadFromObjectFile (this : mesh) (file : option (list ascii)) : outcome (bool * mesh) :=
  match file with
  | None => Done (false, this)
  | Some s =>
      match load_lines (S (length s)) s [] this with
      | Done (_, this') => Done (true, this')
      | Undefined => Undefined
      | Diverges => Diverges
      | OutOfFuel => OutOfFuel
      end
  end.

(** ** A writer of OBJ files

    Not part of the program: the files the round-trip theorem loads.
    Integers are printed in decimal, with a minus sign when negative. *)

Definition digit_char (d : Z) : ascii := ascii_of_nat (Z.to_nat (d + 48)).

Fixpoint digits (fuel : nat) (n : Z) : list ascii :=
  match fuel with
  | O => []
  | S f => if (n <? 10)%Z then [digit_char n] else digits f (n / 10) ++ [digit_char (n mod 10)]
  end.

Definition print_int (z : Z) : list ascii :=
  (if (z <? 0)%Z then ["-"] else []) ++ digits (S (Z.to_nat (Z.log2 (Z.abs z)))) (Z.abs z).

Definition obj_line (tag : ascii) (c : Z * Z * Z) : list ascii :=
  let '(a, b, d) := c in
  [tag; " "] ++ print_int a ++ [" "] ++ print_int b ++ [" "] ++ print_int d.

Definition print_obj (vs fs : list (Z * Z * Z)) : list ascii :=
  flat_map (fun c => obj_line "v" c ++ [newline]) vs ++
  flat_map (fun c => obj_line "f" c ++ [newline]) fs.

(** What the round trip expects: integer vertices, faces resolved against
    the list of vertices. *)
Definition to_vec (c : Z * Z * Z) : vector3D :=
  let '(a, b, d) := c in vec3 (inject_Z a) (inject_Z b) (inject_Z d).

Definition resolve (verts : list vector3D) (f : Z * Z * Z) : triangle :=
  let '(i, j, k) := f in
  let at_ i := nth (Z.to_nat (i - 1)) verts vdefault in
  mkTri (at_ i) (at_ j) (at_ k) color_default.

(** The bounds of the round trip: coordinates of at most nine digits
    (a line is then far below the 127 characters of the buffer) and face
    indices in [[1, number of vertices]]. *)
Definition small (z : Z) : Prop := (Z.abs z < 10 ^ 9)%Z.

Definition index_ok (n : nat) (i : Z) : Prop := (1 <= i <= Z.of_nat n)%Z /\ small i.

Definition small3 (c : Z * Z * Z) : Prop := let '(a, b, d) := c in small a /\ small b /\ small d.

(** An integer that a [float] holds exactly ([|z| <= 2^24]): for such a
    decimal, [strtof]'s rounding is the identity and the exact value of
    [extract_float] is the value the program reads. *)
Definition float_exact (z : Z) : Prop := (Z.abs z <= 2 ^ 24)%Z.

Definition coords_exact (c : Z * Z * Z) : Prop :=
  let '(a, b, d) := c in float_exact a /\ float_exact b /\ float_exact d.

Definition face_ok (n : nat) (f : Z * Z * Z) : Prop :=
  let '(i, j, k) := f in index_ok n i /\ index_ok n j /\ index_ok n k.

(** A character that neither ends the C string nor the line. *)
Definition plain (c : ascii) : bool := negb (Ascii.eqb c NUL) && negb (Ascii.eqb c newline).

(** The three vertices of a loaded triangle come from [verts], its colour
    is [sf::Color()]. *)
Definition tri_from (verts : list vector3D) (t : triangle) : Prop :=
  In (p0 t) verts /\ In (p1 t) verts /\ In (p2 t) verts /\ clr t = color_default.

(** The separator after a printed number: the end of the line or a space. *)
Definition sep (rest : list ascii) : Prop := rest = [] \/ exists r, rest = " " :: r.

(** ** Lemmas: characters and the line buffer *)

Lemma digit_char_spec d :
  (0 <= d < 10)%Z ->
  is_digit (digit_char d) = true /\ digit_value (digit_char d) = d /\ plain (digit_char d) = true.
Proof.
  intros Hd.
  assert (Hc : (d = 0 \/ d = 1 \/ d = 2 \/ d = 3 \/ d = 4 \/ d = 5 \/ d = 6 \/ d = 7 \/
                d = 8 \/ d = 9)%Z) by lia.
  repeat destruct Hc as [-> | Hc]; [..| subst]; vm_compute; auto.
Qed.

Lemma is_digit_not_sign c :
  is_digit c = true ->
  is_space c = false /\ Ascii.eqb c "-" = false /\ Ascii.eqb c "+" = false /\
  Ascii.eqb c "." = false /\ Ascii.eqb c "e" = false /\ Ascii.eqb c "E" = false.
Proof.
  intros Hd.
  assert (Hk : forall c', is_digit c' = false -> Ascii.eqb c c' = false)
    by (intros c' Hc'; destruct (Ascii.eqb_spec c c'); [subst; congruence | reflexivity]).
  repeat split; try (apply Hk; reflexivity).
  unfold is_digit, is_space in *. apply andb_prop in Hd as [H1 H2].
  apply Nat.leb_le in H1, H2. apply orb_false_iff; split; [apply Nat.eqb_neq; lia|].
  apply andb_false_iff. right. apply Nat.leb_gt. lia.
Qed.

Lemma getline_plain room l rest :
  Forall (fun c => plain c = true) l -> (length l <= room)%nat ->
  getline room (l ++ newline :: rest) = (l, rest, GOk).
Proof.
  revert room. induction l as [|c l IH]; intros room Hp Hl; [reflexivity|].
  inversion Hp as [|? ? Hc Hp']; subst. unfold plain in Hc.
  apply andb_prop in Hc as [_ Hc]. apply negb_true_iff in Hc.
  destruct room as [|room]; [simpl in Hl; lia|].
  simpl. rewrite Hc, IH by (simpl in Hl; lia + assumption). reflexivity.
Qed.

(** A line of at least [room + 1] characters without a newline fills the
    buffer and sets [failbit]. *)
Lemma getline_long room l rest :
  length l = S room -> Forall (fun c => Ascii.eqb c newline = false) l ->
  getline room (l ++ rest) = (firstn room l, skipn room l ++ rest, GFail).
Proof.
  revert l. induction room as [|room IH]; intros l Hl Hn;
    destruct l as [|c l]; try discriminate Hl; inversion Hn; subst; simpl.
  - rewrite H1. reflexivity.
  - rewrite H1, IH by (simpl in Hl; lia + assumption). reflexivity.
Qed.

Lemma getline_progress room s l rest :
  getline room s = (l, rest, GOk) -> (length rest < length s)%nat.
Proof.
  revert room l. induction s as [|c s IH]; intros room l E; simpl in E.
  - discriminate E.
  - destruct (Ascii.eqb c newline).
    + injection E as _ <-. simpl. lia.
    + destruct room as [|room]; [discriminate E|].
      destruct (getline room s) as [[l' rest'] st] eqn:E'.
      injection E as _ <- ->. apply IH in E'. simpl. lia.
Qed.

Lemma cstr_plain l : Forall (fun c => plain c = true) l -> cstr l = l.
Proof.
  induction 1 as [|c l Hc _ IH]; [reflexivity|]. simpl.
  unfold plain in Hc. apply andb_prop in Hc as [Hc _]. apply negb_true_iff in Hc.
  rewrite Hc, IH. reflexivity.
Qed.

(** ** Lemmas: numbers *)

Lemma digits_value_snoc ds c :
  digits_value (ds ++ [c]) = (digits_value ds * 10 + digit_value c)%Z.
Proof. unfold digits_value. rewrite fold_left_app. reflexivity. Qed.

Lemma digits_spec fuel n :
  (0 <= n < 10 ^ Z.of_nat fuel)%Z -> (1 <= fuel)%nat ->
  digits fuel n <> [] /\ Forall (fun c => is_digit c = true) (digits fuel n) /\
  digits_value (digits fuel n) = n.
Proof.
  revert n. induction fuel as [|f IH]; intros n Hn H1; [lia|].
  simpl. destruct (Z.ltb_spec n 10) as [Hlt|Hge].
  - destruct (digit_char_spec n) as (Hd&Hv&_); [lia|].
    split; [discriminate|]. split; [auto|]. unfold digits_value; simpl. lia.
  - assert (Hf : (0 <= n / 10 < 10 ^ Z.of_nat f)%Z).
    { split; [apply Z.div_pos; lia|]. apply Z.div_lt_upper_bound; [lia|].
      rewrite Nat2Z.inj_succ, Z.pow_succ_r in Hn by lia. lia. }
    assert (Hf1 : (1 <= f)%nat) by (destruct f; [simpl in Hn; lia | lia]).
    destruct (IH _ Hf Hf1) as (_&Hds&Hv).
    destruct (digit_char_spec (n mod 10)) as (Hd&Hv'&_); [apply Z.mod_pos_bound; lia|].
    split; [destruct (digits f (n / 10)); discriminate|].
    split; [apply Forall_app; auto|].
    rewrite digits_value_snoc, Hv, Hv'. pose proof (Z.div_mod n 10). lia.
Qed.

Lemma digits_length fuel n k :
  (0 <= n < 10 ^ Z.of_nat k)%Z -> (1 <= k)%nat -> (length (digits fuel n) <= k)%nat.
Proof.
  revert n k. induction fuel as [|f IH]; intros n k Hn Hk; simpl; [lia|].
  destruct (n <? 10)%Z eqn:E; simpl; [lia|]. apply Z.ltb_ge in E.
  destruct k as [|k]; [lia|].
  rewrite Nat2Z.inj_succ, Z.pow_succ_r in Hn by lia.
  destruct k as [|k]; [simpl in Hn; lia|].
  rewrite length_app. simpl. enough (length (digits f (n / 10)) <= S k)%nat by lia.
  apply IH; [|lia]. split; [apply Z.div_pos; lia|]. apply Z.div_lt_upper_bound; lia.
Qed.

(** The fuel of [print_int] is enough for every integer. *)
Lemma print_fuel n : (0 <= n)%Z -> (n < 10 ^ Z.of_nat (S (Z.to_nat (Z.log2 n))))%Z.
Proof.
  intros Hn. rewrite Nat2Z.inj_succ, Z2Nat.id by apply Z.log2_nonneg.
  apply Z.lt_le_trans with (2 ^ Z.succ (Z.log2 n))%Z.
  - destruct (Z.eq_dec n 0) as [->|Hn0]; [reflexivity|]. apply Z.log2_spec. lia.
  - apply Z.pow_le_mono_l. pose proof (Z.log2_nonneg n). lia.
Qed.

Lemma print_int_spec z :
  exists (neg : bool) ds, print_int z = (if neg then ["-"] else []) ++ ds /\
    ds <> [] /\ Forall (fun c => is_digit c = true) ds /\
    (if neg then (- digits_value ds)%Z else digits_value ds) = z.
Proof.
  unfold print_int. pose proof (print_fuel (Z.abs z) (Z.abs_nonneg z)) as Hf.
  destruct (digits_spec _ (Z.abs z) (conj (Z.abs_nonneg z) Hf) ltac:(lia)) as (Hne&Hd&Hv).
  exists (z <? 0)%Z, (digits (S (Z.to_nat (Z.log2 (Z.abs z)))) (Z.abs z)).
  split; [reflexivity|]. split; [exact Hne|]. split; [exact Hd|].
  rewrite Hv. destruct (Z.ltb_spec z 0); lia.
Qed.

Lemma print_int_plain z : Forall (fun c => plain c = true) (print_int z).
Proof.
  destruct (print_int_spec z) as (neg&ds&E&_&Hd&_). rewrite E.
  apply Forall_app. split; [destruct neg; auto|].
  eapply Forall_impl; [|exact Hd]. intros c Hc.
  apply andb_prop in Hc as [H1 H2]. apply Nat.leb_le in H1, H2.
  unfold plain. destruct (Ascii.eqb_spec c NUL) as [->|]; [vm_compute in H1; lia|].
  destruct (Ascii.eqb_spec c newline) as [->|]; [vm_compute in H1; lia | reflexivity].
Qed.

Lemma print_int_length z : small z -> (length (print_int z) <= 10)%nat.
Proof.
  unfold small, print_int. intros Hz. rewrite length_app.
  assert (length (digits (S (Z.to_nat (Z.log2 (Z.abs z)))) (Z.abs z)) <= 9)%nat
    by (apply digits_length; [split; [apply Z.abs_nonneg | exact Hz] | lia]).
  destruct (z <? 0)%Z; cbn [length]; lia.
Qed.

Lemma span_digits_app ds rest :
  Forall (fun c => is_digit c = true) ds -> sep rest -> span_digits (ds ++ rest) = (ds, rest).
Proof.
  intros Hd Hs. induction Hd as [|c ds Hc _ IH]; simpl.
  - destruct Hs as [->|[r ->]]; reflexivity.
  - rewrite Hc, IH. reflexivity.
Qed.

(** After a space, a printed integer is read back by both extractors. *)
Lemma extract_print z rest :
  sep rest ->
  exists (neg : bool) ds, lex_sign (skip_ws (" " :: print_int z ++ rest)) = (neg, ds ++ rest) /\
    span_digits (ds ++ rest) = (ds, rest) /\ ds <> [] /\
    (if neg then (- digits_value ds)%Z else digits_value ds) = z.
Proof.
  intros Hs. destruct (print_int_spec z) as (neg&ds&E&Hne&Hd&Hv). rewrite E.
  exists neg, ds. rewrite span_digits_app by assumption. split; [|auto].
  destruct ds as [|c ds]; [congruence|]. inversion Hd as [|? ? Hc _]; subst.
  destruct (is_digit_not_sign c Hc) as (Hsp&Hm&Hp&_).
  destruct neg; simpl; [reflexivity|]. rewrite Hsp. simpl. rewrite Hm, Hp. reflexivity.
Qed.

Lemma extract_int_print z rest :
  small z -> sep rest -> extract_int (" " :: print_int z ++ rest) = Some (z, rest).
Proof.
  intros Hz Hs. unfold extract_int.
  destruct (extract_print z rest Hs) as (neg&ds&E1&E2&Hne&Hv). rewrite E1, E2, Hv.
  destruct ds; [congruence|]. unfold small, INT_MIN, INT_MAX in *.
  replace ((- 2 ^ 31 <=? z)%Z && (z <=? 2 ^ 31 - 1)%Z) with true; [reflexivity|].
  symmetry. apply andb_true_intro. split; apply Z.leb_le; lia.
Qed.

Lemma Qred_inject_Z z : Qred (inject_Z z) = inject_Z z.
Proof.
  unfold Qred, inject_Z. destruct (Z.ggcd z 1) as [g [aa bb]] eqn:E.
  pose proof (Z.ggcd_gcd z 1) as Hg. pose proof (Z.ggcd_correct_divisors z 1) as Hd.
  rewrite E in Hg, Hd. simpl in Hg. rewrite Z.gcd_1_r in Hg. subst g.
  destruct Hd as [H1 H2]. rewrite Z.mul_1_l in H1, H2. subst. reflexivity.
Qed.

Lemma extract_float_print z rest :
  sep rest -> extract_float (" " :: print_int z ++ rest) = Some (inject_Z z, rest).
Proof.
  intros Hs. unfold extract_float.
  destruct (extract_print z rest Hs) as (neg&ds&E1&E2&Hne&Hv). rewrite E1, E2.
  assert (E3 : match rest with
               | c :: r => if Ascii.eqb c "." then span_digits r else ([], rest)
               | [] => ([], [])
               end = ([], rest)) by (destruct Hs as [->|[r ->]]; reflexivity).
  rewrite E3, app_nil_r.
  assert (E4 : lex_exponent rest = (None, rest)) by (destruct Hs as [->|[r ->]]; reflexivity).
  destruct ds as [|c ds]; [congruence|]. rewrite E4, Hv. do 2 f_equal.
  transitivity (Qred (inject_Z z)); [apply Qred_complete; simpl; field | apply Qred_inject_Z].
Qed.

(** ** Lemmas: one line *)

Lemma obj_line_plain tag c :
  plain tag = true -> Forall (fun c => plain c = true) (obj_line tag c).
Proof.
  intros Ht. destruct c as [[a b] d]. unfold obj_line.
  pose proof (print_int_plain a). pose proof (print_int_plain b). pose proof (print_int_plain d).
  constructor; [exact Ht|]. constructor; [reflexivity|].
  apply Forall_app; split; [assumption|]. constructor; [reflexivity|].
  apply Forall_app; split; [assumption|]. constructor; [reflexivity | assumption].
Qed.

Lemma obj_line_length tag c : small3 c -> (length (obj_line tag c) <= 127)%nat.
Proof.
  destruct c as [[a b] d]. intros (Ha&Hb&Hd). unfold obj_line. rewrite !length_app.
  pose proof (print_int_length a Ha). pose proof (print_int_length b Hb).
  pose proof (print_int_length d Hd). cbn [length]. lia.
Qed.

Lemma sep_space r : sep (" " :: r).
Proof. right. eauto. Qed.

Lemma sep_nil : sep [].
Proof. left. reflexivity. Qed.

Lemma parse_vertex_print a b d :
  parse_vertex (" " :: print_int a ++ " " :: print_int b ++ " " :: print_int d) = to_vec (a, b, d).
Proof.
  unfold parse_vertex. rewrite <- (app_nil_r (print_int d)).
  rewrite !extract_float_print by (apply sep_space || apply sep_nil). reflexivity.
Qed.

Lemma parse_face_print i j k :
  small i -> small j -> small k ->
  parse_face (" " :: print_int i ++ " " :: print_int j ++ " " :: print_int k) = Some (i, j, k).
Proof.
  intros Hi Hj Hk. unfold parse_face. rewrite <- (app_nil_r (print_int k)).
  rewrite !extract_int_print by (assumption || apply sep_space || apply sep_nil). reflexivity.
Qed.

Lemma vert_at_ok verts i :
  (1 <= i <= Z.of_nat (length verts))%Z -> vert_at verts i = Some (nth (Z.to_nat (i - 1)) verts vdefault).
Proof.
  intros Hi. unfold vert_at. replace (1 <=? i)%Z with true by (symmetry; apply Z.leb_le; lia).
  apply nth_error_nth'. lia.
Qed.

Lemma vert_at_none verts i :
  ~ (1 <= i <= Z.of_nat (length verts))%Z -> vert_at verts i = None.
Proof.
  intros Hi. unfold vert_at. destruct (Z.leb_spec 1 i); [|reflexivity].
  apply nth_error_None. lia.
Qed.

Lemma vert_at_In verts i v : vert_at verts i = Some v -> In v verts.
Proof.
  unfold vert_at. destruct (1 <=? i)%Z; [apply nth_error_In | discriminate].
Qed.

Lemma process_line_vertex c verts this :
  small3 c -> process_line (obj_line "v" c) verts this = Some (verts ++ [to_vec c], this).
Proof.
  intros _. unfold process_line. rewrite cstr_plain by (apply obj_line_plain; reflexivity).
  destruct c as [[a b] d]. cbn -[parse_vertex print_int]. rewrite parse_vertex_print. reflexivity.
Qed.

Lemma process_line_face f verts this :
  small3 f ->
  process_line (obj_line "f" f) verts this =
    (let '(i, j, k) := f in
     match vert_at verts i, vert_at verts j, vert_at verts k with
     | Some a, Some b, Some c => Some (verts, mkMesh (tris this ++ [mkTri a b c color_default]))
     | _, _, _ => None
     end).
Proof.
  intros Hf. unfold process_line. rewrite cstr_plain by (apply obj_line_plain; reflexivity).
  destruct f as [[i j] k]. destruct Hf as (Hi&Hj&Hk).
  cbn -[parse_face print_int]. rewrite parse_face_print by assumption. reflexivity.
Qed.

Lemma process_line_face_ok f verts this :
  face_ok (length verts) f ->
  process_line (obj_line "f" f) verts this = Some (verts, mkMesh (tris this ++ [resolve verts f])).
Proof.
  intros Hf. destruct f as [[i j] k]. destruct Hf as ((Hi&Si)&(Hj&Sj)&(Hk&Sk)).
  rewrite process_line_face by (repeat split; assumption).
  rewrite !vert_at_ok by assumption. reflexivity.
Qed.

(** ** Lemmas: the loop *)

Lemma load_lines_step fuel l rest verts this verts' this' :
  Forall (fun c => plain c = true) l -> (length l <= 127)%nat ->
  process_line l verts this = Some (verts', this') ->
  load_lines (S fuel) (l ++ newline :: rest) verts this = load_lines fuel rest verts' this'.
Proof.
  intros Hp Hl Hpl. simpl. rewrite getline_plain by assumption. rewrite Hpl. reflexivity.
Qed.

Lemma load_vertex_lines vs fuel rest verts this :
  Forall small3 vs ->
  load_lines (length vs + fuel) (flat_map (fun c => obj_line "v" c ++ [newline]) vs ++ rest) verts this =
  load_lines fuel rest (verts ++ map to_vec vs) this.
Proof.
  intros Hvs. revert verts. induction Hvs as [|c vs Hc _ IH]; intros verts.
  - rewrite app_nil_r. reflexivity.
  - simpl (length _ + _)%nat. cbn [flat_map]. rewrite <- !app_assoc. cbn [app].
    rewrite (load_lines_step _ _ _ _ _ (verts ++ [to_vec c]) this);
      [| apply obj_line_plain; reflexivity | apply obj_line_length; exact Hc
       | apply process_line_vertex; exact Hc].
    rewrite IH, <- app_assoc. reflexivity.
Qed.

Lemma load_face_lines fs fuel rest verts this :
  Forall (face_ok (length verts)) fs ->
  load_lines (length fs + fuel) (flat_map (fun c => obj_line "f" c ++ [newline]) fs ++ rest) verts this =
  load_lines fuel rest verts (mkMesh (tris this ++ map (resolve verts) fs)).
Proof.
  intros Hfs. revert this. induction Hfs as [|f fs Hf _ IH]; intros this.
  - rewrite app_nil_r. destruct this. reflexivity.
  - assert (Hs : small3 f)
      by (destruct f as [[i j] k]; destruct Hf as ((_&?)&(_&?)&(_&?)); repeat split; assumption).
    simpl (length _ + _)%nat. cbn [flat_map]. rewrite <- !app_assoc. cbn [app].
    rewrite (load_lines_step _ _ _ _ _ verts (mkMesh (tris this ++ [resolve verts f])));
      [| apply obj_line_plain; reflexivity | apply obj_line_length; exact Hs
       | apply process_line_face_ok; exact Hf].
    rewrite IH. simpl. rewrite <- app_assoc. reflexivity.
Qed.

Lemma length_obj_lines tag l :
  (length l <= length (flat_map (fun c => obj_line tag c ++ [newline]) l))%nat.
Proof.
  induction l as [|c l IH]; cbn [flat_map length]; [lia|]. rewrite !length_app. cbn [length]. lia.
Qed.

Lemma coords_exact_small3 c : coords_exact c -> small3 c.
Proof.
  destruct c as [[a b] d]. unfold coords_exact, float_exact, small3, small.
  intros (Ha&Hb&Hd). repeat split; lia.
Qed.

Lemma load_lines_total fuel s verts this :
  (length s < fuel)%nat -> load_lines fuel s verts this <> OutOfFuel.
Proof.
  revert s verts this. induction fuel as [|fuel IH]; intros s verts this Hf; [lia|]. simpl.
  destruct (getline 127 s) as [[l rest] st] eqn:E.
  destruct (process_line l verts this) as [[verts' this']|]; [|discriminate].
  destruct st; try discriminate. apply IH. apply getline_progress in E. lia.
Qed.

Lemma load_lines_fuel fuel1 fuel2 s verts this :
  (length s < fuel1)%nat -> (length s < fuel2)%nat ->
  load_lines fuel1 s verts this = load_lines fuel2 s verts this.
Proof.
  revert fuel2 s verts this.
  induction fuel1 as [|fuel1 IH]; intros [|fuel2] s verts this H1 H2; try lia. simpl.
  destruct (getline 127 s) as [[l rest] st] eqn:E.
  destruct (process_line l verts this) as [[verts' this']|]; [|reflexivity].
  destruct st; try reflexivity. apply getline_progress in E. apply IH; lia.
Qed.

Lemma process_line_not_face line verts this :
  hd_error (cstr line) <> Some "f" -> exists st, process_line line verts this = Some st.
Proof.
  unfold process_line. destruct (cstr line) as [|c rest]; intros Hf; [eauto|].
  destruct (Ascii.eqb c "v"); [eauto|].
  destruct (Ascii.eqb_spec c "f") as [->|_]; [contradiction|eauto].
Qed.

Lemma hd_cstr_firstn n l :
  hd_error l <> Some "f" -> hd_error (cstr (firstn (S n) l)) <> Some "f".
Proof.
  destruct l as [|c l]; [simpl; discriminate|]. intros Hc. cbn [hd_error] in Hc. cbn [firstn cstr].
  destruct (Ascii.eqb c NUL); cbn [hd_error]; congruence.
Qed.

Lemma tri_from_app verts more t : tri_from verts t -> tri_from (verts ++ more) t.
Proof. intros (H0&H1&H2&Hc). repeat split; try apply in_or_app; auto. Qed.

Lemma process_line_inv line verts this verts' this' :
  process_line line verts this = Some (verts', this') ->
  exists vnew new, verts' = verts ++ vnew /\ tris this' = tris this ++ new /\
    Forall (tri_from verts') new.
Proof.
  unfold process_line. destruct (cstr line) as [|c rest].
  { intros E. injection E as <- <-. exists [], []. rewrite !app_nil_r. auto. }
  destruct (Ascii.eqb c "v").
  { intros E. injection E as <- <-. exists [parse_vertex rest], []. rewrite app_nil_r. auto. }
  destruct (Ascii.eqb c "f").
  2: { intros E. injection E as <- <-. exists [], []. rewrite !app_nil_r. auto. }
  destruct (parse_face rest) as [[[i j] k]|]; [|discriminate].
  destruct (vert_at verts i) eqn:Ei, (vert_at verts j) eqn:Ej, (vert_at verts k) eqn:Ek;
    try discriminate.
  intros E. injection E as <- <-. eexists [], _. rewrite app_nil_r. split; [reflexivity|].
  split; [reflexivity|]. constructor; [|constructor].
  repeat split; simpl; eauto using vert_at_In.
Qed.

(** Loading a file made of vertex lines, a long line, and anything after. *)
Lemma load_after_vertices this vs l :
  Forall small3 vs ->
  exists k, LoadFromObjectFile this (Some (print_obj vs [] ++ l)) =
    match load_lines (S k) l (map to_vec vs) this with
    | Done (_, this') => Done (true, this')
    | Undefined => Undefined
    | Diverges => Diverges
    | OutOfFuel => OutOfFuel
    end.
Proof.
  intros Hvs. unfold LoadFromObjectFile, print_obj. cbn [flat_map]. rewrite app_nil_r.
  pose proof (length_obj_lines "v" vs) as Hl.
  exists (length (flat_map (fun c => obj_line "v" c ++ [newline]) vs ++ l) - length vs)%nat.
  rewrite length_app in *.
  replace (S (length (flat_map (fun c => obj_line "v" c ++ [newline]) vs) + length l))
    with (length vs + S (length (flat_map (fun c => obj_line "v" c ++ [newline]) vs) + length l
          - length vs))%nat by lia.
  rewrite load_vertex_lines by exact Hvs. reflexivity.
Qed.

(** ** Properties of the loader (claims) *)

(** C11: termination of the loader: every call returns, reaches undefined
    behaviour or provably loops; the fuel [length file + 1] given to the
    [while] loop is never exhausted. *)
Theorem LoadFromObjectFile_terminates (this : mesh) (file : option (list ascii)) :
  LoadFromObjectFile this file <> OutOfFuel.
Proof.
  destruct file as [s|]; unfold LoadFromObjectFile; [|discriminate].
  pose proof (load_lines_total (S (length s)) s [] this ltac:(lia)) as H.
  destruct (load_lines _ s [] this) as [[? ?]| | |]; congruence.
Qed.

(** C7: round trip: writing vertices with integer coordinates that a
    [float] holds exactly ([|c| <= 2^24]) as [v x y z] lines and faces as
    [f i j k] lines with indices in range, then loading the file, appends
    to the mesh exactly the triangles of the faces, each vertex resolved by
    value, with the default colour. *)
Theorem LoadFromObjectFile_roundtrip (this : mesh) (vs fs : list (Z * Z * Z)) :
  Forall coords_exact vs -> Forall (face_ok (length vs)) fs ->
  LoadFromObjectFile this (Some (print_obj vs fs)) =
    Done (true, mkMesh (tris this ++ map (resolve (map to_vec vs)) fs)).
Proof.
  intros Hvs Hfs. apply (Forall_impl _ coords_exact_small3) in Hvs.
  unfold LoadFromObjectFile, print_obj.
  pose proof (length_obj_lines "v" vs). pose proof (length_obj_lines "f" fs).
  set (V := flat_map _ vs) in *. set (F := flat_map _ fs) in *.
  assert (Hn : (length vs + length fs <= length (V ++ F))%nat) by (rewrite length_app; lia).
  destruct (Nat.le_exists_sub _ _ Hn) as [k [-> _]].
  replace (S (k + (length vs + length fs))) with (length vs + (length fs + S k))%nat by lia.
  rewrite <- (app_nil_r F). unfold V, F.
  rewrite load_vertex_lines, load_face_lines by (rewrite ?app_nil_l, ?length_map; assumption).
  reflexivity.
Qed.

(** C12: a line of 128 characters or more (a long comment, say) that is not
    a face line makes the loader loop for ever: [getline] fills the
    127-character buffer, sets [failbit], and [eof] is never reached. *)
Theorem LoadFromObjectFile_long_line (this : mesh) (vs : list (Z * Z * Z)) (l rest : list ascii) :
  Forall small3 vs -> length l = 128%nat ->
  Forall (fun c => Ascii.eqb c newline = false) l -> hd_error l <> Some "f" ->
  LoadFromObjectFile this (Some (print_obj vs [] ++ l ++ rest)) = Diverges.
Proof.
  intros Hvs Hl Hn Hf. destruct (load_after_vertices this vs (l ++ rest) Hvs) as [k ->].
  simpl. rewrite getline_long by assumption.
  destruct (process_line_not_face (firstn 127 l) (map to_vec vs) this) as [[v' m'] ->];
    [apply hd_cstr_firstn; exact Hf|].
  reflexivity.
Qed.

(** C15: a face line whose index is out of [[1, number of vertices read
    so far]] is undefined behaviour ([verts[i - 1]] out of range); the
    code does not check it. *)
Theorem LoadFromObjectFile_bad_index (this : mesh) (vs : list (Z * Z * Z)) (i j k : Z)
  (rest : list ascii) :
  Forall small3 vs -> small3 (i, j, k) ->
  ~ (1 <= i <= Z.of_nat (length vs))%Z \/ ~ (1 <= j <= Z.of_nat (length vs))%Z \/
  ~ (1 <= k <= Z.of_nat (length vs))%Z ->
  LoadFromObjectFile this (Some (print_obj vs [(i, j, k)] ++ rest)) = Undefined.
Proof.
  intros Hvs Hf Hout. unfold print_obj. cbn [flat_map]. rewrite app_nil_r, <- app_assoc.
  destruct (load_after_vertices this vs ((obj_line "f" (i, j, k) ++ [newline]) ++ rest) Hvs)
    as [k' E].
  unfold print_obj in E. cbn [flat_map] in E. rewrite app_nil_r in E. rewrite E.
  rewrite <- app_assoc. cbn [app load_lines].
  rewrite getline_plain by (apply obj_line_plain; reflexivity) || (apply obj_line_length; exact Hf).
  rewrite process_line_face by exact Hf. rewrite <- (length_map to_vec vs) in Hout.
  destruct Hout as [H|[H|H]]; rewrite (vert_at_none _ _ H);
    destruct (vert_at (map to_vec vs) i), (vert_at (map to_vec vs) j); reflexivity.
Qed.

(** C16: invariant of the loop: the vertex list only grows, triangles are
    only appended to the mesh, and every appended triangle has its three
    vertices among the vertices read and the default colour. *)
Theorem load_lines_tris_from_verts (fuel : nat) (s : list ascii) (verts : list vector3D)
  (this : mesh) (verts' : list vector3D) (this' : mesh) :
  load_lines fuel s verts this = Done (verts', this') ->
  exists vnew new, verts' = verts ++ vnew /\ tris this' = tris this ++ new /\
    Forall (tri_from verts') new.
Proof.
  revert s verts this. induction fuel as [|fuel IH]; intros s verts this; simpl; [discriminate|].
  destruct (getline 127 s) as [[l rest] st].
  destruct (process_line l verts this) as [[v1 m1]|] eqn:E; [|discriminate].
  destruct (process_line_inv _ _ _ _ _ E) as (vn1&n1&->&Ht1&Hf1).
  destruct st; intros Hd; try discriminate.
  - destruct (IH _ _ _ Hd) as (vn2&n2&->&Ht2&Hf2).
    exists (vn1 ++ vn2), (n1 ++ n2). rewrite Ht2, Ht1, !app_assoc. split; [reflexivity|].
    split; [reflexivity|]. apply Forall_app. split; [|exact Hf2].
    eapply Forall_impl; [|exact Hf1]. intros t. apply tri_from_app.
  - injection Hd as <- <-. eauto.
Qed.

(** C36: a line that starts with [v] followed by a character that cannot
    begin a number ([vn], [vt], [vp] lines) is loaded as the vertex
    [(0, 0, 0)]: the float extraction fails on the second character, the
    other coordinates keep their default [0].  Every later vertex, and so
    every later face index, is shifted by one. *)
Theorem load_lines_v_letter_line (fuel : nat) (c : ascii) (l rest : list ascii)
  (verts : list vector3D) (this : mesh) :
  is_space c = false -> is_digit c = false ->
  Ascii.eqb c "-" = false -> Ascii.eqb c "+" = false -> Ascii.eqb c "." = false ->
  Forall (fun c => plain c = true) (c :: l) -> (length l <= 125)%nat ->
  load_lines (S fuel) ("v" :: c :: l ++ newline :: rest) verts this =
  load_lines fuel rest (verts ++ [vdefault]) this.
Proof.
  intros Hs Hd Hm Hp Hdot Hl Hlen.
  apply (load_lines_step fuel ("v" :: c :: l)); [constructor; [reflexivity | exact Hl]
                                               | simpl; lia |].
  unfold process_line. rewrite cstr_plain by (constructor; [reflexivity | exact Hl]).
  cbn -[parse_vertex]. unfold parse_vertex, extract_float. simpl. rewrite Hs. simpl.
  rewrite Hm, Hp. simpl. rewrite Hd, Hdot. reflexivity.
Qed.

(** A face with texture or normal indices ([f 1/1 2/2 3/3]): the second
    extraction fails on [/], [f[1]] is [0] and [f[2]] uninitialised. *)
Example obj_slashed_face_undefined :
  LoadFromObjectFile (mkMesh []) (Some (String.list_ascii_of_string "v 0 0 0
v 1 0 0
v 0 1 0
f 1/1 2/2 3/3
"%string)) = Undefined.
Proof. vm_compute. reflexivity. Qed.

(** ** Witnesses *)

Abbreviation demo_vs := [(1, 2, 3); (-4, 5, 6); (7, -8, 9)]%Z (only parsing).
Abbreviation demo_fs := [(1, 2, 3); (3, 2, 1)]%Z (only parsing).

Lemma load_lines_v_letter_line_witness :
  load_lines 5 (["v"; "n"] ++ String.list_ascii_of_string " 0 0 1" ++ newline :: []) [] (mkMesh []) =
  load_lines 4 [] [vdefault] (mkMesh []).
Proof.
  apply (load_lines_v_letter_line 4 "n" (String.list_ascii_of_string " 0 0 1") [] [] (mkMesh []));
    try reflexivity; [repeat constructor | simpl; lia].
Defined.

Lemma LoadFromObjectFile_roundtrip_witness :
  LoadFromObjectFile (mkMesh []) (Some (print_obj demo_vs demo_fs)) =
    Done (true, mkMesh ([] ++ map (resolve (map to_vec demo_vs)) demo_fs)).
Proof.
  apply (LoadFromObjectFile_roundtrip (mkMesh []) demo_vs demo_fs);
    repeat constructor; unfold float_exact, small; simpl; lia.
Defined.

Lemma LoadFromObjectFile_long_line_witness :
  LoadFromObjectFile (mkMesh []) (Some (print_obj demo_vs [] ++ ("#" :: repeat "x" 127) ++
                                        String.list_ascii_of_string "
f 1 2 3
"%string)) = Diverges.
Proof.
  apply LoadFromObjectFile_long_line;
    [repeat constructor; unfold small; simpl; lia | reflexivity | vm_compute; repeat constructor
    | discriminate].
Defined.

Lemma LoadFromObjectFile_bad_index_witness :
  LoadFromObjectFile (mkMesh []) (Some (print_obj demo_vs [(1, 2, 4)%Z] ++ [])) = Undefined.
Proof.
  apply LoadFromObjectFile_bad_index;
    [repeat constructor; unfold small; simpl; lia | repeat split; unfold small; simpl; lia
    | right; right; simpl; lia].
Defined.

Lemma load_lines_tris_from_verts_witness :
  exists vnew new, map to_vec demo_vs = [] ++ vnew /\
    tris (mkMesh (map (resolve (map to_vec demo_vs)) demo_fs)) = tris (mkMesh []) ++ new /\
    Forall (tri_from (map to_vec demo_vs)) new.
Proof.
  apply (load_lines_tris_from_verts 100 (print_obj demo_vs demo_fs) [] (mkMesh [])).
  vm_compute. reflexivity.
Defined.

End ObjLoader.
