(* ===== verification/Screen.v ===== *)
(** * The frame assembler: depth sort and screen-edge clipping
      (src/main.cpp lines 232-288)

    [Module Assembler] models the painter's sort ([std::sort] with the
    lambda comparing average depths, lines 233-237) and the clipping of each
    sorted triangle against the four screen edges (lines 240-271): a
    [std::list] used as a FIFO queue, seeded with the triangle; for each
    edge [p] the loop pops exactly the [nNewTriangles] triangles queued by
    the previous edge and pushes their clipped pieces at the back.  The
    inner [while] is [clip_queue], structural in its counter; the outer
    [for] is a fold over the edges [0..3].  The drawing loop (lines
    273-286) draws the final queue, which is the model's result.

    [std::sort] is modelled by the Standard Library's merge sort
    instantiated with the source's comparator; the theorems use only what
    [std::sort] promises (a permutation, sorted for the comparator), so they
    hold for any sorting algorithm with that contract. *)

From Stdlib Require Import QArith Qround Lqa Setoid Morphisms List Lia Arith.
From Stdlib Require Import Sorting.Mergesort Sorting.Permutation Sorting.Sorted Orders.
Import ListNotations.
From S2P Require Import Prelude Vector Clip.

Module Assembler.
Import Vector3D Clipper.

(** ** Depth sort *)

(** [(t.p[0].z + t.p[1].z + t.p[2].z) / 3.0f] *)
Definition avg_z (t : triangle) : Q := (z (p0 t) + z (p1 t) + z (p2 t)) / 3.

(** The comparator [z1 > z2] as the "may come first" test of a merge sort:
    [t1] may precede [t2] when [z1 >= z2]. *)
Module DepthOrder <: TotalLeBool.
Definition t := triangle.
Definition leb (t1 t2 : triangle) : bool := Qle_bool (avg_z t2) (avg_z t1).
Lemma leb_total : forall t1 t2, leb t1 t2 = true \/ leb t2 t1 = true.
Proof.
  intros t1 t2. unfold leb. destruct (Qlt_le_dec (avg_z t2) (avg_z t1)) as [Hl|Hl].
  - left. apply Qle_bool_true. lra.
  - right. apply Qle_bool_true. exact Hl.
Qed.
End DepthOrder.

Module DepthSort := Sort DepthOrder.

Definition depth_sort (vecTrianglesToRaster : list triangle) : list triangle :=
  DepthSort.sort vecTrianglesToRaster.

(** ** Screen-edge clipping *)

Section Edges.
Context `{Libm}.
Variables fScreenWidth fScreenHeight : Q.

(** The [switch (p)] of the inner loop: which plane edge [p] clips against.
    [p] only takes the values [0..3] of the enclosing [for]. *)
Definition clip_edge (p : nat) (test : triangle) : option (list triangle) :=
  match p with
  | 0%nat => Triangle_ClipAgainstPlane (vec3 0 0 0) (vec3 0 1 0) test
  | 1%nat => Triangle_ClipAgainstPlane (vec3 0 (fScreenHeight - 1) 0) (vec3 0 (-1) 0) test
  | 2%nat => Triangle_ClipAgainstPlane (vec3 0 0 0) (vec3 1 0 0) test
  | 3%nat => Triangle_ClipAgainstPlane (vec3 (fScreenWidth - 1) 0 0) (vec3 (-1) 0 0) test
  | _ => None
  end.

(** The inner [while (nNewTriangles > 0)]: pop the front triangle, clip it,
    push the pieces at the back.  Popping an empty [std::list] is undefined
    behaviour, modelled by [None]. *)
Fixpoint clip_queue (p : nat) (nNewTriangles : nat) (listTriangles : list triangle)
  : option (list triangle) :=
  match nNewTriangles with
  | O => Some listTriangles
  | S n =>
      match listTriangles with
      | [] => None
      | test :: rest =>
          clipped <- clip_edge p test ;;
          clip_queue p n (rest ++ clipped)
      end
  end.

(** One iteration of [for (int p = 0; p < 4; p++)]: the inner loop, then
    [nNewTriangles = listTriangles.size()]. *)
Definition edge_pass (st : option (nat * list triangle)) (p : nat)
  : option (nat * list triangle) :=
  s <- st ;;
  l <- clip_queue p (fst s) (snd s) ;;
  Some (length l, l).

(** Lines 242-271 for one sorted triangle: the final queue is drawn. *)
Definition screen_clip (triToRaster : triangle) : option (list triangle) :=
  s <- fold_left edge_pass [0; 1; 2; 3]%nat (Some (1%nat, [triToRaster])) ;;
  Some (snd s).

(** The reference: clip every triangle against edge 0, every piece against
    edge 1, and so on. *)
Definition screen_clip_spec (tri : triangle) : option (list triangle) :=
  l0 <- omap_list (clip_edge 0%nat) [tri] ;;
  l1 <- omap_list (clip_edge 1%nat) l0 ;;
  l2 <- omap_list (clip_edge 2%nat) l1 ;;
  omap_list (clip_edge 3%nat) l2.

End Edges.

(** ** The frame *)

Section Frame.
Context `{Libm}.

(** Lines 232-288: sort, then clip each triangle in sorted order; the
    result is the sequence of triangles handed to [window.draw], in order. *)
Definition assemble (fScreenWidth fScreenHeight : Q) (vecTrianglesToRaster : list triangle)
  : option (list triangle) :=
  omap_list (screen_clip fScreenWidth fScreenHeight) (depth_sort vecTrianglesToRaster).

End Frame.

(** ** Predicates on the output *)

Definition all_vertices (P : vector3D -> Prop) (l : list triangle) : Prop :=
  forall t v, In t l -> In v (tri_vertices t) -> P v.

(** [v] is on the kept side of every plane [(point, normal)] of [hs]. *)
Definition in_halfspaces (hs : list (vector3D * vector3D)) (v : vector3D) : Prop :=
  forall q m, In (q, m) hs -> 0 <= dist m q v.

(** The four edge planes of [clip_edge], last one first. *)
Definition screen_halfspaces (W Hh : Q) : list (vector3D * vector3D) :=
  [(vec3 (W - 1) 0 0, vec3 (-1) 0 0); (vec3 0 0 0, vec3 1 0 0);
   (vec3 0 (Hh - 1) 0, vec3 0 (-1) 0); (vec3 0 0 0, vec3 0 1 0)].

Definition on_screen (W Hh : Q) (v : vector3D) : Prop :=
  0 <= x v <= W - 1 /\ 0 <= y v <= Hh - 1.

(** The painter's order: each triangle is at least as deep as the next. *)
Definition depth_sorted (l : list triangle) : Prop :=
  Sorted (fun t1 t2 => avg_z t2 <= avg_z t1) l.

(** ** The queue loop computes the per-edge reference *)

Section QueueLemmas.
Context `{Libm}.
Variables W Hh : Q.

Lemma clip_queue_app p l rest :
  clip_queue W Hh p (length l) (l ++ rest) =
  (r <- omap_list (clip_edge W Hh p) l ;; Some (rest ++ r)).
Proof.
  revert rest. induction l as [|t l IH]; intros rest; simpl; [rewrite app_nil_r; reflexivity|].
  destruct (clip_edge W Hh p t) as [c|]; simpl; [|reflexivity].
  rewrite <- app_assoc, IH.
  destruct (omap_list (clip_edge W Hh p) l) as [r|]; simpl; [|reflexivity].
  rewrite <- app_assoc. reflexivity.
Qed.

Lemma clip_queue_all p l :
  clip_queue W Hh p (length l) l = omap_list (clip_edge W Hh p) l.
Proof.
  rewrite <- (app_nil_r l) at 2. rewrite clip_queue_app.
  destruct (omap_list (clip_edge W Hh p) l); reflexivity.
Qed.

Lemma edge_pass_length p l :
  edge_pass W Hh (Some (length l, l)) p =
  (l' <- omap_list (clip_edge W Hh p) l ;; Some (length l', l')).
Proof. unfold edge_pass. simpl. rewrite clip_queue_all. reflexivity. Qed.

End QueueLemmas.

(** ** Clipping a list against one plane *)

Ltac edges_unfold W Hh :=
  change (clip_edge W Hh 0%nat) with (Triangle_ClipAgainstPlane (vec3 0 0 0) (vec3 0 1 0));
  change (clip_edge W Hh 1%nat)
    with (Triangle_ClipAgainstPlane (vec3 0 (Hh - 1) 0) (vec3 0 (-1) 0));
  change (clip_edge W Hh 2%nat) with (Triangle_ClipAgainstPlane (vec3 0 0 0) (vec3 1 0 0));
  change (clip_edge W Hh 3%nat)
    with (Triangle_ClipAgainstPlane (vec3 (W - 1) 0 0) (vec3 (-1) 0 0)).

Section Passes.
Context `{LibmLaws}.

Lemma omap_clip_step plane_p plane_n hs l :
  all_vertices (in_halfspaces hs) l ->
  exists l', omap_list (Triangle_ClipAgainstPlane plane_p plane_n) l = Some l' /\
    (length l' <= 2 * length l)%nat /\
    all_vertices (in_halfspaces ((plane_p, plane_n) :: hs)) l'.
Proof.
  intros Hl.
  destruct (omap_list_some (Triangle_ClipAgainstPlane plane_p plane_n) l) as [l' Hl'].
  { intros a _. destruct (clip_refines plane_p plane_n a) as (r&Hr&_). eauto. }
  exists l'. split; [exact Hl'|]. split.
  - exact (omap_list_length _ _ _ 2 (fun a ra _ Hra => clip_length _ _ _ _ Hra) Hl').
  - intros t v Ht Hv q m Hqm.
    destruct (omap_list_In _ _ _ _ Hl' Ht) as (a&ra&Ha&Hra&Hta).
    destruct (clip_vertex_halfspaces _ _ _ _ _ _ Hra Hta Hv) as (Hd&Hc&_).
    destruct Hqm as [Hqm|Hqm].
    + injection Hqm as <- <-. exact Hd.
    + apply Hc. intros u Hu. exact (Hl a u Ha Hu q m Hqm).
Qed.

Lemma omap_clip_outside plane_p plane_n m q l l' :
  all_vertices (fun v => dist m q v < 0) l ->
  omap_list (Triangle_ClipAgainstPlane plane_p plane_n) l = Some l' ->
  all_vertices (fun v => dist m q v < 0) l'.
Proof.
  intros Hl Hl' t v Ht Hv.
  destruct (omap_list_In _ _ _ _ Hl' Ht) as (a&ra&Ha&Hra&Hta).
  apply (proj2 (proj2 (clip_vertex_halfspaces _ _ _ _ _ _ Hra Hta Hv))).
  intros u Hu. exact (Hl a u Ha Hu).
Qed.

Lemma omap_clip_all_outside plane_p plane_n l :
  all_vertices (fun v => dist plane_n plane_p v < 0) l ->
  omap_list (Triangle_ClipAgainstPlane plane_p plane_n) l = Some [].
Proof.
  induction l as [|a l IH]; intros Hl; [reflexivity|]. simpl.
  rewrite clip_all_outside by (apply (Hl a); [left; reflexivity | simpl; in_vertex]).
  simpl. rewrite IH; [reflexivity|].
  intros t v Ht Hv. apply (Hl t v (or_intror Ht) Hv).
Qed.

Lemma on_screen_of_halfspaces W Hh v :
  in_halfspaces (screen_halfspaces W Hh) v -> on_screen W Hh v.
Proof.
  intros Hv. unfold in_halfspaces, screen_halfspaces in Hv.
  pose proof (Hv _ _ (or_introl eq_refl)) as E3.
  pose proof (Hv _ _ (or_intror (or_introl eq_refl))) as E2.
  pose proof (Hv _ _ (or_intror (or_intror (or_introl eq_refl)))) as E1.
  pose proof (Hv _ _ (or_intror (or_intror (or_intror (or_introl eq_refl))))) as E0.
  unfold dist, vDotProduct, vec3 in *; simpl in *. unfold on_screen. lra.
Qed.

Lemma screen_clip_spec_eq (W Hh : Q) (tri : triangle) :
  screen_clip W Hh tri = screen_clip_spec W Hh tri.
Proof.
  unfold screen_clip, screen_clip_spec. cbn [fold_left].
  change 1%nat with (length [tri]). rewrite edge_pass_length.
  destruct (omap_list _ [tri]) as [l0|]; cbn [obind]; [|reflexivity].
  rewrite edge_pass_length.
  destruct (omap_list _ l0) as [l1|]; cbn [obind]; [|reflexivity].
  rewrite edge_pass_length.
  destruct (omap_list _ l1) as [l2|]; cbn [obind]; [|reflexivity].
  rewrite edge_pass_length.
  destruct (omap_list _ l2); reflexivity.
Qed.

Lemma screen_clip_bounded (W Hh : Q) (tri : triangle) :
  exists l, screen_clip W Hh tri = Some l /\ (length l <= 16)%nat /\
            all_vertices (on_screen W Hh) l.
Proof.
  rewrite screen_clip_spec_eq. unfold screen_clip_spec. edges_unfold W Hh.
  destruct (omap_clip_step (vec3 0 0 0) (vec3 0 1 0) [] [tri]) as (l0&E0&L0&V0);
    [intros ? ? ? ? ? ? []|].
  destruct (omap_clip_step (vec3 0 (Hh - 1) 0) (vec3 0 (-1) 0) _ l0 V0) as (l1&E1&L1&V1).
  destruct (omap_clip_step (vec3 0 0 0) (vec3 1 0 0) _ l1 V1) as (l2&E2&L2&V2).
  destruct (omap_clip_step (vec3 (W - 1) 0 0) (vec3 (-1) 0 0) _ l2 V2) as (l3&E3&L3&V3).
  rewrite E0; cbn [obind]. rewrite E1; cbn [obind]. rewrite E2; cbn [obind].
  exists l3. split; [exact E3|]. split; [simpl in L0; lia|].
  intros t v Ht Hv. apply on_screen_of_halfspaces. exact (V3 t v Ht Hv).
Qed.

End Passes.

(** ** Properties (claims) *)

Section AssemblerProperties.
Context `{Libm}.

(** C6: equivalence of the queue loop with its reference: popping exactly
    the [nNewTriangles] triangles of the previous edge and pushing the
    pieces at the back clips every triangle against edge 0, every piece
    against edge 1, then edge 2, then edge 3, in order. *)
Theorem screen_clip_equiv (fScreenWidth fScreenHeight : Q) (tri : triangle) :
  screen_clip fScreenWidth fScreenHeight tri = screen_clip_spec fScreenWidth fScreenHeight tri.
Proof. exact (screen_clip_spec_eq fScreenWidth fScreenHeight tri). Qed.

End AssemblerProperties.

Section AssemblerSafety.
Context `{LibmLaws}.

(** C3: safety of the screen-edge pass: for any screen size, the final
    queue of each triangle holds at most 16 triangles (each edge at most
    doubles the queue) and every vertex of every triangle drawn lies in the
    rectangle [0 <= x <= width - 1], [0 <= y <= height - 1]. *)
Theorem screen_clip_on_screen (fScreenWidth fScreenHeight : Q) (tri : triangle) :
  exists l, screen_clip fScreenWidth fScreenHeight tri = Some l /\ (length l <= 16)%nat /\
            all_vertices (on_screen fScreenWidth fScreenHeight) l.
Proof. exact (screen_clip_bounded fScreenWidth fScreenHeight tri). Qed.

(** C33: a triangle inside the screen rectangle is drawn unchanged, as the
    only triangle of its queue. *)
Theorem screen_clip_inside (fScreenWidth fScreenHeight : Q) (tri : triangle) :
  (forall v, In v (tri_vertices tri) -> on_screen fScreenWidth fScreenHeight v) ->
  screen_clip fScreenWidth fScreenHeight tri = Some [tri].
Proof.
  intros Hin. rewrite screen_clip_spec_eq. unfold screen_clip_spec.
  edges_unfold fScreenWidth fScreenHeight.
  assert (V0 := Hin _ (or_introl eq_refl)).
  assert (V1 := Hin _ (or_intror (or_introl eq_refl))).
  assert (V2 := Hin _ (or_intror (or_intror (or_introl eq_refl)))).
  unfold on_screen in *.
  repeat (cbn [obind omap_list app];
          rewrite clip_all_inside by (unfold dist, vDotProduct, vec3; simpl; lra)).
  reflexivity.
Qed.

(** C34: a triangle entirely left of the screen ([x < 0] at its three
    vertices) is not drawn at all, whatever the top and bottom edges did
    to it first. *)
Theorem screen_clip_left_outside (fScreenWidth fScreenHeight : Q) (tri : triangle) :
  (forall v, In v (tri_vertices tri) -> x v < 0) ->
  screen_clip fScreenWidth fScreenHeight tri = Some [].
Proof.
  intros Hout. rewrite screen_clip_spec_eq. unfold screen_clip_spec.
  edges_unfold fScreenWidth fScreenHeight.
  assert (Hl : all_vertices (fun v => dist (vec3 1 0 0) (vec3 0 0 0) v < 0) [tri]).
  { intros t v [<-|[]] Hv. specialize (Hout v Hv).
    unfold dist, vDotProduct, vec3; simpl. lra. }
  destruct (omap_clip_step (vec3 0 0 0) (vec3 0 1 0) [] [tri]) as (l0&E0&_&_);
    [intros ? ? ? ? ? ? []|].
  pose proof (omap_clip_outside _ _ _ _ _ _ Hl E0) as Hl0.
  destruct (omap_clip_step (vec3 0 (fScreenHeight - 1) 0) (vec3 0 (-1) 0) [] l0)
    as (l1&E1&_&_); [intros ? ? ? ? ? ? []|].
  pose proof (omap_clip_outside _ _ _ _ _ _ Hl0 E1) as Hl1.
  rewrite E0; cbn [obind]. rewrite E1; cbn [obind].
  rewrite (omap_clip_all_outside _ _ _ Hl1). reflexivity.
Qed.

End AssemblerSafety.

Lemma depth_sort_spec (l : list triangle) :
  Permutation l (depth_sort l) /\ depth_sorted (depth_sort l).
Proof.
  split; [apply DepthSort.Permuted_sort|].
  apply (Sorted_weaken _ _ _ (fun a b Hab => proj1 (Qle_bool_true _ _) Hab)).
  apply DepthSort.Sorted_sort.
Qed.

Section FrameSafety.
Context `{LibmLaws}.

Lemma assemble_spec (fScreenWidth fScreenHeight : Q) (vecTrianglesToRaster : list triangle) :
  exists out, assemble fScreenWidth fScreenHeight vecTrianglesToRaster = Some out /\
    all_vertices (on_screen fScreenWidth fScreenHeight) out /\
    (length out <= 16 * length vecTrianglesToRaster)%nat /\
    exists sorted, Permutation vecTrianglesToRaster sorted /\ depth_sorted sorted /\
      omap_list (screen_clip fScreenWidth fScreenHeight) sorted = Some out.
Proof.
  unfold assemble. destruct (depth_sort_spec vecTrianglesToRaster) as [Hp Hs].
  destruct (omap_list_some (screen_clip fScreenWidth fScreenHeight)
              (depth_sort vecTrianglesToRaster)) as [out Hout].
  { intros a _. destruct (screen_clip_bounded fScreenWidth fScreenHeight a) as (l&Hl&_). eauto. }
  exists out. split; [exact Hout|]. split; [|split].
  - intros t v Ht Hv. destruct (omap_list_In _ _ _ _ Hout Ht) as (a&ra&_&Hra&Hta).
    destruct (screen_clip_bounded fScreenWidth fScreenHeight a) as (l&Hl&_&Hb).
    rewrite Hra in Hl. injection Hl as <-. exact (Hb t v Hta Hv).
  - rewrite (Permutation_length Hp).
    apply (omap_list_length (screen_clip fScreenWidth fScreenHeight) _ _ 16); [|exact Hout].
    intros a ra _ Hra. destruct (screen_clip_bounded fScreenWidth fScreenHeight a) as (l&Hl&Hn&_).
    rewrite Hra in Hl. injection Hl as <-. exact Hn.
  - exists (depth_sort vecTrianglesToRaster). auto.
Qed.

(** C5: the frame assembler draws, in order, the screen-clipped pieces of a
    depth-sorted permutation of the candidate triangles; every vertex drawn
    is on screen and at most 16 triangles are drawn per candidate. *)
Theorem assemble_correct (fScreenWidth fScreenHeight : Q) (vecTrianglesToRaster : list triangle) :
  exists out, assemble fScreenWidth fScreenHeight vecTrianglesToRaster = Some out /\
    all_vertices (on_screen fScreenWidth fScreenHeight) out /\
    (length out <= 16 * length vecTrianglesToRaster)%nat /\
    exists sorted, Permutation vecTrianglesToRaster sorted /\ depth_sorted sorted /\
      omap_list (screen_clip fScreenWidth fScreenHeight) sorted = Some out.
Proof. exact (assemble_spec fScreenWidth fScreenHeight vecTrianglesToRaster). Qed.

End FrameSafety.

(** C24: the depth sort returns a permutation of the candidate triangles in
    painter's order: every triangle's average depth is at least the next
    one's (the contract of [std::sort] with the comparator [z1 > z2]). *)
Theorem depth_sort_sorted_permutation (vecTrianglesToRaster : list triangle) :
  Permutation vecTrianglesToRaster (depth_sort vecTrianglesToRaster) /\
  depth_sorted (depth_sort vecTrianglesToRaster).
Proof. exact (depth_sort_spec vecTrianglesToRaster). Qed.

(** ** Witnesses, on an 800 x 600 screen *)

Abbreviation tri_at k :=
  (mkTri (vec3 0 0 k) (vec3 1 0 k) (vec3 0 1 k) color_default) (only parsing).

(** The example of the specification: average depths [1, 5, 3] are drawn in
    the order [5, 3, 1]. *)
Example depth_sort_example : depth_sort [tri_at 1; tri_at 5; tri_at 3] = [tri_at 5; tri_at 3; tri_at 1].
Proof. vm_compute. reflexivity. Qed.

Lemma screen_clip_on_screen_witness :
  exists l, screen_clip 800 600 (tri_at 1) = Some l /\ (length l <= 16)%nat /\
            all_vertices (on_screen 800 600) l.
Proof. apply screen_clip_on_screen. Defined.

Lemma screen_clip_inside_witness :
  (forall v, In v (tri_vertices (tri_at 1)) -> on_screen 800 600 v) /\
  screen_clip 800 600 (tri_at 1) = Some [tri_at 1].
Proof.
  assert (Hin : forall v, In v (tri_vertices (tri_at 1)) -> on_screen 800 600 v).
  { intros v Hv. simpl in Hv. unfold on_screen.
    repeat destruct Hv as [<-|Hv]; [..|contradiction]; simpl; repeat split; qdecide. }
  split; [exact Hin|]. apply screen_clip_inside. exact Hin.
Defined.

Lemma screen_clip_left_outside_witness :
  (forall v, In v (tri_vertices (mkTri (vec3 (-1) 0 1) (vec3 (-2) 0 1) (vec3 (-1) 1 1)
                                       color_default)) -> x v < 0) /\
  screen_clip 800 600 (mkTri (vec3 (-1) 0 1) (vec3 (-2) 0 1) (vec3 (-1) 1 1) color_default)
  = Some [].
Proof.
  assert (Hin : forall v, In v (tri_vertices (mkTri (vec3 (-1) 0 1) (vec3 (-2) 0 1)
                                   (vec3 (-1) 1 1) color_default)) -> x v < 0).
  { intros v Hv. simpl in Hv. repeat destruct Hv as [<-|Hv]; [..|contradiction]; qdecide. }
  split; [exact Hin|]. apply screen_clip_left_outside. exact Hin.
Defined.

Lemma assemble_correct_witness :
  exists out, assemble 800 600 [tri_at 1; tri_at 5] = Some out /\
    all_vertices (on_screen 800 600) out /\ (length out <= 16 * 2)%nat /\
    exists sorted, Permutation [tri_at 1; tri_at 5] sorted /\ depth_sorted sorted /\
      omap_list (screen_clip 800 600) sorted = Some out.
Proof. apply assemble_correct. Defined.

End Assembler.
