(* ===== verification/Pipeline.v ===== *)
(** * The per-triangle stage and the frame (src/main.cpp lines 143-289)

    [Module Render] models the body of [for (auto tri : meshObj.tris)]
    (lines 148-230) as [transform_triangle]: world transform, normal and
    back-face test, flat lighting with the [sf::Uint8] conversions and the
    clamp, view transform, near-plane clip, then for each clipped piece
    projection, perspective divide, offset and scaling to pixels
    ([project_triangle], lines 203-228).  [render_frame] runs it over the
    mesh in order and hands the candidates to the assembler.

    The matrices, the camera position and the screen size are the frame's
    inputs, computed by the input handling of the frame loop (not modelled
    here).  A float converted to [sf::Uint8] is truncated; when the
    truncated value is outside [[0,255]] the conversion is undefined in
    C++, which the model writes as the wrap-around of common targets; the
    theorems show where that case can arise. *)

From Stdlib Require Import QArith Qround Qabs Lqa Setoid Morphisms List Lia ZArith.
Import ListNotations.
From S2P Require Import Prelude Vector Matrix Clip Screen.

Module Render.
Import Vector3D Mat4 Clipper Assembler.

(** [(sf::Uint8)f]: truncation, then the low 8 bits. *)
Definition uint8_of_float (f : Q) : Z := Z.modulo (Qtrunc f) 256.

(** [clr.r = (sf::Uint8)(iRcomp * dp); if (iRcomp * dp > 255) clr.r = 255;] *)
Definition channel (iComp : Z) (dp : Q) : Z :=
  let c := uint8_of_float (inject_Z iComp * dp) in
  if Qltb 255 (inject_Z iComp * dp) then 255 else c.

(** [std::max(0.1f, d)] is [(0.1f < d) ? d : 0.1f]. *)
Definition std_max (a b : Q) : Q := if Qltb a b then b else a.

Section Stage.
Context `{Libm}.

(** The world-space normal of lines 157-165. *)
Definition face_normal (t0 t1 t2 : vector3D) : vector3D :=
  let line1 := vsub t1 t0 in
  let line2 := vsub t2 t0 in
  vNormalise (vCrossProduct line1 line2).

(** Lines 170-191: the intensity and the colour of the viewed triangle. *)
Definition shade (normal : vector3D) (src : color) : color :=
  let light_direction := vNormalise (vec3 0 (1#2) (-1)) in
  let dp := std_max (1#10) (vDotProduct light_direction normal) in
  mkColor (channel 150 dp) (channel 0 dp) (channel 150 dp) (a src).

(** Lines 206-225 for one vertex: project, divide x, y, z by [w] (the
    divide keeps [w]), add [(1,1,0)], scale to the screen. *)
Definition project_vertex (matProj : mat4x4) (fScreenWidth fScreenHeight : Q)
  (v : vector3D) : vector3D :=
  let q := vectorMatrixProduct v matProj in
  let q := vdiv q (w q) in
  let q := vadd q (vec3 1 1 0) in
  mkV (x q * ((1#2) * fScreenWidth)) (y q * ((1#2) * fScreenHeight)) (z q) (w q).

Definition project_triangle (matProj : mat4x4) (fScreenWidth fScreenHeight : Q)
  (c : triangle) : triangle :=
  mkTri (project_vertex matProj fScreenWidth fScreenHeight (p0 c))
        (project_vertex matProj fScreenWidth fScreenHeight (p1 c))
        (project_vertex matProj fScreenWidth fScreenHeight (p2 c)) (clr c).

(** Lines 153-201: world transform, back-face test, lighting, view
    transform and near clip; [None] only if the clipper's undefined
    fall-through were reached. *)
Definition view_and_clip (matWorld matView : mat4x4) (vCamera : vector3D) (tri : triangle)
  : option (list triangle) :=
  let t0 := vectorMatrixProduct (p0 tri) matWorld in
  let t1 := vectorMatrixProduct (p1 tri) matWorld in
  let t2 := vectorMatrixProduct (p2 tri) matWorld in
  let normal := face_normal t0 t1 t2 in
  let vCameraRay := vsub t0 vCamera in
  if Qltb (vDotProduct normal vCameraRay) 0 then
    let triViewed := mkTri (vectorMatrixProduct t0 matView) (vectorMatrixProduct t1 matView)
                           (vectorMatrixProduct t2 matView) (shade normal (clr tri)) in
    Triangle_ClipAgainstPlane (vec3 0 0 (1#10)) (vec3 0 0 1) triViewed
  else Some [].

Definition transform_triangle (matWorld matView matProj : mat4x4) (vCamera : vector3D)
  (fScreenWidth fScreenHeight : Q) (tri : triangle) : option (list triangle) :=
  clipped <- view_and_clip matWorld matView vCamera tri ;;
  Some (map (project_triangle matProj fScreenWidth fScreenHeight) clipped).

(** Lines 145-289: the candidates of all mesh triangles, in mesh order, then
    the assembler; the result is what [window.draw] receives, in order. *)
Definition render_frame (matWorld matView matProj : mat4x4) (vCamera : vector3D)
  (fScreenWidth fScreenHeight : Q) (tris : list triangle) : option (list triangle) :=
  vecTrianglesToRaster <-
    omap_list (transform_triangle matWorld matView matProj vCamera fScreenWidth fScreenHeight)
              tris ;;
  assemble fScreenWidth fScreenHeight vecTrianglesToRaster.

End Stage.

(** ** Colour channels *)

Lemma channel_range (iComp : Z) (dp : Q) :
  (0 <= iComp)%Z -> 0 <= dp -> (0 <= channel iComp dp <= 255)%Z.
Proof.
  intros Hc Hd. unfold channel. qcase; [lia|].
  assert (0 <= inject_Z iComp * dp) by (apply Qmult_le_0_compat; [|exact Hd];
    change 0 with (inject_Z 0); rewrite <- Zle_Qle; exact Hc).
  unfold uint8_of_float. pose proof (Z.mod_pos_bound (Qtrunc (inject_Z iComp * dp)) 256). lia.
Qed.

Lemma channel_150 (dp : Q) :
  (1#10) <= dp -> (15 <= channel 150 dp <= 255)%Z.
Proof.
  intros Hd. unfold channel. change (inject_Z 150) with 150. qcase; [lia|].
  pose proof (Qtrunc_le (150 * dp) 255 ltac:(lra) ltac:(change (inject_Z 255) with 255; lra))
    as Th.
  assert (Tl : (15 <= Qtrunc (150 * dp))%Z).
  { destruct (Qtrunc_range (150 * dp) ltac:(lra)) as [_ T].
    assert (T' : inject_Z 15 < inject_Z (Qtrunc (150 * dp) + 1))
      by (rewrite inject_Z_plus; change (inject_Z 15) with 15; change (inject_Z 1) with 1; lra).
    rewrite <- Zlt_Qlt in T'. lia. }
  unfold uint8_of_float. rewrite Z.mod_small by lia. lia.
Qed.

Lemma channel_0 (dp : Q) : channel 0 dp = 0%Z.
Proof.
  unfold channel. setoid_replace (inject_Z 0 * dp) with 0 by (unfold inject_Z; ring).
  reflexivity.
Qed.

Lemma channel_exact (dp : Q) :
  (1#10) <= dp <= 1 -> channel 150 dp = Qtrunc (150 * dp) /\ (15 <= channel 150 dp <= 150)%Z.
Proof.
  intros [Hl Hh]. unfold channel. change (inject_Z 150) with 150.
  rewrite (proj2 (Qltb_false _ _)) by lra.
  pose proof (Qtrunc_le (150 * dp) 150 ltac:(lra) ltac:(change (inject_Z 150) with 150; lra))
    as Th.
  assert (Tl : (15 <= Qtrunc (150 * dp))%Z).
  { destruct (Qtrunc_range (150 * dp) ltac:(lra)) as [_ T].
    assert (T' : inject_Z 15 < inject_Z (Qtrunc (150 * dp) + 1))
      by (rewrite inject_Z_plus; change (inject_Z 15) with 15; change (inject_Z 1) with 1; lra).
    rewrite <- Zlt_Qlt in T'. lia. }
  unfold uint8_of_float. rewrite Z.mod_small by lia. split; [reflexivity|lia].
Qed.

Lemma std_max_ge (a b : Q) : a <= std_max a b.
Proof. unfold std_max. qcase; lra. Qed.

Lemma std_max_le (a b c : Q) : a <= c -> b <= c -> std_max a b <= c.
Proof. unfold std_max. qcase; lra. Qed.

(** ** The back-face test *)

Section Normals.
Context `{LibmLaws}.

(** Swapping the last two vertices negates the normal's dot products. *)
Lemma face_normal_swap t0 t1 t2 r :
  vDotProduct (face_normal t0 t2 t1) r == - vDotProduct (face_normal t0 t1 t2) r.
Proof.
  unfold face_normal, vNormalise, vLength.
  rewrite !vDot_div_l.
  set (c := vCrossProduct (vsub t1 t0) (vsub t2 t0)).
  set (c' := vCrossProduct (vsub t2 t0) (vsub t1 t0)).
  assert (E : vDotProduct c' c' == vDotProduct c c) by (unfold c, c', vDotProduct; simpl; ring).
  rewrite E. assert (E' : vDotProduct c' r == - vDotProduct c r)
    by (unfold c, c', vDotProduct; simpl; ring).
  rewrite E'. unfold Qdiv. ring.
Qed.

End Normals.

(** ** The near clip *)

Section NearClip.
Context `{LibmLaws}.

Lemma view_and_clip_total matWorld matView vCamera tri :
  exists l, view_and_clip matWorld matView vCamera tri = Some l.
Proof.
  unfold view_and_clip. destruct (Qltb _ 0); [|eauto].
  destruct (clip_refines (vec3 0 0 (1#10)) (vec3 0 0 1)
    (mkTri (vectorMatrixProduct (vectorMatrixProduct (p0 tri) matWorld) matView)
           (vectorMatrixProduct (vectorMatrixProduct (p1 tri) matWorld) matView)
           (vectorMatrixProduct (vectorMatrixProduct (p2 tri) matWorld) matView)
           (shade (face_normal (vectorMatrixProduct (p0 tri) matWorld)
                               (vectorMatrixProduct (p1 tri) matWorld)
                               (vectorMatrixProduct (p2 tri) matWorld)) (clr tri))))
    as (l&Hl&_).
  eauto.
Qed.

(** Every vertex that leaves the near clip is at view depth [>= 0.1], and
    every triangle carries the shaded colour. *)
Lemma view_and_clip_out matWorld matView vCamera tri l t :
  view_and_clip matWorld matView vCamera tri = Some l -> In t l ->
  (forall v, In v (tri_vertices t) -> (1#10) <= z v) /\
  exists d, (1#10) <= d /\ clr t = mkColor (channel 150 d) (channel 0 d) (channel 150 d) (a (clr tri)).
Proof.
  unfold view_and_clip. destruct (Qltb _ 0); [|intros Hl; injection Hl as <-; contradiction].
  intros Hl Ht. split.
  - intros v Hv. pose proof (proj1 (clip_vertex_halfspaces _ _ _ _ _ _ Hl Ht Hv)) as Hd.
    unfold dist, vDotProduct, vec3 in Hd; simpl in Hd. lra.
  - destruct (clip_vertex _ _ _ _ _ (p0 t) Hl Ht (or_introl eq_refl)) as [Hc _].
    rewrite Hc. unfold shade. eexists. split; [apply std_max_ge|reflexivity].
Qed.

End NearClip.

(** ** Properties of the stage (claims) *)

Section StageProperties.
Context `{LibmLaws}.

(** C4: safety of the perspective divide: every triangle the near clip
    passes on has all its vertices at view depth [>= 0.1], so for any
    projection built by [mProject] the [w] the vertex is divided by
    (lines 211-213) is at least [0.1]; the divide is never by zero. *)
Theorem view_and_clip_divide_safe (matWorld matView : mat4x4) (vCamera : vector3D)
  (tri : triangle) (fFovDegrees fAspectRatio fNear fFar : Q) :
  exists l, view_and_clip matWorld matView vCamera tri = Some l /\
    forall t v, In t l -> In v (tri_vertices t) ->
      (1#10) <= w (vectorMatrixProduct v (mProject fFovDegrees fAspectRatio fNear fFar)).
Proof.
  destruct (view_and_clip_total matWorld matView vCamera tri) as [l Hl].
  exists l. split; [exact Hl|]. intros t v Ht Hv.
  rewrite vectorMatrixProduct_mProject. cbv zeta; simpl.
  exact (proj1 (view_and_clip_out _ _ _ _ _ _ Hl Ht) v Hv).
Qed.

(** C25: the back-face test: a triangle whose world-space normal does not
    point against the camera ray ([dot >= 0]) produces no candidate. *)
Theorem transform_triangle_backface (matWorld matView matProj : mat4x4) (vCamera : vector3D)
  (fScreenWidth fScreenHeight : Q) (tri : triangle) :
  0 <= vDotProduct (face_normal (vectorMatrixProduct (p0 tri) matWorld)
                                (vectorMatrixProduct (p1 tri) matWorld)
                                (vectorMatrixProduct (p2 tri) matWorld))
                   (vsub (vectorMatrixProduct (p0 tri) matWorld) vCamera) ->
  transform_triangle matWorld matView matProj vCamera fScreenWidth fScreenHeight tri = Some [].
Proof.
  intros Hd. unfold transform_triangle, view_and_clip. cbv zeta.
  rewrite (proj2 (Qltb_false _ _) Hd). reflexivity.
Qed.

(** C26: reversing the winding of a triangle that is drawn makes it culled:
    if [p0 p1 p2] passes the back-face test, [p0 p2 p1] produces no
    candidate. *)
Theorem transform_triangle_reversed (matWorld matView matProj : mat4x4) (vCamera : vector3D)
  (fScreenWidth fScreenHeight : Q) (tri : triangle) :
  vDotProduct (face_normal (vectorMatrixProduct (p0 tri) matWorld)
                           (vectorMatrixProduct (p1 tri) matWorld)
                           (vectorMatrixProduct (p2 tri) matWorld))
              (vsub (vectorMatrixProduct (p0 tri) matWorld) vCamera) < 0 ->
  transform_triangle matWorld matView matProj vCamera fScreenWidth fScreenHeight
    (mkTri (p0 tri) (p2 tri) (p1 tri) (clr tri)) = Some [].
Proof.
  intros Hd. unfold transform_triangle, view_and_clip. cbv zeta. simpl p0; simpl p1; simpl p2.
  rewrite face_normal_swap.
  rewrite (proj2 (Qltb_false _ _)) by lra. reflexivity.
Qed.

(** C28: colour of every candidate: red and blue in [[15, 255]], green [0],
    alpha copied from the mesh triangle; the intensity is at least [0.1]. *)
Theorem transform_triangle_colour (matWorld matView matProj : mat4x4) (vCamera : vector3D)
  (fScreenWidth fScreenHeight : Q) (tri : triangle) :
  exists l, transform_triangle matWorld matView matProj vCamera fScreenWidth fScreenHeight tri
            = Some l /\
    forall t, In t l ->
      (15 <= r (clr t) <= 255)%Z /\ g (clr t) = 0%Z /\ (15 <= b (clr t) <= 255)%Z /\
      a (clr t) = a (clr tri).
Proof.
  destruct (view_and_clip_total matWorld matView vCamera tri) as [l Hl].
  unfold transform_triangle. rewrite Hl. cbn [obind].
  eexists. split; [reflexivity|]. intros t Ht.
  apply in_map_iff in Ht. destruct Ht as (c&<-&Hc).
  destruct (view_and_clip_out _ _ _ _ _ _ Hl Hc) as (_&d&Hdp&Hclr).
  unfold project_triangle; simpl. rewrite Hclr; simpl.
  split; [apply channel_150, Hdp|]. split; [apply channel_0|].
  split; [apply channel_150, Hdp|reflexivity].
Qed.

(** The frame is computed without undefined behaviour and draws on screen. *)
Lemma render_frame_spec (matWorld matView matProj : mat4x4) (vCamera : vector3D)
  (fScreenWidth fScreenHeight : Q) (tris : list triangle) :
  exists out,
    render_frame matWorld matView matProj vCamera fScreenWidth fScreenHeight tris = Some out /\
    all_vertices (on_screen fScreenWidth fScreenHeight) out.
Proof.
  unfold render_frame.
  destruct (omap_list_some (transform_triangle matWorld matView matProj vCamera
                              fScreenWidth fScreenHeight) tris) as [cands Hc].
  { intros a _. destruct (view_and_clip_total matWorld matView vCamera a) as [l Hl].
    unfold transform_triangle. rewrite Hl. cbn [obind]. eauto. }
  rewrite Hc. cbn [obind].
  destruct (assemble_spec fScreenWidth fScreenHeight cands) as (out&Hout&Hb&_).
  exists out. auto.
Qed.

(** C27: end to end, for any world and view matrices, camera and screen
    size, with the projection built by [mProject]: the frame is computed
    without undefined behaviour, and every vertex handed to [window.draw]
    is in the screen rectangle.  The projection's parameters are those for
    which the source computes no infinity or NaN: [tanf] of half the field
    of view is non-zero and [far <> near]; the near clip then makes every
    perspective divide one by [w >= 0.1] (C4). *)
Theorem render_frame_on_screen (matWorld matView : mat4x4) (vCamera : vector3D)
  (fFovDegrees fAspectRatio fNear fFar : Q) (fScreenWidth fScreenHeight : Q)
  (tris : list triangle) :
  ~ tanf (fFovDegrees * (1#2) / 180 * (314159 # 100000)) == 0 -> ~ fFar - fNear == 0 ->
  exists out,
    render_frame matWorld matView (mProject fFovDegrees fAspectRatio fNear fFar) vCamera
                 fScreenWidth fScreenHeight tris = Some out /\
    all_vertices (on_screen fScreenWidth fScreenHeight) out.
Proof.
  intros _ _.
  exact (render_frame_spec matWorld matView (mProject fFovDegrees fAspectRatio fNear fFar) vCamera
                           fScreenWidth fScreenHeight tris).
Qed.

End StageProperties.

(** C29: the clamp never fires while the intensity is at most 1 (true when
    the light and the normal have norm at most 1): red and blue are the
    truncation of [150 * dp], in [[15, 150]], and the float-to-[Uint8]
    conversion, which comes before the clamp in the source, is in range. *)
Theorem shade_no_clamp `{Libm} (normal : vector3D) (src : color) :
  vDotProduct (vNormalise (vec3 0 (1#2) (-1))) normal <= 1 ->
  let dp := std_max (1#10) (vDotProduct (vNormalise (vec3 0 (1#2) (-1))) normal) in
  r (shade normal src) = Qtrunc (150 * dp) /\ (15 <= r (shade normal src) <= 150)%Z /\
  b (shade normal src) = r (shade normal src) /\ g (shade normal src) = 0%Z.
Proof.
  intros Hd dp.
  assert (Hdp : (1#10) <= dp <= 1) by (split; [apply std_max_ge|apply std_max_le; lra]).
  destruct (channel_exact dp Hdp) as [E R].
  unfold shade; simpl. fold dp. rewrite E in *.
  split; [reflexivity|]. split; [exact R|]. split; [reflexivity|apply channel_0].
Qed.

(** C35: the screen mapping sends the view axis to the centre of the
    screen: a view-space point with [x = y = 0] and a non-zero depth (the
    divide is by [w = z]) is drawn at [(width / 2, height / 2)], for every
    projection whose [tanf] term is non-zero (where the source computes no
    [0 * inf]). *)
Theorem project_vertex_centre `{Libm} (fFovDegrees fAspectRatio fNear fFar : Q)
  (fScreenWidth fScreenHeight : Q) (v : vector3D) :
  ~ tanf (fFovDegrees * (1#2) / 180 * (314159 # 100000)) == 0 -> ~ z v == 0 ->
  x v == 0 -> y v == 0 ->
  let q := project_vertex (mProject fFovDegrees fAspectRatio fNear fFar)
                          fScreenWidth fScreenHeight v in
  x q == fScreenWidth / 2 /\ y q == fScreenHeight / 2.
Proof.
  intros _ _ Hx Hy q. unfold q, project_vertex, vectorMatrixProduct, mProject. simpl.
  rewrite Hx, Hy. unfold Qdiv. change (/ 2) with (1#2). split; ring.
Qed.

(** ** The scene of the specification, and witnesses *)

(** The camera of the frame loop at the origin looking down [+z]
    (main.cpp lines 70-84, 124-127 with zero yaw and pitch), the world
    matrix [mIdentity * mTranslate 0 0 8], the projection of line 47. *)
Abbreviation demo_view :=
  (mQuickInverse (mPointAt (vec3 0 0 0) (vec3 0 0 1) (vec3 0 1 0))) (only parsing).
Abbreviation demo_world := (mat_mul mIdentity (mTranslate 0 0 8)) (only parsing).
Abbreviation demo_proj := (mProject 90 (600 / 800) (1#10) 1000) (only parsing).
Abbreviation tri_front :=
  (mkTri (vec3 (-1) (-1) 0) (vec3 0 1 0) (vec3 1 (-1) 0) color_default) (only parsing).
Abbreviation tri_back :=
  (mkTri (vec3 (-1) (-1) 0) (vec3 1 (-1) 0) (vec3 0 1 0) color_default) (only parsing).


Lemma view_and_clip_divide_safe_witness :
  exists l, view_and_clip demo_world demo_view (vec3 0 0 0) tri_front = Some l /\
    forall t v, In t l -> In v (tri_vertices t) ->
      (1#10) <= w (vectorMatrixProduct v (mProject 90 (3#4) (1#10) 1000)).
Proof. apply view_and_clip_divide_safe. Defined.

Lemma transform_triangle_backface_witness :
  0 <= vDotProduct (face_normal (vectorMatrixProduct (p0 tri_back) demo_world)
                                (vectorMatrixProduct (p1 tri_back) demo_world)
                                (vectorMatrixProduct (p2 tri_back) demo_world))
                   (vsub (vectorMatrixProduct (p0 tri_back) demo_world) (vec3 0 0 0)) /\
  transform_triangle demo_world demo_view demo_proj (vec3 0 0 0) 800 600 tri_back = Some [].
Proof.
  split; [qdecide|]. apply transform_triangle_backface. qdecide.
Defined.

Lemma transform_triangle_reversed_witness :
  vDotProduct (face_normal (vectorMatrixProduct (p0 tri_front) demo_world)
                           (vectorMatrixProduct (p1 tri_front) demo_world)
                           (vectorMatrixProduct (p2 tri_front) demo_world))
              (vsub (vectorMatrixProduct (p0 tri_front) demo_world) (vec3 0 0 0)) < 0 /\
  transform_triangle demo_world demo_view demo_proj (vec3 0 0 0) 800 600
    (mkTri (p0 tri_front) (p2 tri_front) (p1 tri_front) (clr tri_front)) = Some [].
Proof.
  split; [qdecide|]. apply transform_triangle_reversed. qdecide.
Defined.

Lemma transform_triangle_colour_witness :
  exists l, transform_triangle demo_world demo_view demo_proj (vec3 0 0 0) 800 600 tri_front
            = Some l /\
    forall t, In t l ->
      (15 <= r (clr t) <= 255)%Z /\ g (clr t) = 0%Z /\ (15 <= b (clr t) <= 255)%Z /\
      a (clr t) = a (clr tri_front).
Proof. apply transform_triangle_colour. Defined.

Lemma project_vertex_centre_witness :
  (~ tanf (90 * (1#2) / 180 * (314159 # 100000)) == 0 /\ ~ z (vec3 0 0 5) == 0 /\
   x (vec3 0 0 5) == 0 /\ y (vec3 0 0 5) == 0) /\
  let q := project_vertex (mProject 90 (3#4) (1#10) 1000) 800 600 (vec3 0 0 5) in
  x q == 800 / 2 /\ y q == 600 / 2.
Proof.
  split; [repeat split; qdecide|]. apply project_vertex_centre; qdecide.
Defined.

Lemma shade_no_clamp_witness :
  vDotProduct (vNormalise (vec3 0 (1#2) (-1))) (vec3 0 0 (-1)) <= 1 /\
  let dp := std_max (1#10) (vDotProduct (vNormalise (vec3 0 (1#2) (-1))) (vec3 0 0 (-1))) in
  r (shade (vec3 0 0 (-1)) color_default) = Qtrunc (150 * dp) /\
  (15 <= r (shade (vec3 0 0 (-1)) color_default) <= 150)%Z /\
  b (shade (vec3 0 0 (-1)) color_default) = r (shade (vec3 0 0 (-1)) color_default) /\
  g (shade (vec3 0 0 (-1)) color_default) = 0%Z.
Proof.
  split; [qdecide|]. apply shade_no_clamp. qdecide.
Defined.

Lemma render_frame_on_screen_witness :
  (~ tanf (90 * (1#2) / 180 * (314159 # 100000)) == 0 /\ ~ 1000 - (1#10) == 0) /\
  exists out,
    render_frame demo_world demo_view demo_proj (vec3 0 0 0) 800 600 [tri_front; tri_back] = Some out /\
    all_vertices (on_screen 800 600) out.
Proof. split; [split; qdecide|]. apply render_frame_on_screen; qdecide. Defined.

End Render.
