(* ===== verification/Frame.v ===== *)
(** * The frame loop of src/main.cpp (lines 14-139 and the loop around
      the pipeline, lines 55-289)

    [Module MainLoop] models the state the loop carries from one frame to
    the next ([loop_state]: the camera position [vCamera], [fYaw],
    [fPitch], the screen size, [matProj] and whether the window is open),
    and one iteration of [while (window.isOpen())] as a function of the
    frame's inputs ([frame_input]: the seconds since the last frame, the
    keys held, the mouse position and the queued window events):
    - [camera_directions]: the look and right directions (lines 70-82);
    - [move_camera]: the arrow keys and WASD (lines 84-115);
    - [mouse_update]: yaw and pitch from the mouse (lines 117-122);
    - [frame_camera]: [mPointAt] on the moved camera and the target
      computed before the move (lines 80-124);
    - [handle_event]: [Closed] and [Resized] (lines 131-138), and
      [handle_events], the [pollEvent] loop, which stops once the window
      is closed (lines 129-139);
    - [frame_step]: the whole iteration, ending with the pipeline of
      [Pipeline] on the state after the events;
    - [main_loop]: the loop over a finite sequence of frames, and
      [reachable], the states the loop can be in, as a step relation.
    [sf::Keyboard], [sf::Mouse], [sf::Clock] and [window.pollEvent] are
    the inputs of a frame; drawing is its output. *)

From Stdlib Require Import QArith Lqa Setoid Morphisms List Lia ZArith.
Import ListNotations.
From S2P Require Import Prelude Vector Matrix Clip Screen Pipeline.

Module MainLoop.
Import Vector3D Mat4 Clipper Assembler Render.

(** The keys the loop polls with [sf::Keyboard::isKeyPressed]. *)
Record keys := mkKeys {
  kUp : bool; kDown : bool; kLeft : bool; kRight : bool;
  kW : bool; kS : bool; kA : bool; kD : bool
}.

(** The events the loop handles; every other [sf::Event] is ignored. *)
Inductive event :=
  | Closed
  | Resized (width height : N)   (** [event.size]: two [unsigned int]s *)
  | OtherEvent.

Record frame_input := mkInput {
  elapsed : Q;            (** [clock.restart().asSeconds()] *)
  pressed : keys;
  mouse : Z * Z;          (** [sf::Mouse::getPosition(window)] *)
  events : list event     (** what [window.pollEvent] returns, in order *)
}.

Record loop_state := mkState {
  vCamera : vector3D;
  fYaw : Q;
  fPitch : Q;
  fScreenWidth : Q;
  fScreenHeight : Q;
  matProj : mat4x4;
  window_open : bool
}.

Section WithLibm.
Context `{Libm}.

(** Lines 20-47: an 800 x 600 window, the camera at the origin, yaw and
    pitch [0], and the projection for that aspect ratio. *)
Definition initial_state : loop_state :=
  mkState (mkV 0 0 0 1) 0 0 800 600 (mProject 90 (600 / 800) (1#10) 1000) true.

(** Lines 70-82: [vLookDir] and [vOrthDir] are [(0,0,1)] and [(1,0,0)]
    rotated by [mRotateY(fYaw) * mRotateX(fPitch)]. *)
Definition camera_directions (yaw pitch : Q) : vector3D * vector3D :=
  let matCameraRot := mat_mul (mRotateY yaw) (mRotateX pitch) in
  (vectorMatrixProduct (vec3 0 0 1) matCameraRot, vectorMatrixProduct (vec3 1 0 0) matCameraRot).

(** Lines 84-115, in the order of the source: the arrows move along the
    absolute axes, WASD along the camera's look and right directions. *)
Definition move_camera (k : keys) (dt : Q) (vLookDir vOrthDir c : vector3D) : vector3D :=
  let c := if kUp k then mkV (x c) (y c + 8 * dt) (z c) (w c) else c in
  let c := if kDown k then mkV (x c) (y c - 8 * dt) (z c) (w c) else c in
  let c := if kLeft k then mkV (x c + 8 * dt) (y c) (z c) (w c) else c in
  let c := if kRight k then mkV (x c - 8 * dt) (y c) (z c) (w c) else c in
  let vForward := vmul vLookDir (8 * dt) in
  let vRight := vmul vOrthDir (8 * dt) in
  let c := if kW k then vadd c vForward else c in
  let c := if kS k then vsub c vForward else c in
  let c := if kA k then vadd c vRight else c in
  if kD k then vsub c vRight else c.

(** The argument of [asin] at line 120 ([S] the screen dimension). *)
Definition mouse_arg (p : Z) (S : Q) : Q := (inject_Z p - S / 2) / (S / 2).

(** Lines 118-122: inside the window, yaw and pitch follow the mouse. *)
Definition mouse_update (W Hh : Q) (pos : Z * Z) (yaw pitch : Q) : Q * Q :=
  let '(px, py) := pos in
  if (0 <? px)%Z && Qltb (inject_Z px) W && (0 <? py)%Z && Qltb (inject_Z py) Hh
  then (2 * asinf (mouse_arg px W), 2 * asinf (mouse_arg py Hh))
  else (yaw, pitch).

(** Lines 80-124: the target is [vCamera + vLookDir] with the camera
    position of the start of the frame; [mPointAt] gets the moved
    camera.  The result: new position, yaw, pitch and [matCamera]. *)
Definition frame_camera (st : loop_state) (inp : frame_input) : vector3D * Q * Q * mat4x4 :=
  let '(vLookDir, vOrthDir) := camera_directions (fYaw st) (fPitch st) in
  let vTarget := vadd (vCamera st) vLookDir in
  let vCamera' := move_camera (pressed inp) (elapsed inp) vLookDir vOrthDir (vCamera st) in
  let '(yaw', pitch') :=
    mouse_update (fScreenWidth st) (fScreenHeight st) (mouse inp) (fYaw st) (fPitch st) in
  (vCamera', yaw', pitch', mPointAt vCamera' vTarget (vec3 0 1 0)).

(** Lines 131-138 for one event. *)
Definition handle_event (st : loop_state) (e : event) : loop_state :=
  match e with
  | Closed =>
      mkState (vCamera st) (fYaw st) (fPitch st) (fScreenWidth st) (fScreenHeight st)
              (matProj st) false
  | Resized wdt hgt =>
      let fH := inject_Z (Z.of_N hgt) in
      let fW := inject_Z (Z.of_N wdt) in
      mkState (vCamera st) (fYaw st) (fPitch st) fW fH
              (mProject 90 (fH / fW) (1#10) 1000) (window_open st)
  | OtherEvent => st
  end.

(** Lines 129-139: [while (window.pollEvent(event))] takes the queued
    events in order; once [window.close()] has run, [pollEvent] returns
    [false], so the events queued after [Closed] are not handled. *)
Fixpoint handle_events (st : loop_state) (es : list event) : loop_state :=
  match es with
  | [] => st
  | e :: es' => if window_open st then handle_events (handle_event st e) es' else st
  end.

(** The state at the end of an iteration. *)
Definition frame_state (st : loop_state) (inp : frame_input) : loop_state :=
  let '(vCamera', yaw', pitch', _) := frame_camera st inp in
  handle_events
    (mkState vCamera' yaw' pitch' (fScreenWidth st) (fScreenHeight st) (matProj st)
             (window_open st)) (events inp).

(** One iteration of the loop: its new state and the triangles it draws
    (lines 60-68: [matWorld = mIdentity() * mTranslate(0, 0, 8)]; the
    pipeline runs after the events, with the new projection and size). *)
Definition frame_step (tris : list triangle) (st : loop_state) (inp : frame_input)
  : loop_state * option (list triangle) :=
  let matWorld := mat_mul mIdentity (mTranslate 0 0 8) in
  let '(vCamera', _, _, matCamera) := frame_camera st inp in
  let matView := mQuickInverse matCamera in
  let st' := frame_state st inp in
  (st', render_frame matWorld matView (matProj st') vCamera' (fScreenWidth st')
                     (fScreenHeight st') tris).

(** [while (window.isOpen())] over a finite sequence of frames: the state
    after each frame and what it draws. *)
Fixpoint main_loop (tris : list triangle) (st : loop_state) (inputs : list frame_input)
  : list (loop_state * option (list triangle)) :=
  match inputs with
  | [] => []
  | inp :: rest =>
      if window_open st then
        let '(st', out) := frame_step tris st inp in (st', out) :: main_loop tris st' rest
      else []
  end.

(** The projection matches the current screen size. *)
Definition proj_consistent (st : loop_state) : Prop :=
  matProj st = mProject 90 (fScreenHeight st / fScreenWidth st) (1#10) 1000.

(** The states the loop can reach. *)
Inductive reachable : loop_state -> Prop :=
  | reach_init : reachable initial_state
  | reach_frame st inp : reachable st -> window_open st = true -> reachable (frame_state st inp).

End WithLibm.

(** Row [r] of a matrix, as a vector. *)
Definition mrow (a : mat4x4) (r : nat) : vector3D := mkV (m a r 0) (m a r 1) (m a r 2) (m a r 3).

Definition no_keys : keys := mkKeys false false false false false false false false.

(** A [Resized] event with a zero side (a minimised window) would make
    [fScreenHeight / fScreenWidth] at line 136 a [0 / 0]; the other
    events are harmless. *)
Definition resize_ok (e : event) : bool :=
  match e with
  | Resized wdt hgt => (0 <? wdt)%N && (0 <? hgt)%N
  | _ => true
  end.

Definition screen_positive (st : loop_state) : Prop := 0 < fScreenWidth st /\ 0 < fScreenHeight st.

(** ** Lemmas *)

Section Lemmas.
Context `{Libm}.

Lemma handle_event_consistent st e : proj_consistent st -> proj_consistent (handle_event st e).
Proof. destruct e; unfold proj_consistent; simpl; auto. Qed.

Lemma handle_events_consistent es st :
  proj_consistent st -> proj_consistent (handle_events st es).
Proof.
  revert st. induction es as [|e es IH]; intros st Hst; simpl; [exact Hst|].
  destruct (window_open st); [apply IH, handle_event_consistent|]; exact Hst.
Qed.

Lemma frame_state_consistent st inp : proj_consistent st -> proj_consistent (frame_state st inp).
Proof.
  intros Hst. unfold frame_state. destruct (frame_camera st inp) as [[[c yw] pt] mc].
  apply handle_events_consistent. exact Hst.
Qed.

Lemma handle_events_after_close es st : window_open st = false -> handle_events st es = st.
Proof. intros Hc. destruct es; simpl; [|rewrite Hc]; reflexivity. Qed.

Lemma handle_events_closed es st : In Closed es -> window_open (handle_events st es) = false.
Proof.
  revert st. induction es as [|e es IH]; intros st Hin; [contradiction|]. simpl.
  destruct (window_open st) eqn:Ho; [|exact Ho].
  destruct Hin as [->|Hin]; [rewrite handle_events_after_close; reflexivity | apply IH, Hin].
Qed.

Lemma frame_state_closed st inp : In Closed (events inp) -> window_open (frame_state st inp) = false.
Proof.
  intros Hc. unfold frame_state. destruct (frame_camera st inp) as [[[c yw] pt] mc].
  apply handle_events_closed, Hc.
Qed.

Lemma handle_events_positive es st :
  forallb resize_ok es = true -> screen_positive st -> screen_positive (handle_events st es).
Proof.
  revert st. induction es as [|e es IH]; intros st Hes Hst; simpl; [exact Hst|].
  apply andb_prop in Hes as [He Hes]. destruct (window_open st); [apply IH; [exact Hes|]|exact Hst].
  destruct e as [|wdt hgt|]; simpl; try exact Hst.
  apply andb_prop in He as [Hw Hh]. apply N.ltb_lt in Hw, Hh.
  unfold screen_positive; simpl. change 0 with (inject_Z 0). rewrite <- !Zlt_Qlt. lia.
Qed.

Lemma frame_state_positive st inp :
  forallb resize_ok (events inp) = true -> screen_positive st -> screen_positive (frame_state st inp).
Proof.
  intros He Hst. unfold frame_state. destruct (frame_camera st inp) as [[[c yw] pt] mc].
  apply handle_events_positive; exact He || exact Hst.
Qed.

Lemma reachable_consistent st : reachable st -> proj_consistent st.
Proof. induction 1 as [|st inp _ IH _]; [reflexivity | apply frame_state_consistent, IH]. Qed.


Lemma frame_step_state tris st inp : fst (frame_step tris st inp) = frame_state st inp.
Proof. unfold frame_step. destruct (frame_camera st inp) as [[[c yw] pt] mc]. reflexivity. Qed.

(** Row 2 of [mPointAt] is the normalised forward direction. *)
Lemma mPointAt_row2 pos target up :
  mrow (mPointAt pos target up) 2 =
  mkV (x (vNormalise (vsub target pos))) (y (vNormalise (vsub target pos)))
      (z (vNormalise (vsub target pos))) 0.
Proof. reflexivity. Qed.

End Lemmas.

Section CameraLemmas.
Context `{LibmLaws}.

(** The forward axis of [matCamera]: the look direction minus this
    frame's displacement of the camera. *)
Lemma frame_camera_forward st inp :
  let '(vLookDir, _) := camera_directions (fYaw st) (fPitch st) in
  let '(vCamera', _, _, matCamera) := frame_camera st inp in
  veq3 (mrow matCamera 2) (vNormalise (vsub vLookDir (vsub vCamera' (vCamera st)))).
Proof.
  unfold frame_camera. destruct (camera_directions (fYaw st) (fPitch st)) as [L O].
  destruct (mouse_update _ _ _ _ _) as [yw pt]. rewrite mPointAt_row2.
  set (c' := move_camera _ _ _ _ _).
  assert (E : veq3 (vsub (vadd (vCamera st) L) c') (vsub L (vsub c' (vCamera st))))
    by (unfold veq3; simpl; repeat split; ring).
  destruct (vNormalise_veq3 _ _ E) as (E1&E2&E3). unfold veq3; simpl. auto.
Qed.

End CameraLemmas.

(** ** Properties of the frame loop (claims) *)

(** C32: the camera rotation of lines 70-82 is orthonormal wherever
    [sinf] and [cosf] satisfy [sin^2 + cos^2 = 1] at the yaw and the
    pitch: [vLookDir] and [vOrthDir] are unit vectors and orthogonal. *)
Theorem camera_directions_orthonormal `{Libm} (yaw pitch : Q) :
  sinf yaw * sinf yaw + cosf yaw * cosf yaw == 1 ->
  sinf pitch * sinf pitch + cosf pitch * cosf pitch == 1 ->
  vDotProduct (fst (camera_directions yaw pitch)) (fst (camera_directions yaw pitch)) == 1 /\
  vDotProduct (snd (camera_directions yaw pitch)) (snd (camera_directions yaw pitch)) == 1 /\
  vDotProduct (fst (camera_directions yaw pitch)) (snd (camera_directions yaw pitch)) == 0.
Proof.
  intros Hy Hp. unfold camera_directions, vDotProduct, vectorMatrixProduct. cbn [fst snd x y z w].
  rewrite !mat_mul_entry by lia. cbn.
  set (sa := sinf yaw) in *. set (ca := cosf yaw) in *.
  set (sb := sinf pitch) in *. set (cb := cosf pitch) in *.
  split; [|split].
  - transitivity (sa * sa + ca * ca * (sb * sb + cb * cb)); [ring|]. rewrite Hp. nra.
  - transitivity (ca * ca + sa * sa * (sb * sb + cb * cb)); [ring|]. rewrite Hp. nra.
  - transitivity (sa * ca * (sb * sb + cb * cb - 1)); [ring|]. rewrite Hp. ring.
Qed.

Section CameraClaims.
Context `{LibmLaws}.

(** C8: the target is computed before the camera moves (line 81 uses
    the position of the start of the frame, line 124 the moved one): the
    forward axis of [matCamera] is the look direction minus this frame's
    displacement, normalised, instead of the look direction. *)
Theorem frame_camera_stale_target (st : loop_state) (inp : frame_input) :
  let '(vLookDir, _) := camera_directions (fYaw st) (fPitch st) in
  let '(vCamera', _, _, matCamera) := frame_camera st inp in
  veq3 (mrow matCamera 2) (vNormalise (vsub vLookDir (vsub vCamera' (vCamera st)))).
Proof. exact (frame_camera_forward st inp). Qed.

(** C13: consequence: holding [W] during a frame longer than 1/8 s turns
    the camera round: its forward axis points against the look direction
    ([8 * elapsed > 1] moves the camera past the stale target). *)
Theorem frame_camera_w_backwards (st : loop_state) (inp : frame_input) :
  pressed inp = mkKeys false false false false true false false false ->
  1 < 8 * elapsed inp ->
  0 < vDotProduct (fst (camera_directions (fYaw st) (fPitch st)))
                  (fst (camera_directions (fYaw st) (fPitch st))) ->
  vDotProduct (mrow (snd (frame_camera st inp)) 2) (fst (camera_directions (fYaw st) (fPitch st)))
    < 0.
Proof.
  intros Hk Hdt HL. pose proof (frame_camera_forward st inp) as Hf.
  unfold frame_camera in *. destruct (camera_directions (fYaw st) (fPitch st)) as [L O].
  cbn [fst] in *. destruct (mouse_update _ _ _ _ _) as [yw pt]. cbn [snd].
  rewrite Hk in Hf |- *. set (k := 8 * elapsed inp) in *.
  assert (E : veq3 (vsub L (vsub (move_camera (mkKeys false false false false true false false false)
                                             (elapsed inp) L O (vCamera st)) (vCamera st)))
                   (vmul L (1 - k))) by (unfold veq3, k; simpl; repeat split; ring).
  rewrite (vDot_veq3 _ _ L L (transitivity Hf (vNormalise_veq3 _ _ E)) (reflexivity L)).
  rewrite vDot_vNormalise_l, vDot_mul_l.
  assert (Hlen : 0 < vLength (vmul L (1 - k))).
  { apply vLength_pos. rewrite vDot_mul_l, vDot_mul_r.
    assert (0 < (1 - k) * (1 - k)) by nra. nra. }
  apply Qlt_shift_div_r; [exact Hlen|]. rewrite Qmult_0_l. nra.
Qed.

(** C9: safety of every frame of a run from a reachable state with a
    non-empty screen, whose [Resized] events all have non-zero sides and
    where [tanf] of the field of view is non-zero: after each frame the
    projection is [mProject 90 (h / w) 0.1 1000] of the current screen
    size (so by C4 every perspective divide is by [w >= 0.1]), the screen
    is non-empty, and the frame's picture is computed without undefined
    behaviour with every drawn vertex in [[0, fScreenWidth - 1] x
    [0, fScreenHeight - 1]] of that frame's size.  The SFML view, which
    keeps the 800 x 600 coordinates after a resize (the comment of line
    133), is not modelled. *)
Theorem main_loop_on_screen (tris : list triangle) (st : loop_state) (inputs : list frame_input) :
  ~ tanf (90 * (1#2) / 180 * (314159 # 100000)) == 0 ->
  reachable st -> screen_positive st ->
  Forall (fun inp => forallb resize_ok (events inp) = true) inputs ->
  Forall (fun p => proj_consistent (fst p) /\ screen_positive (fst p) /\
            exists drawn, snd p = Some drawn /\
            all_vertices (on_screen (fScreenWidth (fst p)) (fScreenHeight (fst p))) drawn)
         (main_loop tris st inputs).
Proof.
  intros _. revert st. induction inputs as [|inp rest IH]; intros st Hr Hp Hin; simpl; [constructor|].
  inversion Hin as [|? ? Hi Hrest]; subst.
  destruct (window_open st) eqn:Ho; [|constructor].
  pose proof (frame_step_state tris st inp) as Es.
  assert (Hr' : reachable (frame_state st inp)) by (apply reach_frame; assumption).
  pose proof (frame_state_positive st inp Hi Hp) as Hp'.
  destruct (frame_step tris st inp) as [st' out] eqn:E. simpl in Es. subst st'.
  constructor; [|apply IH; assumption]. cbn [fst snd].
  split; [apply reachable_consistent, Hr'|]. split; [exact Hp'|].
  unfold frame_step in E. destruct (frame_camera st inp) as [[[c yw] pt] mc].
  injection E; intros; subst out. apply render_frame_spec.
Qed.


End CameraClaims.

(** C10: invariant of the loop: in every reachable state the projection
    matrix is the one of the current aspect ratio (initially 600/800,
    then rebuilt by every [Resized] event). *)
Theorem reachable_proj_consistent `{Libm} (st : loop_state) : reachable st -> proj_consistent st.
Proof. apply reachable_consistent. Qed.

(** C37: closing the window ends the loop: after a frame whose events
    contain [Closed], no further frame runs. *)
Theorem main_loop_closed `{Libm} (tris : list triangle) (st : loop_state) (inp : frame_input)
  (rest : list frame_input) :
  In Closed (events inp) -> (length (main_loop tris st (inp :: rest)) <= 1)%nat.
Proof.
  intros Hc. simpl. destruct (window_open st); [|simpl; lia].
  pose proof (frame_step_state tris st inp) as Es.
  destruct (frame_step tris st inp) as [st' out]. simpl in Es. subst st'.
  destruct rest as [|inp' rest]; simpl; [lia|]. rewrite frame_state_closed by exact Hc. simpl. lia.
Qed.

(** ** Examples and witnesses *)

Abbreviation keys_up := (mkKeys true false false false false false false false) (only parsing).
Abbreviation keys_w := (mkKeys false false false false true false false false) (only parsing).

(** Holding the up arrow through one frame at 60 Hz tilts the view: the
    forward axis of [matCamera] gets a negative y component, though the
    look direction is [(0, 0, 1)]. *)
Example frame_camera_up_arrow_tilts :
  Qltb (m (snd (frame_camera initial_state (mkInput (1#60) keys_up (0, 0)%Z []))) 2 1) 0 = true.
Proof. vm_compute. reflexivity. Qed.

Lemma camera_directions_orthonormal_witness :
  (sinf 0 * sinf 0 + cosf 0 * cosf 0 == 1) /\
  vDotProduct (fst (camera_directions 0 0)) (fst (camera_directions 0 0)) == 1 /\
  vDotProduct (snd (camera_directions 0 0)) (snd (camera_directions 0 0)) == 1 /\
  vDotProduct (fst (camera_directions 0 0)) (snd (camera_directions 0 0)) == 0.
Proof.
  split; [vm_compute; reflexivity|].
  apply camera_directions_orthonormal; vm_compute; reflexivity.
Defined.

Lemma frame_camera_stale_target_witness :
  let '(vLookDir, _) := camera_directions (fYaw initial_state) (fPitch initial_state) in
  let '(vCamera', _, _, matCamera) := frame_camera initial_state (mkInput (1#60) keys_up (0, 0)%Z []) in
  veq3 (mrow matCamera 2) (vNormalise (vsub vLookDir (vsub vCamera' (vCamera initial_state)))).
Proof. exact (frame_camera_stale_target initial_state (mkInput (1#60) keys_up (0, 0)%Z [])). Defined.

Lemma frame_camera_w_backwards_witness :
  vDotProduct (mrow (snd (frame_camera initial_state (mkInput (1#4) keys_w (0, 0)%Z []))) 2)
              (fst (camera_directions (fYaw initial_state) (fPitch initial_state))) < 0.
Proof.
  apply frame_camera_w_backwards; [reflexivity | vm_compute; reflexivity | vm_compute; reflexivity].
Defined.

Lemma main_loop_on_screen_witness :
  Forall (fun p => proj_consistent (fst p) /\ screen_positive (fst p) /\
            exists drawn, snd p = Some drawn /\
            all_vertices (on_screen (fScreenWidth (fst p)) (fScreenHeight (fst p))) drawn)
         (main_loop [] initial_state [mkInput (1#60) keys_up (0, 0)%Z [Resized 1024 768]]).
Proof.
  apply main_loop_on_screen.
  - qdecide.
  - apply reach_init.
  - split; qdecide.
  - repeat constructor.
Defined.


Lemma reachable_proj_consistent_witness :
  proj_consistent (frame_state initial_state (mkInput (1#60) keys_up (0, 0)%Z [Resized 1024 768])).
Proof. apply reachable_proj_consistent. apply reach_frame; [apply reach_init | reflexivity]. Defined.

Lemma main_loop_closed_witness :
  (length (main_loop [] initial_state [mkInput (1#60) keys_up (0, 0)%Z [Closed];
                                      mkInput (1#60) keys_up (0, 0)%Z []]) <= 1)%nat.
Proof. apply main_loop_closed. left. reflexivity. Defined.

End MainLoop.
